(** * 4cget: a shallow embedding of the thread image downloader

    The development follows the Go sources of the repository:

    - [src/code/4cget.go]  the current program (site table, retry loop,
      existence pre-check), embedded in [Module Current];
    - [src/4cget.go]       the previous program (".jpg" default names and
      the extension fallback), embedded in [Module Legacy].

    Go strings are byte sequences and are modelled as [list ascii].  The
    parts of the Go standard library the program calls ([strings],
    [regexp], [path/filepath]) are modelled first, then the operating
    system and the network as an explicit world, then the program. *)

From Stdlib Require Import ZArith Ascii String.
From stdpp Require Import base tactics option list gmap sets strings.

Local Open Scope Z_scope.
Local Open Scope list_scope.

Abbreviation gostring := (list ascii).

(** A Go string literal. *)
Definition lit (s : string) : gostring := list_ascii_of_string s.
Arguments lit : simpl never.

(** Go's [s[i]] on a slice: [None] stands for the run-time panic
    "index out of range". *)
Definition index {A} (l : list A) (i : Z) : option A :=
  if decide (0 <= i) then l !! Z.to_nat i else None.

(** ** Package [strings] *)
Module Strings.

Fixpoint HasPrefix (s prefix : gostring) {struct prefix} : bool :=
  match prefix with
  | [] => true
  | p :: prefix' =>
      match s with
      | [] => false
      | c :: s' => if decide (p = c) then HasPrefix s' prefix' else false
      end
  end.

Fixpoint Contains (s substr : gostring) : bool :=
  HasPrefix s substr ||
  match s with
  | [] => false
  | _ :: s' => Contains s' substr
  end.

Definition HasSuffix (s suffix : gostring) : bool :=
  HasPrefix (reverse s) (reverse suffix).

(** [Cut s sep]: the text before and after the first instance of [sep]. *)
Fixpoint Cut (s sep : gostring) : option (gostring * gostring) :=
  if HasPrefix s sep then Some ([], drop (length sep) s)
  else match s with
       | [] => None
       | c :: s' =>
           match Cut s' sep with
           | Some (before, after) => Some (c :: before, after)
           | None => None
           end
       end.

(** [Replace s old new n] for [n >= 0] and a non-empty [old]: the first
    [n] non-overlapping instances of [old] are replaced. *)
Fixpoint Replace (s old new : gostring) (n : nat) : gostring :=
  match n with
  | O => s
  | S n' =>
      match Cut s old with
      | Some (before, after) => before ++ new ++ Replace after old new n'
      | None => s
      end
  end.

Definition cons_head (c : ascii) (parts : list gostring) : list gostring :=
  match parts with
  | h :: t => (c :: h) :: t
  | [] => [[c]]
  end.

(** [skip] counts the bytes of a separator instance that was just
    recognised and is still to be passed over. *)
Fixpoint split_from (sep : gostring) (skip : nat) (s : gostring)
  : list gostring :=
  match s with
  | [] => [[]]
  | c :: s' =>
      match skip with
      | S k => split_from sep k s'
      | O =>
          if HasPrefix s sep
          then [] :: split_from sep (length sep - 1) s'
          else cons_head c (split_from sep 0 s')
      end
  end.

(** [Split s sep] for a non-empty [sep] (the program only splits on
    "/" and ".jpg"). *)
Definition Split (s sep : gostring) : list gostring := split_from sep 0 s.

Fixpoint Join (elems : list gostring) (sep : gostring) : gostring :=
  match elems with
  | [] => []
  | [e] => e
  | e :: rest => e ++ sep ++ Join rest sep
  end.

End Strings.

(** ** Package [regexp]

    The patterns of the program are built from literals, character
    classes, [+] on a class, [?], alternation, one capture group and
    [\b].  Matching is leftmost-first: among the matches starting at the
    leftmost possible position, the one a backtracking search finds first,
    which is what Go's [regexp] returns.  All literals of the patterns
    are ASCII and every class is a negated or plain ASCII class, so
    matching bytes or runes gives the same matches. *)
Module Regexp.

Inductive regex : Type :=
| Lit (s : gostring)
| Class (cls : ascii -> bool)
| Plus (cls : ascii -> bool)
| Opt (r : regex)
| Alt (r1 r2 : regex)
| Cat (r1 r2 : regex)
| Group (r : regex)
| WordBoundary.

Definition is_digit (c : ascii) : bool :=
  let n := nat_of_ascii c in (48 <=? n)%nat && (n <=? 57)%nat.
Definition is_upper (c : ascii) : bool :=
  let n := nat_of_ascii c in (65 <=? n)%nat && (n <=? 90)%nat.
Definition is_lower (c : ascii) : bool :=
  let n := nat_of_ascii c in (97 <=? n)%nat && (n <=? 122)%nat.
Definition is_alnum (c : ascii) : bool := is_lower c || is_upper c || is_digit c.
(** [\w] *)
Definition is_word (c : ascii) : bool := is_alnum c || bool_decide (c = "_"%char).
Definition not_char (x : ascii) (c : ascii) : bool := negb (bool_decide (c = x)).
Definition one_of (xs : list ascii) (c : ascii) : bool := bool_decide (c ∈ xs).
Definition none_of (xs : list ascii) (c : ascii) : bool := negb (one_of xs c).

Definition word_opt (c : option ascii) : bool :=
  match c with Some c => is_word c | None => false end.

(** The matcher state: the byte before the cursor (for [\b]), the
    input from the cursor on, and the text of group 1 if it took part. *)
Section Matcher.
Context {R : Type}.
Abbreviation cont := (option ascii -> gostring -> option gostring -> option R).

Fixpoint lit_here (l : gostring) (prev : option ascii) (s : gostring)
  : option (option ascii * gostring) :=
  match l with
  | [] => Some (prev, s)
  | x :: l' =>
      match s with
      | c :: s' => if decide (x = c) then lit_here l' (Some c) s' else None
      | [] => None
      end
  end.

(** Greedy [cls+]: take as many bytes as possible, give one back at a
    time while the continuation fails. *)
Fixpoint plus_here (cls : ascii -> bool) (s : gostring) (cap : option gostring)
  (k : cont) : option R :=
  match s with
  | c :: s' =>
      if cls c then
        match plus_here cls s' cap k with
        | Some r => Some r
        | None => k (Some c) s' cap
        end
      else None
  | [] => None
  end.

Fixpoint run (r : regex) (prev : option ascii) (s : gostring)
  (cap : option gostring) (k : cont) : option R :=
  match r with
  | Lit l =>
      match lit_here l prev s with
      | Some (prev', s') => k prev' s' cap
      | None => None
      end
  | Class cls =>
      match s with
      | c :: s' => if cls c then k (Some c) s' cap else None
      | [] => None
      end
  | Plus cls => plus_here cls s cap k
  | Opt r1 =>
      match run r1 prev s cap k with
      | Some x => Some x
      | None => k prev s cap
      end
  | Alt r1 r2 =>
      match run r1 prev s cap k with
      | Some x => Some x
      | None => run r2 prev s cap k
      end
  | Cat r1 r2 => run r1 prev s cap (fun prev' s' cap' => run r2 prev' s' cap' k)
  | Group r1 =>
      run r1 prev s cap
        (fun prev' s' _ => k prev' s' (Some (take (length s - length s') s)))
  | WordBoundary =>
      if xorb (word_opt prev) (word_opt (head s)) then k prev s cap else None
  end.
End Matcher.

(** One match: the whole matched text and the text of group 1 (the
    empty string when the group took no part), as in a row
    [match[0], match[1]] of [FindAllStringSubmatch]. *)
Definition submatch : Type := gostring * gostring.

Definition match_here (r : regex) (prev : option ascii) (s : gostring)
  : option submatch :=
  run r prev s None
    (fun _ s' cap => Some (take (length s - length s') s, default [] cap)).

(** The scan over the input: [skip] is the number of bytes of the last
    match still to be passed over, so that matches do not overlap; after
    an empty match the scan moves on by one byte. *)
Fixpoint scan (r : regex) (skip : nat) (prev : option ascii) (s : gostring)
  : list submatch :=
  match s with
  | [] => []
  | c :: s' =>
      match skip with
      | S n => scan r n (Some c) s'
      | O =>
          match match_here r prev s with
          | Some m => m :: scan r (length (fst m) - 1) (Some c) s'
          | None => scan r 0 (Some c) s'
          end
      end
  end.

(** [re.FindAllStringSubmatch(s, -1)] *)
Definition FindAllStringSubmatch (r : regex) (s : gostring) : list submatch :=
  scan r 0 None s.

(** [re.FindAllString(s, -1)] *)
Definition FindAllString (r : regex) (s : gostring) : list gostring :=
  fst <$> FindAllStringSubmatch r s.

End Regexp.

(** ** Package [path/filepath] (Unix) *)
Module Filepath.

Definition dot : gostring := lit ".".
Definition dotdot : gostring := lit "..".
Definition slash : gostring := lit "/".

(** One path element of [Clean]; [out] holds the elements kept so far,
    the last one first. *)
Definition clean_step (rooted : bool) (out : list gostring) (elem : gostring)
  : list gostring :=
  if decide (elem = []) then out
  else if decide (elem = dot) then out
  else if decide (elem = dotdot) then
    match out with
    | top :: rest => if decide (top = dotdot) then elem :: out else rest
    | [] => if rooted then [] else [elem]
    end
  else elem :: out.

Definition clean_elems (rooted : bool) (elems : list gostring) : list gostring :=
  reverse (foldl (clean_step rooted) [] elems).

Definition Clean (path : gostring) : gostring :=
  if decide (path = []) then dot
  else
    let rooted := Strings.HasPrefix path slash in
    let out := clean_elems rooted (Strings.Split path slash) in
    if rooted then slash ++ Strings.Join out slash
    else if decide (out = []) then dot
    else Strings.Join out slash.

(** [filepath.Join(a, b)]: empty elements are ignored, the result is
    cleaned, and it is empty when both elements are. *)
Definition Join (a b : gostring) : gostring :=
  if decide (a = []) then
    if decide (b = []) then [] else Clean b
  else Clean (a ++ slash ++ b).

End Filepath.

(** ** The world: file system, network, clock and console

    What the operating system and the network answer is not decided by
    the program.  The answers that do not depend on the file system are
    fixed in advance in an environment [env]; the file system, the number
    of requests issued so far and the trace of observable events are the
    mutable state [world]. *)
Module OS.

Inductive result (A : Type) : Type :=
| Ok (a : A)
| Panic.
Arguments Ok {A} a.
Arguments Panic {A}.

Inductive node : Type :=
| File (content : gostring)
| Dir.

(** [*http.Response]: the body is the bytes it delivers; [BodyErr] tells
    that reading it ends with an error instead of end-of-file. *)
Record response : Type := {
  StatusCode : Z;
  Body : gostring;
  BodyErr : bool
}.

(** The pair [(resp, err)] returned by [http.Get]: a response and no
    error, or an error together with a nil response ([GetFail None],
    connection failures) or with the last response of a failed redirect
    chain, whose body is already closed ([GetFail (Some r)]). *)
Inductive get_result : Type :=
| GetResp (r : response)
| GetFail (r : option response).

(** Reading a closed body fails at once. *)
Definition closed (r : response) : response :=
  {| StatusCode := StatusCode r; Body := []; BodyErr := true |}.

Inductive stat_result : Type :=
| StatInfo (isDir : bool)
| StatNotExist
| StatErr.

Inductive message : Type :=
| MsgNoSite (siteID : gostring)
| MsgGetError
| MsgFailed (fileName : gostring)
| MsgCreateError
| MsgCopyError
| MsgDownloaded (fileName : gostring) (bytes : Z) (suffix : Z)
| MsgFolderCreated
| MsgCountdown (seconds : Z)
| MsgComplete (files : Z) (thread : gostring).

Inductive event : Type :=
| EvGet (url : gostring)
| EvSleep (d : Z)
| EvCreate (path : gostring)
| EvCopy (path : gostring) (written : Z)
| EvPrint (m : message).

Record env : Type := {
  (** the answer to the [n]-th request of the run *)
  http_get : nat -> gostring -> get_result;
  (** [os.Stat] fails there with an error other than "not exist" *)
  stat_fails : gostring -> bool;
  (** [os.Create] fails there (permissions, missing directory) *)
  create_fails : gostring -> bool;
  (** the file there takes no more than that many bytes (disk full) *)
  write_limit : gostring -> option nat;
  (** [int(math.Floor(math.Log(float64(b)) / math.Log(1024)))], a
      [float64] computation, kept abstract *)
  size_exponent : Z -> Z;
  (** the order in which the goroutines of one batch run *)
  order : forall A : Type, list A -> list A
}.

Record world : Type := {
  fs : gmap gostring node;
  clock : nat;
  log : list event
}.

Definition emit (ev : event) (w : world) : world :=
  {| fs := fs w; clock := clock w; log := log w ++ [ev] |}.

Definition set_fs (m : gmap gostring node) (w : world) : world :=
  {| fs := m; clock := clock w; log := log w |}.

(** The file a path names: path resolution passes over repeated
    separators and dot elements (no symbolic links). *)
Definition resolve (path : gostring) : gostring := Filepath.Clean path.

Definition http_Get (e : env) (url : gostring) (w : world) : get_result * world :=
  (http_get e (clock w) url,
   {| fs := fs w; clock := S (clock w); log := log w ++ [EvGet url] |}).

Definition os_Stat (e : env) (path : gostring) (w : world) : stat_result :=
  if decide (path = []) then StatNotExist
  else if stat_fails e (resolve path) then StatErr
  else match fs w !! resolve path with
       | Some (File _) => StatInfo false
       | Some Dir => StatInfo true
       | None => StatNotExist
       end.

Definition IsNotExist (s : stat_result) : bool :=
  match s with StatNotExist => true | _ => false end.

(** [os.Create]: creates the file or truncates it; [false] is an error. *)
Definition os_Create (e : env) (path : gostring) (w : world) : bool * world :=
  let w1 := emit (EvCreate path) w in
  if decide (path = []) then (false, w1)
  else if create_fails e (resolve path) then (false, w1)
  else match fs w !! resolve path with
       | Some Dir => (false, w1)
       | _ => (true, set_fs (<[resolve path := File []]> (fs w)) w1)
       end.

(** The bytes that [io.Copy(file, resp.Body)] gets into the file at
    [path]. *)
Definition copied (e : env) (path : gostring) (r : response) : gostring :=
  match write_limit e (resolve path) with
  | Some k => take k (Body r)
  | None => Body r
  end.

(** [io.Copy(file, resp.Body)] into the file just created at [path]:
    the number of bytes written and whether an error stopped the copy. *)
Definition io_Copy (e : env) (path : gostring) (r : response) (w : world)
  : (Z * bool) * world :=
  let written := copied e path r in
  let err := BodyErr r || negb (length (Body r) <=? length written)%nat in
  let n := Z.of_nat (length written) in
  ((n, err),
   set_fs (<[resolve path := File written]> (fs w)) (emit (EvCopy path n) w)).

(** [os.MkdirAll], its error ignored by the caller. *)
Definition os_MkdirAll (e : env) (path : gostring) (w : world) : world :=
  if decide (path = []) then w
  else if create_fails e (resolve path) then w
  else match fs w !! resolve path with
       | Some _ => w
       | None => set_fs (<[resolve path := Dir]> (fs w)) w
       end.

Definition Millisecond : Z := 1000000.
Definition Second : Z := 1000 * Millisecond.

(** Go's [int] is 64 bits wide here. *)
Definition wrap_int (z : Z) : Z := (z + 2 ^ 63) mod 2 ^ 64 - 2 ^ 63.

End OS.

(** ** The current program, [src/code/4cget.go] *)
Module Current.
Import Strings Regexp OS.

Record Config : Type := {
  RetryAttempts : Z;
  SleepBetweenAttempts : Z
}.

Definition GlobalConfig : Config :=
  {| RetryAttempts := 10; SleepBetweenAttempts := 5000 * Millisecond |}.

(** The package-level [monitorMode].  [main] declares a local variable
    of the same name and only ever assigns that one, so the package-level
    variable keeps its zero value. *)
Definition monitorMode : bool := false.

Record SiteInfo : Type := {
  ID : gostring;
  URL : gostring;
  ImgRE : regex
}.

Definition dquote : ascii := "034"%char.

(** The pattern [<a[^>]+href=Q(//i\.4cdn\.org[^Q]+)Q], where Q stands for
    the double quote character. *)
Definition re_4chan : regex :=
  Cat (Lit (lit "<a"))
 (Cat (Plus (not_char ">"%char))
 (Cat (Lit (lit "href=" ++ [dquote]))
 (Cat (Group (Cat (Lit (lit "//i.4cdn.org")) (Plus (not_char dquote))))
      (Lit [dquote])))).

(** [(https?://[^/]+/assets/images/src/[a-zA-Z0-9]+\.(?:png|jpg))] *)
Definition re_twochen : regex :=
  Group
   (Cat (Lit (lit "http"))
   (Cat (Opt (Lit (lit "s")))
   (Cat (Lit (lit "://"))
   (Cat (Plus (not_char "/"%char))
   (Cat (Lit (lit "/assets/images/src/"))
   (Cat (Plus is_alnum)
   (Cat (Lit (lit "."))
        (Alt (Lit (lit "png")) (Lit (lit "jpg")))))))))).

Definition siteInfoMap : gmap gostring SiteInfo :=
  <[lit "4chan" :=
      {| ID := lit "4chan"; URL := lit "https://boards.4chan.org";
         ImgRE := re_4chan |}]>
  (<[lit "twochen" :=
      {| ID := lit "twochen"; URL := lit "https://sturdychan.help/";
         ImgRE := re_twochen |}]> ∅).

(** [siteInfoMap[key]]: the zero value when the key is absent. *)
Definition zeroSiteInfo : SiteInfo :=
  {| ID := []; URL := []; ImgRE := Lit [] |}.
Definition siteInfo_at (key : gostring) : SiteInfo :=
  default zeroSiteInfo (siteInfoMap !! key).

(** The loop of [unique]: [u] is the set of the keys of the Go map. *)
Fixpoint unique_loop (u : gset gostring) (uniqueList : list gostring)
  (input : list gostring) : list gostring :=
  match input with
  | [] => uniqueList
  | val :: rest =>
      if decide (val ∈ u) then unique_loop u uniqueList rest
      else unique_loop ({[val]} ∪ u) (uniqueList ++ [val]) rest
  end.

Definition unique (input : list gostring) : list gostring :=
  unique_loop ∅ [] input.

(** The body of the loop over the matches in [findImages]. *)
Definition link_of_match (siteID : gostring) (m : submatch) : gostring :=
  let url := snd m in
  if decide (siteID = ID (siteInfo_at (lit "4chan")))
  then Replace url (lit "//i.4cdn.org") (lit "https://i.4cdn.org") 1
  else url.

(** [findImages]; the line it prints for an unknown site is returned
    with the links. *)
Definition findImages (html siteID : gostring) : list gostring * list message :=
  match siteInfoMap !! siteID with
  | None => ([], [MsgNoSite siteID])
  | Some siteInfo =>
      let matches := FindAllStringSubmatch (ImgRE siteInfo) html in
      let out := link_of_match siteID <$> matches in
      (unique out, [])
  end.

Definition fileExists (e : env) (path : gostring) (w : world) : result bool :=
  match os_Stat e path w with
  | StatInfo isDir => Ok (negb isDir)
  | StatNotExist => Ok false
  | StatErr => Panic
  end.

(** What a call of [downloadFile] amounts to, by the place it returns
    from. *)
Inductive reason : Type :=
| NonSuccessStatus
| CreateError
| CopyError.

Inductive outcome : Type :=
| Downloaded (fileName : gostring) (bytesWritten : Z)
| SkippedExisting
| Failed (why : reason).

(** The retry loop of [downloadFile]; [n] is the number of iterations
    left, [RetryAttempts - i], and [resp] the variable of that name. *)
Fixpoint retry_loop (e : env) (cfg : Config) (url : gostring) (n : nat)
  (resp : option response) (w : world) : option response * world :=
  match n with
  | O => (resp, w)
  | S n' =>
      let '(r, w1) := http_Get e url w in
      match r with
      | GetFail resp' =>
          retry_loop e cfg url n' (closed <$> resp')
            (emit (EvSleep (SleepBetweenAttempts cfg)) (emit (EvPrint MsgGetError) w1))
      | GetResp rp =>
          if decide (StatusCode rp ≠ 404 ∧ StatusCode rp ≠ 429) then (Some rp, w1)
          else retry_loop e cfg url n' (Some rp)
                 (emit (EvSleep (SleepBetweenAttempts cfg)) w1)
      end
  end.

Definition downloadFile (e : env) (cfg : Config) (url fileName path : gostring)
  (w : world) : result outcome * world :=
  let filePathName := Filepath.Join path fileName in
  match fileExists e filePathName w with
  | Panic => (Panic, w)
  | Ok true => (Ok SkippedExisting, w)
  | Ok false =>
      let '(resp, w1) :=
        retry_loop e cfg url (Z.to_nat (RetryAttempts cfg)) None w in
      match resp with
      | None => (Panic, w1)
      | Some rp =>
          if decide (StatusCode rp ≠ 200)
          then (Ok (Failed NonSuccessStatus), emit (EvPrint (MsgFailed fileName)) w1)
          else
            let filePath := path ++ lit "/" ++ fileName in
            if IsNotExist (os_Stat e filePath w1) || negb monitorMode then
              let '(created, w2) := os_Create e filePath w1 in
              if negb created
              then (Ok (Failed CreateError), emit (EvPrint MsgCreateError) w2)
              else
                let '((b, err), w3) := io_Copy e filePath rp w2 in
                if err
                then (Ok (Failed CopyError), emit (EvPrint MsgCopyError) w3)
                else
                  let k := size_exponent e b in
                  if decide (0 <= k < 5)
                  then (Ok (Downloaded fileName b),
                        emit (EvPrint (MsgDownloaded fileName b k)) w3)
                  else (Panic, w3)
            else (Ok SkippedExisting, w1)
      end
  end.

(** One goroutine to start: [go downloadFile(&wg, link, nameImg, pathResult)]. *)
Record job : Type := {
  job_url : gostring;
  job_fileName : gostring
}.

(** The loop over the links in [main]: the file name is the last
    element of the link split at "/", and [files] counts the links. *)
Fixpoint dispatch (links : list gostring) (files : Z) : result (list job * Z) :=
  match links with
  | [] => Ok ([], files)
  | link :: rest =>
      let parts := Split link (lit "/") in
      match index parts (Z.of_nat (length parts) - 1) with
      | None => Panic
      | Some nameImg =>
          match dispatch rest (wrap_int (files + 1)) with
          | Ok (jobs, files') =>
              Ok ({| job_url := link; job_fileName := nameImg |} :: jobs, files')
          | Panic => Panic
          end
      end
  end.

(** The goroutines of one batch, up to [wg.Wait()].  They are run one
    after the other; a panic in one of them ends the process. *)
Fixpoint run_workers (e : env) (cfg : Config) (path : gostring) (jobs : list job)
  (w : world) : result (list (job * outcome)) * world :=
  match jobs with
  | [] => (Ok [], w)
  | j :: rest =>
      match downloadFile e cfg (job_url j) (job_fileName j) path w with
      | (Panic, w1) => (Panic, w1)
      | (Ok o, w1) =>
          match run_workers e cfg path rest w1 with
          | (Ok outs, w2) => (Ok ((j, o) :: outs), w2)
          | (Panic, w2) => (Panic, w2)
          end
      end
  end.

Record cycle_report : Type := {
  files_after : Z;
  outcomes : list (job * outcome)
}.

(** The variable [resp] after [resp, _ := http.Get(...)]. *)
Definition response_of (r : get_result) : option response :=
  match r with
  | GetResp rp => Some rp
  | GetFail rp => closed <$> rp
  end.

(** The body of the main loop from the page in hand to [wg.Wait()];
    [io.ReadAll] gives what the body delivers, its error is ignored. *)
Definition process_page (e : env) (cfg : Config) (siteID pathResult : gostring)
  (files : Z) (page : get_result) (w : world) : result cycle_report * world :=
  match response_of page with
  | None => (Panic, w)
  | Some resp =>
      let body := Body resp in
      let '(links, printed) := findImages body siteID in
      let w1 := foldl (fun w m => emit (EvPrint m) w) w printed in
      match dispatch links files with
      | Panic => (Panic, w1)
      | Ok (jobs, files') =>
          match run_workers e cfg pathResult (order e job jobs) w1 with
          | (Ok outs, w2) => (Ok {| files_after := files'; outcomes := outs |}, w2)
          | (Panic, w2) => (Panic, w2)
          end
      end
  end.

Definition cycle (e : env) (cfg : Config) (inputUrl siteID pathResult : gostring)
  (files : Z) (w : world) : result cycle_report * world :=
  let '(page, w1) := http_Get e inputUrl w in
  process_page e cfg siteID pathResult files page w1.

(** The countdown loop, [for i := secondsIteration; i >= 0; i--];
    [k] is the number of iterations left. *)
Fixpoint countdown_from (k : nat) (i : Z) : list event :=
  match k with
  | O => []
  | S k' => EvPrint (MsgCountdown i) :: EvSleep (1 * Second) :: countdown_from k' (i - 1)
  end.

Definition countdown (secondsIteration : Z) : list event :=
  countdown_from (Z.to_nat (secondsIteration + 1)) secondsIteration.

Definition emit_all (evs : list event) (w : world) : world :=
  {| fs := fs w; clock := clock w; log := log w ++ evs |}.

Inductive run_result : Type :=
| Finished (files : Z)
| Running (files : Z)
| Crashed.

(** The main loop.  In monitor mode it has no exit; [fuel] bounds the
    number of cycles that are run, and [Running] is the state of a
    process that is still looping after them. *)
Fixpoint main_loop (fuel : nat) (e : env) (cfg : Config)
  (inputUrl siteID pathResult thread : gostring) (monitor : bool)
  (secondsIteration : Z) (files : Z) (w : world) : run_result * world :=
  match fuel with
  | O => (Running files, w)
  | S fuel' =>
      match cycle e cfg inputUrl siteID pathResult files w with
      | (Panic, w1) => (Crashed, w1)
      | (Ok rep, w1) =>
          if negb monitor
          then (Finished (files_after rep),
                emit (EvPrint (MsgComplete (files_after rep) thread)) w1)
          else main_loop fuel' e cfg inputUrl siteID pathResult thread monitor
                 secondsIteration (files_after rep)
                 (emit_all (countdown secondsIteration) w1)
      end
  end.

(** [main] from the point where the arguments are validated and the
    site is resolved. *)
Definition main (fuel : nat) (e : env) (cfg : Config)
  (inputUrl siteID actualPath : gostring) (monitor : bool) (secondsIteration : Z)
  (w : world) : run_result * world :=
  let parts := Split inputUrl (lit "/") in
  match index parts 3 with
  | None => (Crashed, w)
  | Some board =>
      let threadIndex :=
        if decide (siteID = ID (siteInfo_at (lit "4chan"))) then 5 else 4 in
      match index parts threadIndex with
      | None => (Crashed, w)
      | Some thread =>
          let boardDir := actualPath ++ lit "/" ++ board in
          let pathResult := boardDir ++ lit "/" ++ thread in
          let w1 := os_MkdirAll e boardDir w in
          let w2 := os_MkdirAll e pathResult w1 in
          main_loop fuel e cfg inputUrl siteID pathResult thread monitor
            secondsIteration 0 (emit (EvPrint MsgFolderCreated) w2)
      end
  end.

End Current.

(** ** The previous program, [src/4cget.go]

    Its file names are a run of digits of the link followed by ".jpg",
    and its worker looks for the file under other extensions when the
    ".jpg" link is not found. *)
Module Legacy.
Import Strings Regexp OS.

Definition dquote : ascii := "034"%char.
Definition squote : ascii := "039"%char.

(** The pattern [<img[^>]+\bsrc=[QA]([^QA]+)[QA]], where Q and A stand for
    the double and the single quote character. *)
Definition imgRE : regex :=
  Cat (Lit (lit "<img"))
 (Cat (Plus (not_char ">"%char))
 (Cat WordBoundary
 (Cat (Lit (lit "src="))
 (Cat (Class (one_of [dquote; squote]))
 (Cat (Group (Plus (none_of [dquote; squote])))
      (Class (one_of [dquote; squote]))))))).

Definition findImages (html : gostring) : list gostring :=
  snd <$> FindAllStringSubmatch imgRE html.

(** [regexp.MustCompile("[0-9]+")] in [main] *)
Definition re : regex := Plus is_digit.

Inductive outcome : Type :=
| Downloaded (fileName : gostring) (bytesWritten : Z)
| SkippedExisting
| NotFound.

(** The variable [resp] after [resp, _ := http.Get(...)]. *)
Definition response_of (r : get_result) : option response :=
  match r with
  | GetResp rp => Some rp
  | GetFail rp => closed <$> rp
  end.

Definition extList : list gostring := [lit ".png"; lit ".webm"; lit ".gif"].

(** The loop over [extList] in [downloadFile]; [resp] and [fileName]
    are the variables of these names. *)
Fixpoint fallback_loop (e : env) (urldext : gostring) (exts : list gostring)
  (resp : response) (fileName : gostring) (w : world)
  : result (response * gostring) * world :=
  match exts with
  | [] => (Ok (resp, fileName), w)
  | ext :: rest =>
      let '(r, w1) := http_Get e (urldext ++ ext) w in
      match response_of r with
      | None => (Panic, w1)
      | Some resp' =>
          if decide (StatusCode resp' ≠ 404)
          then (Ok (resp', Replace fileName (lit ".jpg") ext 1), w1)
          else fallback_loop e urldext rest resp' fileName w1
      end
  end.

(** Lines 36 to 46: the fallback taken when the first answer is 404. *)
Definition fallback (e : env) (url : gostring) (resp : response)
  (fileName : gostring) (w : world) : result (response * gostring) * world :=
  if decide (StatusCode resp = 404) then
    match index (Split url (lit ".jpg")) 0 with
    | None => (Panic, w)
    | Some urldext => fallback_loop e urldext extList resp fileName w
    end
  else (Ok (resp, fileName), w).

(** Lines 33 to 46: the first request and the fallback; the response
    and the file name the rest of [downloadFile] goes on with. *)
Definition locate (e : env) (url fileName : gostring) (w : world)
  : result (response * gostring) * world :=
  let '(r, w1) := http_Get e url w in
  match response_of r with
  | None => (Panic, w1)
  | Some resp0 => fallback e url resp0 fileName w1
  end.

Definition downloadFile (e : env) (monitorMode : bool)
  (url fileName path : gostring) (w : world) : result outcome * world :=
  match locate e url fileName w with
  | (Panic, w2) => (Panic, w2)
  | (Ok (resp, fileName'), w2) =>
      if decide (StatusCode resp ≠ 404) then
        let filePath := path ++ lit "//" ++ fileName' in
        if IsNotExist (os_Stat e filePath w2) || negb monitorMode then
          let '(created, w3) := os_Create e filePath w2 in
          let '((b, _), w4) :=
            if created then io_Copy e filePath resp w3
            else ((0, true), w3) in
          let k := size_exponent e b in
          if decide (0 <= k < 5)
          then (Ok (Downloaded fileName' b),
                emit (EvPrint (MsgDownloaded fileName' b k)) w4)
          else (Panic, w4)
        else (Ok SkippedExisting, w2)
      else (Ok NotFound, w2)
  end.

Record job : Type := {
  job_url : gostring;
  job_fileName : gostring
}.

(** The loop over the image sources in [main]: sources on the host of
    the cosmetic resources are passed over; the file name is the second
    run of digits of the link followed by ".jpg". *)
Fixpoint dispatch (srcs : list gostring) (files : Z) : result (list job * Z) :=
  match srcs with
  | [] => Ok ([], files)
  | each :: rest =>
      if negb (Contains each (lit "s.4cdn.org")) then
        let linkImg := lit "http:" ++ Replace each (lit "s.jpg") (lit ".jpg") 1 in
        match index (FindAllString re linkImg) 1 with
        | None => Panic
        | Some digits =>
            let nameImg := digits ++ lit ".jpg" in
            match dispatch rest (wrap_int (files + 1)) with
            | Ok (jobs, files') =>
                Ok ({| job_url := linkImg; job_fileName := nameImg |} :: jobs, files')
            | Panic => Panic
            end
        end
      else dispatch rest files
  end.

End Legacy.

(** ** Concrete pages, environments and worlds *)
Module Examples.
Import Strings Regexp OS.

Definition quoted (s : string) : gostring := Current.dquote :: lit s ++ [Current.dquote].

(** The value of the size computation in exact arithmetic; the
    conversion of minus infinity, for [b = 0], gives the least [int]. *)
Definition exact_size_exponent (b : Z) : Z :=
  if decide (b <= 0) then - 2 ^ 63 else Z.log2 b / 10.

(** An environment without file system errors in which the network
    answers as [net] says and the goroutines run in dispatch order. *)
Definition env_of (net : nat -> gostring -> get_result) : env :=
  {| http_get := net;
     stat_fails := fun _ => false;
     create_fails := fun _ => false;
     write_limit := fun _ => None;
     size_exponent := exact_size_exponent;
     order := fun _ l => l |}.

Definition world0 : world := {| fs := ∅; clock := 0; log := [] |}.

Definition ok (status : Z) (body : string) : get_result :=
  GetResp {| StatusCode := status; Body := lit body; BodyErr := false |}.

(** A thread page of the first site with three links, the first of
    them twice, two of them with the same last path element. *)
Definition page_4chan : gostring :=
  lit "<div><a class=x href=" ++ quoted "//i.4cdn.org/a/1.jpg" ++
  lit ">1</a><a href=" ++ quoted "//i.4cdn.org/b/1.jpg" ++
  lit " target=y>2</a><a href=" ++ quoted "//i.4cdn.org/a/1.jpg" ++
  lit ">3</a><a href=" ++ quoted "//i.4cdn.org/a/2.png" ++ lit "></div>".

(** A thread page with three links in one directory. *)
Definition page_three : gostring :=
  lit "<a href=" ++ quoted "//i.4cdn.org/w/1.jpg" ++
  lit "><a href=" ++ quoted "//i.4cdn.org/w/2.png" ++
  lit "><a href=" ++ quoted "//i.4cdn.org/w/3.gif" ++ lit ">".

Definition thread_url : gostring := lit "https://boards.4chan.org/w/thread/123".

(** The thread page is served, and every image with it. *)
Definition net_three (n : nat) (url : gostring) : get_result :=
  if decide (url = thread_url)
  then GetResp {| StatusCode := 200; Body := page_three; BodyErr := false |}
  else ok 200 "image bytes".



Definition dir_123 : gostring := lit "/home/u/w/123".

(** The image of the thread is there under ".png" only. *)
Definition legacy_stem : gostring := lit "http://i.4cdn.org/w/1700000000123".
Definition legacy_digits : gostring := lit "1700000000123".
Definition net_png_only (n : nat) (url : gostring) : get_result :=
  if decide (url = legacy_stem ++ lit ".png") then ok 200 "png bytes"
  else ok 404 "".

(** A page of the previous layout with the thumbnail of that image. *)
Definition page_legacy : gostring :=
  lit "<div><img alt=x src=" ++ quoted "//i.4cdn.org/w/1700000000123s.jpg" ++
  lit " style=y></div>".

(** A page of the previous layout with two thumbnails of a board whose
    name is a digit. *)
Definition page_legacy_board3 : gostring :=
  lit "<img src=" ++ quoted "//i.4cdn.org/3/1700000000123s.jpg" ++
  lit "><img src=" ++ quoted "//i.4cdn.org/3/1700000000456s.jpg" ++ lit ">".

(** Nothing is found, and nothing answers. *)
Definition net_gone (n : nat) (url : gostring) : get_result := ok 404 "".
Definition net_down (n : nat) (url : gostring) : get_result := GetFail None.
(** The redirects of the thread page do not end. *)
Definition net_redirects (n : nat) (url : gostring) : get_result :=
  GetFail (Some {| StatusCode := 302; Body := []; BodyErr := true |}).

(** A thread page with one link, and a directory that has its file. *)
Definition page_one : gostring :=
  lit "<a href=" ++ quoted "//i.4cdn.org/w/1.jpg" ++ lit ">".
Definition net_one (n : nat) (url : gostring) : get_result :=
  if decide (url = thread_url)
  then GetResp {| StatusCode := 200; Body := page_one; BodyErr := false |}
  else ok 200 "image bytes".
Definition world_with_file : world :=
  {| fs := <[lit "/home/u/w/123/1.jpg" := File (lit "image bytes")]> ∅;
     clock := 0; log := [] |}.

(** The first cycle over the page with three links, from an empty
    directory. *)
Definition first_cycle : result Current.cycle_report * world :=
  Current.cycle (env_of net_three) Current.GlobalConfig thread_url (lit "4chan")
    dir_123 0 world0.
Definition first_report : Current.cycle_report :=
  match fst first_cycle with
  | Ok rep => rep
  | Panic => {| Current.files_after := 0; Current.outcomes := [] |}
  end.
Definition after_first_cycle : world := snd first_cycle.

End Examples.

(** ** The vocabulary of the properties *)
Module Spec.
Import Strings Regexp OS Current.

(** The spec's words for the last step of the extractor: every link is
    kept where it is first seen, later copies are dropped. *)
Fixpoint dedup_first_seen (l : list gostring) : list gostring :=
  match l with
  | [] => []
  | x :: t => x :: filter (fun y => y ≠ x) (dedup_first_seen t)
  end.

(** The spec's words for the link transform of a profile: a
    protocol-relative link of the first site gets an explicit scheme. *)
Definition linkTransform (siteID : gostring) (raw : gostring) : gostring :=
  if decide (siteID = lit "4chan") then lit "https:" ++ raw else raw.

Definition absolute (url : gostring) : Prop :=
  HasPrefix url (lit "http://") = true ∨ HasPrefix url (lit "https://") = true.

(** [denote r m cap cap']: the text [m] is in the language of [r], and
    matching it turns the recorded group from [cap] into [cap']. *)
Fixpoint denote (r : regex) (m : gostring) (cap cap' : option gostring) : Prop :=
  match r with
  | Lit l => m = l ∧ cap' = cap
  | Class cls => ∃ c, m = [c] ∧ cls c = true ∧ cap' = cap
  | Plus cls => m ≠ [] ∧ Forall (fun c => cls c = true) m ∧ cap' = cap
  | Opt r1 => denote r1 m cap cap' ∨ (m = [] ∧ cap' = cap)
  | Alt r1 r2 => denote r1 m cap cap' ∨ denote r2 m cap cap'
  | Cat r1 r2 =>
      ∃ m1 m2 c1, m = m1 ++ m2 ∧ denote r1 m1 cap c1 ∧ denote r2 m2 c1 cap'
  | Group r1 => (∃ c1, denote r1 m cap c1) ∧ cap' = Some m
  | WordBoundary => m = [] ∧ cap' = cap
  end.

Definition sep_char : ascii := "/"%char.

(** The link lies directly in the directory [d]: it is [d], a "/" and a
    last element without "/". *)
Definition in_dir (d link : gostring) : Prop :=
  ∃ name, link = d ++ lit "/" ++ name ∧ sep_char ∉ name.

(** A path element that [Clean] keeps as it is. *)
Definition plain (s : gostring) : Prop :=
  s ≠ [] ∧ s ≠ Filepath.dot ∧ s ≠ Filepath.dotdot ∧ sep_char ∉ s.

(** The elements kept by [Clean], the last one first: plain elements
    on top of leading ".." elements, which a rooted path does not have. *)
Definition kept (rooted : bool) (out : list gostring) : Prop :=
  ∃ k plains, out = reverse plains ++ replicate k Filepath.dotdot ∧
    Forall plain plains ∧ (rooted = true → k = 0%nat).

(** The result of [Clean] for the kept elements [out]. *)
Definition rendered (rooted : bool) (out : list gostring) : gostring :=
  if rooted then Filepath.slash ++ Strings.Join out Filepath.slash
  else if decide (out = []) then Filepath.dot
  else Strings.Join out Filepath.slash.

(** The events of [n] attempts that each end with the delay. *)
Definition attempts (cfg : Config) (url : gostring) (n : nat) : list event :=
  concat (replicate n [EvGet url; EvSleep (SleepBetweenAttempts cfg)]).

Definition failed_attempts (cfg : Config) (url : gostring) (n : nat) : list event :=
  concat (replicate n
    [EvGet url; EvPrint MsgGetError; EvSleep (SleepBetweenAttempts cfg)]).

Definition not_found_or_limited (r : get_result) : Prop :=
  ∃ rp, r = GetResp rp ∧ (StatusCode rp = 404 ∨ StatusCode rp = 429).

(** The events of a cycle: everything but the countdown lines. *)
Definition cycle_event (ev : event) : Prop :=
  match ev with
  | EvPrint (MsgCountdown _) => False
  | _ => True
  end.

(** [w'] is [w] after some more events of a cycle. *)
Definition grows (w w' : world) : Prop :=
  ∃ evs, log w' = log w ++ evs ∧ Forall cycle_event evs.

(** The goroutines of a batch all run, in some order. *)
Definition fair (e : env) : Prop := ∀ (A : Type) (l : list A), order e A l ≡ₚ l.

(** A value of Go's type [int]. *)
Definition is_int (z : Z) : Prop := - 2 ^ 63 <= z < 2 ^ 63.

(** [n], [n - 1], ..., [0]; empty for a negative [n]. *)
Definition descending (n : Z) : list Z :=
  (fun k => n - Z.of_nat k) <$> seq 0 (Z.to_nat (n + 1)).

Definition countdown_line (i : Z) : list event :=
  [EvPrint (MsgCountdown i); EvSleep (1 * Second)].

Definition is_downloaded (o : outcome) : bool :=
  match o with Downloaded _ _ => true | _ => false end.

(** There is a regular file under the name [k]. *)
Definition is_file (w : world) (k : gostring) : Prop :=
  ∃ content, fs w !! k = Some (File content).

(** Every regular file of [w] is a regular file of [w']. *)
Definition files_kept (w w' : world) : Prop := ∀ k, is_file w k → is_file w' k.

Definition skipped_or_downloaded (o : outcome) : Prop :=
  o = SkippedExisting ∨ is_downloaded o = true.


Definition jpg : gostring := lit ".jpg".

(** The extensions tried for a link, in the order they are tried. *)
Definition candidates : list gostring :=
  [lit ".jpg"; lit ".png"; lit ".webm"; lit ".gif"].

(** The answers to the requests for the candidates before the [k]-th
    are all "not found". *)
Definition not_found_before (e : env) (w : world) (stem : gostring) (k : nat) : Prop :=
  ∀ i ext, (i < k)%nat → candidates !! i = Some ext →
    ∃ r, http_get e (clock w + i) (stem ++ ext) = GetResp r ∧ StatusCode r = 404.

End Spec.

(** ** The first program, [src/unnamed/part_000]

    One pass, no monitoring; the worker looks for the file under the
    other extensions by rewriting the link, and writes whatever is not
    answered 404. *)
Module First.
Import Strings Regexp OS.

Inductive outcome : Type :=
| Saved (fileName : gostring) (bytesWritten : Z)
| NotFound.

(** The variable [resp] after [resp, _ := http.Get(...)]. *)
Definition response_of (r : get_result) : option response :=
  match r with
  | GetResp rp => Some rp
  | GetFail rp => closed <$> rp
  end.

(** One step of the nested fallback: the extension [old] of the link
    and of the file name is replaced by [new] and the link is requested
    again. *)
Definition next_try (e : env) (old new : gostring) (url fileName : gostring)
  (w : world) : result (response * gostring * gostring) * world :=
  let url' := Replace url old new 1 in
  let fileName' := Replace fileName old new 1 in
  let '(r, w1) := http_Get e url' w in
  match response_of r with
  | None => (Panic, w1)
  | Some resp => (Ok (resp, url', fileName'), w1)
  end.

(** Lines 28 to 43: the first request and the nested fallback. *)
Definition locate (e : env) (url fileName : gostring) (w : world)
  : result (response * gostring) * world :=
  let '(r, w0) := http_Get e url w in
  match response_of r with
  | None => (Panic, w0)
  | Some resp0 =>
      if decide (StatusCode resp0 = 404) then
        match next_try e (lit ".jpg") (lit ".png") url fileName w0 with
        | (Panic, w1) => (Panic, w1)
        | (Ok (resp1, url1, fileName1), w1) =>
            if decide (StatusCode resp1 = 404) then
              match next_try e (lit ".png") (lit ".webm") url1 fileName1 w1 with
              | (Panic, w2) => (Panic, w2)
              | (Ok (resp2, url2, fileName2), w2) =>
                  if decide (StatusCode resp2 = 404) then
                    match next_try e (lit ".webm") (lit ".gif") url2 fileName2 w2 with
                    | (Panic, w3) => (Panic, w3)
                    | (Ok (resp3, _, fileName3), w3) => (Ok (resp3, fileName3), w3)
                    end
                  else (Ok (resp2, fileName2), w2)
              end
            else (Ok (resp1, fileName1), w1)
        end
      else (Ok (resp0, fileName), w0)
  end.

Definition downloadFile (e : env) (url fileName path : gostring) (w : world)
  : result outcome * world :=
  match locate e url fileName w with
  | (Panic, w1) => (Panic, w1)
  | (Ok (resp, fileName'), w1) =>
      if decide (StatusCode resp ≠ 404) then
        let filePath := path ++ lit "//" ++ fileName' in
        let '(created, w2) := os_Create e filePath w1 in
        let '((b, _), w3) :=
          if created then io_Copy e filePath resp w2
          else ((0, true), w2) in
        (* the line printed gives the size in bytes *)
        (Ok (Saved fileName' b), emit (EvPrint (MsgDownloaded fileName' b 0)) w3)
      else (Ok NotFound, w1)
  end.

End First.

(** ** More vocabulary and inputs *)
Module More.
Import Strings Regexp OS Current.

(** An attempt after which the retry loop goes on. *)
Definition retried (r : get_result) : Prop :=
  match r with
  | GetResp rp => StatusCode rp = 404 ∨ StatusCode rp = 429
  | GetFail _ => True
  end.

(** What such an attempt leaves in the trace. *)
Definition retry_events (cfg : Config) (url : gostring) (r : get_result)
  : list event :=
  match r with
  | GetResp _ => [EvGet url; EvSleep (SleepBetweenAttempts cfg)]
  | GetFail _ => [EvGet url; EvPrint MsgGetError; EvSleep (SleepBetweenAttempts cfg)]
  end.

(** The trace of the attempts [0 .. k-1] of a worker started in [w]. *)
Definition retries (e : env) (cfg : Config) (url : gostring) (w : world) (k : nat)
  : list event :=
  seq 0 k ≫= (fun i => retry_events cfg url (http_get e (clock w + i) url)).

Definition is_get (ev : event) : bool :=
  match ev with EvGet _ => true | _ => false end.

Definition is_sleep (ev : event) : bool :=
  match ev with EvSleep _ => true | _ => false end.

(** From [w] to [w'] at most [n] requests were made, all of them for
    [url], each of them counted by the clock, and nothing else than
    events was added to the trace. *)
Definition requests_within (url : gostring) (n : nat) (w w' : world) : Prop :=
  ∃ evs, log w' = log w ++ evs
    ∧ (clock w' = clock w + length (filter (fun ev => is_get ev = true) evs))%nat
    ∧ (length (filter (fun ev => is_get ev = true) evs) <= n)%nat
    ∧ (length (filter (fun ev => is_sleep ev = true) evs)
       <= length (filter (fun ev => is_get ev = true) evs))%nat
    ∧ ∀ u, EvGet u ∈ evs → u = url.

(** The index of the thread in the input link split at "/". *)
Definition threadIndex (siteID : gostring) : nat :=
  if decide (siteID = lit "4chan") then 5%nat else 4%nat.

(** An image source that the previous program downloads. *)
Definition wanted (src : gostring) : Prop := Contains src (lit "s.4cdn.org") = false.

(** The link the previous program makes of an image source. *)
Definition legacy_link (src : gostring) : gostring :=
  lit "http:" ++ Replace src (lit "s.jpg") (lit ".jpg") 1.

(** [sep] cannot begin inside a text and end in a copy of itself that
    follows the text. *)
Definition no_overlap (sep : gostring) : Prop :=
  ∀ x, x ≠ [] → HasPrefix (x ++ sep) sep = true → HasPrefix x sep = true.

#[global] Instance wanted_dec (src : gostring) : Decision (wanted src).
Proof. unfold wanted. apply _. Defined.

End More.

(** ** More runs of the programs *)
Module Scenarios.
Import Strings Regexp OS.

Definition image_url : gostring := lit "https://i.4cdn.org/w/1.jpg".
Definition error_page : response :=
  {| StatusCode := 500; Body := lit "oops"; BodyErr := false |}.
Definition not_found : response :=
  {| StatusCode := 404; Body := []; BodyErr := false |}.


(** The server answers 404 once and 500 from then on. *)
Definition net_error (n : nat) (url : gostring) : get_result :=
  match n with
  | 0%nat => GetResp not_found
  | _ => GetResp error_page
  end.

(** The server answers 500 to everything. *)
Definition net_broken (n : nat) (url : gostring) : get_result := GetResp error_page.

(** The server answers 404 once, then the connection is gone. *)
Definition net_drops (n : nat) (url : gostring) : get_result :=
  match n with
  | 0%nat => GetResp not_found
  | _ => GetFail None
  end.

Definition no_budget : Current.Config :=
  {| Current.RetryAttempts := 0;
     Current.SleepBetweenAttempts := 5000 * Millisecond |}.

(** A disk that takes four bytes of every file. *)
Definition env_disk_full : env :=
  {| http_get := Examples.net_three;
     stat_fails := fun _ => false;
     create_fails := fun _ => false;
     write_limit := fun _ => Some 4%nat;
     size_exponent := Examples.exact_size_exponent;
     order := fun _ l => l |}.

(** A directory in which no file can be created. *)
Definition env_read_only : env :=
  {| http_get := Examples.net_three;
     stat_fails := fun _ => false;
     create_fails := fun _ => true;
     write_limit := fun _ => None;
     size_exponent := Examples.exact_size_exponent;
     order := fun _ l => l |}.

(** A directory is where the first image should go. *)
Definition world_with_dir : world :=
  {| fs := <[lit "/home/u/w/123/1.jpg" := Dir]> ∅; clock := 0; log := [] |}.

(** The file of the previous program's image is there. *)
Definition world_with_legacy_file : world :=
  {| fs := <[lit "/home/u/w/123/1700000000123.jpg" := File (lit "old bytes")]> ∅;
     clock := 0; log := [] |}.

(** The sources of a page of the previous layout: a thumbnail and the
    logo of the cosmetic host; and a source without a second run of
    digits. *)
Definition srcs_legacy : list gostring :=
  [lit "//i.4cdn.org/w/1700000000123s.jpg"; lit "//s.4cdn.org/image/logo.png"].
Definition srcs_short : list gostring := [lit "//i.4cdn.org/w/as.jpg"].

(** The cycle of the worker that the full disk cuts, and of the worker
    that finds the directory. *)
Definition cut_download : result Current.outcome * world :=
  Current.downloadFile env_disk_full Current.GlobalConfig image_url (lit "1.jpg")
    Examples.dir_123 Examples.world0.
Definition blocked_download : result Current.outcome * world :=
  Current.downloadFile (Examples.env_of Examples.net_three) Current.GlobalConfig
    image_url (lit "1.jpg") Examples.dir_123 world_with_dir.

End Scenarios.

(** * Properties *)
Import Spec.
Import More.

(** ** Link extraction *)
Section Extraction.
Import Strings Regexp OS Current.

Lemma unique_loop_acc (u : gset gostring) (acc l : list gostring) :
  unique_loop u acc l = acc ++ unique_loop u [] l.
Proof.
  revert u acc. induction l as [|x t IH]; intros u acc; simpl.
  - by rewrite app_nil_r.
  - destruct (decide (x ∈ u)); [apply IH|].
    rewrite (IH _ (acc ++ [x])), (IH _ [x]). by rewrite <- app_assoc.
Qed.

Lemma filter_filter_sub (P Q : gostring -> Prop) `{!∀ x, Decision (P x)}
  `{!∀ x, Decision (Q x)} (R : gostring -> Prop) `{!∀ x, Decision (R x)}
  (l : list gostring) :
  (∀ x, R x ↔ P x ∧ Q x) → filter P (filter Q l) = filter R l.
Proof.
  intros HR. induction l as [|x l IH]; [done|].
  rewrite (filter_cons Q), (filter_cons R).
  destruct (decide (Q x)) as [HQ|HQ], (decide (R x)) as [HR'|HR'].
  - rewrite filter_cons. destruct (decide (P x)) as [HP|HP]; [by f_equal|].
    apply HR in HR'. tauto.
  - rewrite filter_cons. destruct (decide (P x)) as [HP|HP]; [|done].
    destruct HR'. apply HR. tauto.
  - apply HR in HR'. tauto.
  - done.
Qed.

Lemma unique_loop_dedup (u : gset gostring) (l : list gostring) :
  unique_loop u [] l = filter (fun y => y ∉ u) (dedup_first_seen l).
Proof.
  revert u. induction l as [|x t IH]; intros u; simpl; [done|].
  rewrite filter_cons. destruct (decide (x ∈ u)) as [Hx|Hx].
  - destruct (decide (x ∉ u)); [done|]. rewrite IH.
    symmetry. apply filter_filter_sub. intros y. split; [|tauto].
    intros Hy. split; [done|]. intros ->. done.
  - destruct (decide (x ∉ u)); [|done].
    rewrite unique_loop_acc, IH. simpl. f_equal.
    symmetry. apply filter_filter_sub. intros y. set_solver.
Qed.

Lemma unique_dedup (l : list gostring) : unique l = dedup_first_seen l.
Proof.
  unfold unique. rewrite unique_loop_dedup.
  induction (dedup_first_seen l) as [|x t IH]; [done|].
  rewrite filter_cons. destruct (decide (x ∉ (∅ : gset gostring))); [|set_solver].
  by f_equal.
Qed.

Lemma elem_of_dedup (l : list gostring) (x : gostring) :
  x ∈ dedup_first_seen l ↔ x ∈ l.
Proof.
  induction l as [|y t IH]; simpl; [done|].
  rewrite !elem_of_cons, list_elem_of_filter, IH.
  destruct (decide (x = y)); naive_solver.
Qed.

Lemma NoDup_dedup (l : list gostring) : NoDup (dedup_first_seen l).
Proof.
  induction l as [|y t IH]; simpl; [constructor|].
  constructor.
  - rewrite list_elem_of_filter. naive_solver.
  - by apply NoDup_filter.
Qed.

(** *** What a match of a pattern looks like *)

Lemma lit_here_sound (l : gostring) prev s prev' s' :
  lit_here l prev s = Some (prev', s') → s = l ++ s'.
Proof.
  revert prev s. induction l as [|x l IH]; intros prev s H; simpl in *.
  - by inversion H.
  - destruct s as [|c s]; [done|]. destruct (decide (x = c)) as [->|]; [|done].
    simpl. f_equal. eauto.
Qed.

Lemma plus_here_sound {R} cls s cap (k : option ascii → gostring → option gostring → option R) x :
  plus_here cls s cap k = Some x →
  ∃ m s' prev', s = m ++ s' ∧ m ≠ [] ∧ Forall (fun c => cls c = true) m ∧
                k prev' s' cap = Some x.
Proof.
  induction s as [|c s IH]; simpl; [done|].
  destruct (cls c) eqn:Hc; [|done].
  destruct (plus_here cls s cap k) as [y|] eqn:Hrec.
  - intros [= ->]. destruct (IH eq_refl) as (m & s' & prev' & -> & _ & Hall & Hk).
    exists (c :: m), s', prev'. repeat split; auto.
  - intros Hk. exists [c], s, (Some c). repeat split; auto.
Qed.

Lemma run_sound {R} (r : regex) prev s cap
  (k : option ascii → gostring → option gostring → option R) x :
  run r prev s cap k = Some x →
  ∃ m s' prev' cap', s = m ++ s' ∧ denote r m cap cap' ∧ k prev' s' cap' = Some x.
Proof.
  revert prev s cap k. induction r as [l|cls|cls|r1 IH1|r1 IH1 r2 IH2|r1 IH1 r2 IH2|r1 IH1|];
    intros prev s cap k; simpl.
  - destruct (lit_here l prev s) as [[prev' s']|] eqn:Hl; [|done].
    intros Hk. apply lit_here_sound in Hl. by exists l, s', prev', cap.
  - destruct s as [|c s]; [done|]. destruct (cls c) eqn:Hc; [|done].
    intros Hk. exists [c], s, (Some c), cap. split; [done|]. split; [|done]. by exists c.
  - intros H. apply plus_here_sound in H as (m & s' & prev' & -> & Hne & Hall & Hk).
    by exists m, s', prev', cap.
  - destruct (run r1 prev s cap k) as [y|] eqn:H1.
    + intros [= ->]. apply IH1 in H1 as (m & s' & prev' & cap' & -> & Hd & Hk).
      exists m, s', prev', cap'. auto.
    + intros Hk. exists [], s, prev, cap. auto.
  - destruct (run r1 prev s cap k) as [y|] eqn:H1.
    + intros [= ->]. apply IH1 in H1 as (m & s' & prev' & cap' & -> & Hd & Hk).
      exists m, s', prev', cap'. auto.
    + intros H2. apply IH2 in H2 as (m & s' & prev' & cap' & -> & Hd & Hk).
      exists m, s', prev', cap'. auto.
  - intros H. apply IH1 in H as (m1 & s1 & prev1 & cap1 & -> & Hd1 & H).
    apply IH2 in H as (m2 & s2 & prev2 & cap2 & -> & Hd2 & Hk).
    exists (m1 ++ m2), s2, prev2, cap2. rewrite <- app_assoc.
    split; [done|]. split; [|done]. by exists m1, m2, cap1.
  - intros H. apply IH1 in H as (m & s' & prev' & cap' & -> & Hd & Hk).
    rewrite length_app, Nat.add_sub, take_app_length in Hk.
    exists m, s', prev', (Some m). split; [done|]. split; [|done]. split; [by exists cap'|done].
  - destruct (xorb _ _); [|done]. intros Hk. by exists [], s, prev, cap.
Qed.

Lemma match_here_sound (r : regex) prev s whole g :
  match_here r prev s = Some (whole, g) →
  ∃ cap', denote r whole None cap' ∧ g = default [] cap'.
Proof.
  unfold match_here. intros H.
  apply run_sound in H as (m & s' & prev' & cap' & -> & Hd & Hk).
  rewrite length_app, Nat.add_sub, take_app_length in Hk.
  inversion Hk; subst. by exists cap'.
Qed.

Lemma scan_sound (r : regex) skip prev s :
  Forall (fun m => ∃ cap', denote r (fst m) None cap' ∧ snd m = default [] cap')
         (scan r skip prev s).
Proof.
  revert skip prev. induction s as [|c s IH]; intros skip prev; simpl; [constructor|].
  destruct skip; [|apply IH].
  destruct (match_here r prev (c :: s)) as [[whole g]|] eqn:Hm; [|apply IH].
  constructor; [|apply IH]. by apply match_here_sound in Hm.
Qed.

Lemma siteInfoMap_4chan :
  siteInfoMap !! lit "4chan" =
  Some {| ID := lit "4chan"; URL := lit "https://boards.4chan.org"; ImgRE := re_4chan |}.
Proof. unfold siteInfoMap. by rewrite lookup_insert_eq. Qed.

Lemma siteInfoMap_twochen :
  siteInfoMap !! lit "twochen" =
  Some {| ID := lit "twochen"; URL := lit "https://sturdychan.help/"; ImgRE := re_twochen |}.
Proof.
  unfold siteInfoMap. rewrite lookup_insert_ne; [|done]. by rewrite lookup_insert_eq.
Qed.

Lemma siteInfoMap_inv siteID si :
  siteInfoMap !! siteID = Some si →
  (siteID = lit "4chan" ∧ ImgRE si = re_4chan) ∨
  (siteID = lit "twochen" ∧ ImgRE si = re_twochen).
Proof.
  unfold siteInfoMap. intros H.
  destruct (decide (siteID = lit "4chan")) as [->|Hne].
  - rewrite lookup_insert_eq in H. inversion H. by left.
  - rewrite lookup_insert_ne in H; [|done].
    destruct (decide (siteID = lit "twochen")) as [->|Hne2].
    + rewrite lookup_insert_eq in H. inversion H. by right.
    + rewrite lookup_insert_ne in H; [|done]. by rewrite lookup_empty in H.
Qed.

Lemma ID_4chan : ID (siteInfo_at (lit "4chan")) = lit "4chan".
Proof. unfold siteInfo_at. by rewrite siteInfoMap_4chan. Qed.

Lemma re_4chan_group whole cap' :
  denote re_4chan whole None cap' →
  ∃ rest, cap' = Some (lit "//i.4cdn.org" ++ rest).
Proof.
  unfold re_4chan. simpl.
  intros (m1 & m2 & c1 & _ & [_ ->] & m3 & m4 & c2 & _ & (_ & _ & ->) &
          m5 & m6 & c3 & _ & [_ ->] & m7 & m8 & c4 & _ & [Hg ->] & [_ ->]).
  destruct Hg as (c5 & g1 & g2 & c6 & -> & [-> _] & _). by exists g2.
Qed.

Lemma re_twochen_group whole cap' :
  denote re_twochen whole None cap' →
  ∃ rest, cap' = Some (lit "http://" ++ rest) ∨ cap' = Some (lit "https://" ++ rest).
Proof.
  unfold re_twochen. simpl.
  intros [(c0 & m1 & m2 & c1 & -> & [-> _] & m3 & m4 & c2 & -> & Hopt &
           m5 & m6 & c3 & -> & [-> _] & _) ->].
  exists m6. destruct Hopt as [[-> _]|[-> _]]; [right|left]; reflexivity.
Qed.

Lemma Replace_prefix (old new rest : gostring) :
  Replace (old ++ rest) old new 1 = new ++ rest.
Proof.
  assert (Hp : ∀ s, HasPrefix (old ++ s) old = true).
  { intros s. induction old as [|c old IH]; [done|]. simpl.
    destruct (decide (c = c)); [apply IH|done]. }
  simpl. destruct old as [|c old]; simpl.
  - by destruct rest.
  - specialize (Hp rest). simpl in Hp. destruct (decide (c = c)); [|done].
    rewrite Hp. simpl. by rewrite drop_app_length.
Qed.

Lemma link_of_match_spec siteID si html :
  siteInfoMap !! siteID = Some si →
  link_of_match siteID <$> FindAllStringSubmatch (ImgRE si) html =
  linkTransform siteID <$> (snd <$> FindAllStringSubmatch (ImgRE si) html).
Proof.
  intros Hsi. rewrite <- list_fmap_compose. apply Forall_fmap_ext.
  unfold FindAllStringSubmatch.
  eapply Forall_impl; [apply scan_sound|].
  intros [whole g] (cap' & Hd & Hg). cbn [fst snd] in *.
  unfold link_of_match, linkTransform, compose. rewrite ID_4chan. cbn [fst snd].
  destruct (decide (siteID = lit "4chan")) as [->|]; [|done].
  rewrite siteInfoMap_4chan in Hsi. inversion Hsi; subst si. cbn [ImgRE] in Hd.
  apply re_4chan_group in Hd as [rest ->]. cbn [default] in Hg. subst g.
  unfold id. by rewrite (Replace_prefix (lit "//i.4cdn.org") (lit "https://i.4cdn.org")).
Qed.

Lemma captures_absolute siteID si html :
  siteInfoMap !! siteID = Some si →
  Forall absolute (linkTransform siteID <$> (snd <$> FindAllStringSubmatch (ImgRE si) html)).
Proof.
  intros Hsi. rewrite <- list_fmap_compose. apply Forall_fmap.
  unfold FindAllStringSubmatch.
  eapply Forall_impl; [apply scan_sound|].
  intros [whole g] (cap' & Hd & Hg). cbn [fst snd] in *. unfold linkTransform, compose.
  cbn [fst snd].
  destruct (siteInfoMap_inv _ _ Hsi) as [[-> Hre]|[-> Hre]]; rewrite Hre in Hd.
  - apply re_4chan_group in Hd as [rest ->]. cbn [default] in Hg. subst g. by right.
  - apply re_twochen_group in Hd as [rest [->| ->]]; cbn [default] in Hg; subst g;
      [by left|by right].
Qed.

(** C6: for a registered site the extractor returns the first capture
    groups of the matches of the site's pattern, each turned into an
    absolute URL by the link transform, every link kept once at the place
    where it is first seen; no match gives the empty sequence, and
    nothing is reported as an error. Being a function of the page and
    the site, the result is the same on every call. *)
Theorem C6_link_extractor (html siteID : gostring) (si : SiteInfo) :
  siteInfoMap !! siteID = Some si →
  let caps := snd <$> FindAllStringSubmatch (ImgRE si) html in
  let links := fst (findImages html siteID) in
  links = dedup_first_seen (linkTransform siteID <$> caps)
  ∧ NoDup links
  ∧ (∀ url, url ∈ links ↔ ∃ c, c ∈ caps ∧ url = linkTransform siteID c)
  ∧ Forall absolute links
  ∧ (FindAllStringSubmatch (ImgRE si) html = [] → links = [])
  ∧ snd (findImages html siteID) = [].
Proof.
  intros Hsi caps links.
  assert (Hl : links = dedup_first_seen (linkTransform siteID <$> caps)).
  { subst links caps. unfold findImages. rewrite Hsi. simpl.
    by rewrite unique_dedup, (link_of_match_spec _ _ _ Hsi). }
  split; [exact Hl|]. rewrite Hl.
  split; [apply NoDup_dedup|].
  split.
  { intros url. rewrite elem_of_dedup, list_elem_of_fmap. naive_solver. }
  split.
  { apply Forall_forall. intros url Hin. rewrite elem_of_dedup in Hin.
    pose proof (captures_absolute siteID si html Hsi) as Hall.
    rewrite Forall_forall in Hall. by apply Hall. }
  split.
  { subst caps. by intros ->. }
  unfold findImages. by rewrite Hsi.
Qed.

End Extraction.

(** ** File names of one extraction pass *)
Section FileNames.
Import Strings Regexp OS Current.

Lemma Split_slash_cons (c : ascii) (s : gostring) :
  Split (c :: s) (lit "/") =
  if decide (c = sep_char) then [] :: Split s (lit "/")
  else cons_head c (Split s (lit "/")).
Proof.
  unfold Split, sep_char. change (lit "/") with ["/"%char]. cbn.
  destruct (decide ("/"%char = c)) as [<-|Hne].
  - by destruct (decide ("/"%char = "/"%char)).
  - destruct (decide (c = "/"%char)); [by subst|done].
Qed.

Lemma Split_slash_nil : Split [] (lit "/") = [[]].
Proof. done. Qed.

Lemma Split_no_slash (name : gostring) :
  sep_char ∉ name → Split name (lit "/") = [name].
Proof.
  induction name as [|c name IH]; intros Hn; [done|].
  rewrite Split_slash_cons. destruct (decide (c = sep_char)) as [->|]; [set_solver|].
  rewrite IH; [done|set_solver].
Qed.

Lemma Split_nonempty (s sep : gostring) (skip : nat) : split_from sep skip s ≠ [].
Proof.
  revert skip. induction s as [|c s IH]; intros skip; simpl; [done|].
  destruct skip; [|apply IH].
  destruct (HasPrefix _ _); [done|].
  specialize (IH 0%nat). by destruct (split_from sep 0 s).
Qed.

Lemma Split_slash_app (a b : gostring) :
  Split (a ++ lit "/" ++ b) (lit "/") = Split a (lit "/") ++ Split b (lit "/").
Proof.
  induction a as [|c a IH].
  - change ([] ++ lit "/" ++ b) with (sep_char :: b). rewrite Split_slash_cons.
    by destruct (decide (sep_char = sep_char)).
  - change ((c :: a) ++ lit "/" ++ b) with (c :: (a ++ lit "/" ++ b)).
    rewrite !Split_slash_cons, IH. destruct (decide (c = sep_char)); [done|].
    pose proof (Split_nonempty a (lit "/") 0) as Hne. unfold Split.
    by destruct (split_from (lit "/") 0 a).
Qed.

Lemma index_last {A} (l : list A) :
  index l (Z.of_nat (length l) - 1) = last l.
Proof.
  unfold index. destruct l as [|x l]; [done|].
  destruct (decide _) as [_|Hn]; [|simpl in Hn; lia].
  rewrite last_lookup. f_equal. simpl. lia.
Qed.

Lemma nameImg_in_dir (d name : gostring) :
  sep_char ∉ name →
  let parts := Split (d ++ lit "/" ++ name) (lit "/") in
  index parts (Z.of_nat (length parts) - 1) = Some name.
Proof.
  intros Hn parts. subst parts.
  rewrite index_last, Split_slash_app, (Split_no_slash name Hn).
  by rewrite last_snoc.
Qed.

Lemma dispatch_in_dir (d : gostring) (links : list gostring) (files : Z) :
  Forall (in_dir d) links →
  ∃ jobs files', dispatch links files = Ok (jobs, files') ∧
    job_url <$> jobs = links ∧
    Forall2 (fun link name => link = d ++ lit "/" ++ name) links (job_fileName <$> jobs).
Proof.
  intros Hall. revert files. induction Hall as [|link links (name & -> & Hn) _ IH];
    intros files.
  - exists [], files. repeat split. constructor.
  - cbn [dispatch]. rewrite (nameImg_in_dir d name Hn).
    destruct (IH (wrap_int (files + 1))) as (jobs & files' & -> & Hu & Hf).
    eexists _, _. split; [done|]. cbn. split; [by f_equal|]. by constructor.
Qed.

(** C9 (amended): the links of one pass that lie directly in one and the
    same directory are dispatched without a panic, each under its last
    path element, and distinct links get distinct file names. *)
Theorem C9_distinct_names_in_one_directory (d : gostring) (links : list gostring)
  (files : Z) :
  Forall (in_dir d) links → NoDup links →
  ∃ jobs files', dispatch links files = Ok (jobs, files') ∧
    job_url <$> jobs = links ∧ NoDup (job_fileName <$> jobs).
Proof.
  intros Hall Hnd.
  destruct (dispatch_in_dir d links files Hall) as (jobs & files' & Hd & Hu & Hf).
  exists jobs, files'. split; [done|]. split; [done|].
  clear Hd Hu Hall. revert Hnd. induction Hf as [|link name links names -> Hf IH];
    intros Hnd; [constructor|].
  apply NoDup_cons in Hnd as [Hnotin Hnd]. constructor; [|by apply IH].
  intros Hin. apply Hnotin.
  clear IH Hnd Hnotin. induction Hf as [|l n ls ns -> Hf IH]; [by apply elem_of_nil in Hin|].
  apply elem_of_cons in Hin as [->|Hin]; [left|right; by apply IH].
Qed.

(** *** [Clean] gives a path that [Clean] leaves alone *)

Lemma Split_elems (p : gostring) : Forall (fun s => sep_char ∉ s) (Split p (lit "/")).
Proof.
  induction p as [|c p IH]; [repeat constructor; set_solver|].
  rewrite Split_slash_cons. destruct (decide (c = sep_char)).
  - constructor; [set_solver|done].
  - pose proof (Split_nonempty p (lit "/") 0) as Hne. unfold Split in *.
    destruct (split_from (lit "/") 0 p) as [|h t]; [done|].
    inversion IH; subst. constructor; [set_solver|done].
Qed.

Lemma Split_Join (out : list gostring) :
  out ≠ [] → Forall (fun s => sep_char ∉ s) out →
  Split (Strings.Join out (lit "/")) (lit "/") = out.
Proof.
  induction out as [|a out IH]; [done|]. intros _ Hall.
  inversion Hall as [|? ? Ha Hout]; subst.
  destruct out as [|b out].
  - cbn. by apply Split_no_slash.
  - change (Strings.Join (a :: b :: out) (lit "/"))
      with (a ++ lit "/" ++ Strings.Join (b :: out) (lit "/")).
    rewrite Split_slash_app, (Split_no_slash a Ha), IH; done.
Qed.

Lemma clean_step_kept rooted out elem :
  sep_char ∉ elem → kept rooted out → kept rooted (Filepath.clean_step rooted out elem).
Proof.
  intros Hs (k & plains & -> & Hp & Hr). unfold Filepath.clean_step.
  destruct (decide (elem = [])); [by exists k, plains|].
  destruct (decide (elem = Filepath.dot)); [by exists k, plains|].
  destruct (decide (elem = Filepath.dotdot)) as [->|].
  - destruct plains as [|p plains _] using rev_ind.
    + rewrite reverse_nil, app_nil_l. destruct k as [|k]; cbn [replicate].
      * destruct rooted; [by exists 0%nat, []|].
        exists 1%nat, []. by repeat split.
      * destruct (decide _); [|done].
        exists (S (S k)), []. repeat split; [done|]. intros Hro. specialize (Hr Hro). lia.
    + rewrite reverse_snoc. cbn [app].
      apply Forall_app in Hp as [Hp Hp1]. inversion Hp1 as [|? ? (_ & _ & Hdd & _) _]; subst.
      destruct (decide _); [done|]. by exists k, plains.
  - exists k, (plains ++ [elem]). rewrite reverse_snoc. repeat split; [|done].
    apply Forall_app. split; [done|]. by repeat constructor.
Qed.

Lemma foldl_clean_step_kept rooted out elems :
  Forall (fun s => sep_char ∉ s) elems → kept rooted out →
  kept rooted (foldl (Filepath.clean_step rooted) out elems).
Proof.
  intros Hall. revert out. induction Hall as [|elem elems Hs _ IH]; intros out Hk; [done|].
  cbn [foldl]. apply IH. by apply clean_step_kept.
Qed.

Lemma foldl_clean_step_dotdot out k :
  (∀ top, head out = Some top → top = Filepath.dotdot) →
  foldl (Filepath.clean_step false) out (replicate k Filepath.dotdot) =
  replicate k Filepath.dotdot ++ out.
Proof.
  revert out. induction k as [|k IH]; intros out Hout; [done|].
  cbn [replicate foldl].
  assert (Hstep : Filepath.clean_step false out Filepath.dotdot = Filepath.dotdot :: out).
  { unfold Filepath.clean_step.
    destruct (decide (Filepath.dotdot = [])); [done|].
    destruct (decide (Filepath.dotdot = Filepath.dot)); [done|].
    destruct (decide (Filepath.dotdot = Filepath.dotdot)); [|done].
    destruct out as [|top rest]; [done|].
    rewrite (Hout top eq_refl). by destruct (decide _). }
  rewrite Hstep, IH.
  - change (Filepath.dotdot :: out) with ([Filepath.dotdot] ++ out).
    rewrite app_assoc. f_equal.
    change ([Filepath.dotdot]) with (replicate 1 Filepath.dotdot).
    rewrite <- replicate_add. by replace (k + 1)%nat with (S k) by lia.
  - by intros top [= <-].
Qed.

Lemma foldl_clean_step_plain rooted out plains :
  Forall plain plains →
  foldl (Filepath.clean_step rooted) out plains = reverse plains ++ out.
Proof.
  intros Hall. revert out. induction Hall as [|p plains (H1 & H2 & H3 & _) _ IH];
    intros out; [done|].
  cbn [foldl]. rewrite IH, reverse_cons, <- app_assoc. f_equal.
  unfold Filepath.clean_step. by repeat (destruct (decide _); [done|]).
Qed.

Lemma clean_elems_kept rooted out :
  kept rooted (reverse out) →
  Filepath.clean_elems rooted out = out.
Proof.
  intros (k & plains & Hout & Hp & Hr). unfold Filepath.clean_elems.
  assert (Ho : out = replicate k Filepath.dotdot ++ plains).
  { rewrite <- (reverse_involutive out), Hout, reverse_app, reverse_involutive.
    by rewrite reverse_replicate. }
  rewrite Ho, foldl_app.
  destruct rooted.
  - rewrite (Hr eq_refl). cbn [replicate foldl app].
    rewrite foldl_clean_step_plain; [|done]. by rewrite app_nil_r, reverse_involutive.
  - rewrite foldl_clean_step_dotdot; [|done]. rewrite app_nil_r.
    rewrite foldl_clean_step_plain; [|done].
    by rewrite reverse_app, reverse_involutive, reverse_replicate.
Qed.

Lemma kept_no_slash rooted out :
  kept rooted out → Forall (fun s => sep_char ∉ s) out ∧ Forall (fun s => s ≠ []) out.
Proof.
  intros (k & plains & -> & Hp & _). split; apply Forall_app; split.
  - apply Forall_reverse. eapply Forall_impl; [exact Hp|]. by intros s (_ & _ & _ & H).
  - apply Forall_replicate. cbn beta. apply (bool_decide_unpack _). by vm_compute.
  - apply Forall_reverse. eapply Forall_impl; [exact Hp|]. by intros s (H & _).
  - by apply Forall_replicate.
Qed.

Lemma HasPrefix_slash (s : gostring) :
  HasPrefix s Filepath.slash = bool_decide (head s = Some sep_char).
Proof.
  destruct s as [|c s]; [done|]. change Filepath.slash with [sep_char]. cbn.
  destruct (decide (sep_char = c)) as [<-|Hne].
  - by rewrite bool_decide_eq_true_2.
  - rewrite bool_decide_eq_false_2; [done|]. by intros [= ->].
Qed.

Lemma Clean_rendered (p : gostring) :
  ∃ rooted out, kept rooted (reverse out) ∧ Filepath.Clean p = rendered rooted out.
Proof.
  unfold Filepath.Clean. destruct (decide (p = [])).
  - exists false, []. split; [|done]. exists 0%nat, []. by repeat split.
  - exists (HasPrefix p Filepath.slash),
      (Filepath.clean_elems (HasPrefix p Filepath.slash) (Split p Filepath.slash)).
    split; [|done]. unfold Filepath.clean_elems. rewrite reverse_involutive.
    apply foldl_clean_step_kept; [apply Split_elems|].
    exists 0%nat, []. by repeat split.
Qed.

Lemma Clean_of_rendered rooted out :
  kept rooted (reverse out) → Filepath.Clean (rendered rooted out) = rendered rooted out.
Proof.
  intros Hk.
  pose proof (clean_elems_kept rooted out Hk) as Hc.
  destruct (kept_no_slash _ _ Hk) as [Hns Hne].
  apply Forall_reverse in Hns, Hne. rewrite reverse_involutive in Hns, Hne.
  unfold rendered. destruct rooted.
  - unfold Filepath.Clean. change Filepath.slash with (sep_char :: []).
    cbn [app]. destruct (decide _); [done|].
    rewrite (HasPrefix_slash (sep_char :: _)). cbn [head].
    rewrite bool_decide_eq_true_2; [|done].
    change [sep_char] with (lit "/"). rewrite Split_slash_cons.
    destruct (decide (sep_char = sep_char)); [|done].
    destruct (decide (out = [])) as [->|Hout]; [by vm_compute|].
    rewrite Split_Join; [|done..].
    unfold Filepath.clean_elems in *. cbn [foldl].
    unfold Filepath.clean_step at 2. destruct (decide _); [|done].
    by rewrite Hc.
  - destruct (decide (out = [])) as [->|Hout]; [by vm_compute|].
    assert (Hj : ∃ c rest, Strings.Join out Filepath.slash = c :: rest ∧ c ≠ sep_char).
    { destruct out as [|a out']; [done|].
      inversion Hns as [|? ? Ha _]; inversion Hne as [|? ? Ha' _]; subst.
      destruct a as [|c a]; [done|]. exists c.
      destruct out'; cbn; eexists; (split; [done|]); set_solver. }
    destruct Hj as (c & rest & Hj & Hcs).
    unfold Filepath.Clean. destruct (decide _) as [Hnil|_]; [by rewrite Hj in Hnil|].
    rewrite HasPrefix_slash, Hj. cbn [head].
    rewrite bool_decide_eq_false_2; [|by intros [= ->]].
    rewrite <- Hj. change Filepath.slash with (lit "/").
    rewrite Split_Join; [|done..]. rewrite Hc.
    by destruct (decide _).
Qed.

Lemma Clean_idempotent (p : gostring) : Filepath.Clean (Filepath.Clean p) = Filepath.Clean p.
Proof.
  destruct (Clean_rendered p) as (rooted & out & Hk & ->). by apply Clean_of_rendered.
Qed.

Lemma resolve_Join (path fileName : gostring) :
  path ≠ [] →
  resolve (Filepath.Join path fileName) = resolve (path ++ lit "/" ++ fileName).
Proof.
  intros Hp. unfold resolve, Filepath.Join. destruct (decide _); [done|].
  apply Clean_idempotent.
Qed.

End FileNames.

(** ** The download worker of the current program *)
Section Worker.
Import Strings Regexp OS Current.
Variables (e : env) (cfg : Config).

Lemma retry_loop_not_found (url : gostring) (n : nat) (resp : option response)
  (w : world) :
  (∀ i, (i < n)%nat → not_found_or_limited (http_get e (clock w + i) url)) →
  ∃ resp',
    retry_loop e cfg url n resp w =
      (resp', {| fs := fs w; clock := clock w + n;
                 log := log w ++ attempts cfg url n |})
    ∧ ((0 < n)%nat → ∃ rp, resp' = Some rp ∧ (StatusCode rp = 404 ∨ StatusCode rp = 429))
    ∧ (n = 0%nat → resp' = resp).
Proof.
  revert resp w. induction n as [|n IH]; intros resp w Hall.
  - exists resp. cbn. rewrite Nat.add_0_r, app_nil_r.
    split; [by destruct w|]. split; [lia|done].
  - cbn [retry_loop http_Get].
    destruct (Hall 0%nat ltac:(lia)) as (rp & Hrp & Hst).
    rewrite Nat.add_0_r in Hrp. rewrite Hrp.
    destruct (decide _) as [[? ?]|_]; [lia|].
    set (w1 := emit _ _).
    destruct (IH (Some rp) w1) as (resp' & Heq & Hpos & Hzero).
    { intros i Hi. subst w1. cbn. replace (S (clock w + i)) with (clock w + S i)%nat by lia.
      apply Hall. lia. }
    exists resp'. split.
    + rewrite Heq. subst w1. cbn. f_equal. f_equal; [lia|].
      unfold attempts. cbn. by rewrite <- !app_assoc.
    + split; [|lia]. intros _. destruct n as [|n]; [|apply Hpos; lia].
      rewrite Hzero; eauto.
Qed.

Lemma retry_loop_transport_errors (url : gostring) (n : nat)
  (resp : option response) (w : world) :
  (∀ i, (i < n)%nat → http_get e (clock w + i) url = GetFail None) →
  retry_loop e cfg url n resp w =
    (match n with O => resp | S _ => None end,
     {| fs := fs w; clock := clock w + n; log := log w ++ failed_attempts cfg url n |}).
Proof.
  revert resp w. induction n as [|n IH]; intros resp w Hall.
  - cbn. rewrite Nat.add_0_r, app_nil_r. by destruct w.
  - cbn [retry_loop http_Get].
    pose proof (Hall 0%nat ltac:(lia)) as H0. rewrite Nat.add_0_r in H0. rewrite H0.
    rewrite IH.
    + cbn. f_equal; [by destruct n|]. f_equal; [lia|].
      unfold failed_attempts. cbn. by rewrite <- !app_assoc.
    + intros i Hi. cbn. replace (S (clock w + i)) with (clock w + S i)%nat by lia.
      apply Hall. lia.
Qed.

End Worker.

(** C2: with the destination absent, a link whose every attempt is
    answered 404 or 429 is requested exactly [RetryAttempts] times (10 by
    default), the configured delay following every attempt; the worker
    then reports the failure and leaves the file system as it was. When
    every attempt fails without a response the worker does not return:
    the nil response is dereferenced after the loop and the process
    panics. *)
Theorem C2_retry_budget (e : OS.env) (cfg : Current.Config)
  (url fileName path : gostring) (w : OS.world) :
  let n := Z.to_nat (Current.RetryAttempts cfg) in
  0 < Current.RetryAttempts cfg →
  Current.fileExists e (Filepath.Join path fileName) w = OS.Ok false →
  ((∀ i, (i < n)%nat → not_found_or_limited (OS.http_get e (OS.clock w + i) url)) →
   Current.downloadFile e cfg url fileName path w =
     (OS.Ok (Current.Failed Current.NonSuccessStatus),
      {| OS.fs := OS.fs w; OS.clock := OS.clock w + n;
         OS.log := OS.log w ++ attempts cfg url n ++
                   [OS.EvPrint (OS.MsgFailed fileName)] |}))
  ∧ ((∀ i, (i < n)%nat → OS.http_get e (OS.clock w + i) url = OS.GetFail None) →
     fst (Current.downloadFile e cfg url fileName path w) = OS.Panic)
  ∧ Z.to_nat (Current.RetryAttempts Current.GlobalConfig) = 10%nat.
Proof.
  intros n Hpos Hpre. split; [|split; [|done]].
  - intros Hall. unfold Current.downloadFile. rewrite Hpre.
    destruct (retry_loop_not_found e cfg url n None w Hall) as (resp' & Heq & Hp & _).
    fold n. rewrite Heq. destruct Hp as (rp & -> & Hst); [lia|].
    destruct (decide (OS.StatusCode rp ≠ 200)) as [_|Hn]; [|lia].
    unfold OS.emit. cbn. by rewrite <- app_assoc.
  - intros Hall. unfold Current.downloadFile. rewrite Hpre.
    fold n. rewrite (retry_loop_transport_errors e cfg url n None w Hall).
    destruct n eqn:Hn; [lia|done].
Qed.

(** ** Traces *)
Section Traces.
Import Strings Regexp OS Current.
Variables (e : env) (cfg : Config).

Lemma grows_refl w : grows w w.
Proof. exists []. by rewrite app_nil_r. Qed.

Lemma grows_trans w1 w2 w3 : grows w1 w2 → grows w2 w3 → grows w1 w3.
Proof.
  intros (evs1 & H1 & F1) (evs2 & H2 & F2). exists (evs1 ++ evs2).
  rewrite H2, H1, <- app_assoc. split; [done|]. by apply Forall_app.
Qed.

Lemma grows_emit ev w : cycle_event ev → grows w (emit ev w).
Proof. intros H. exists [ev]. split; [done|]. by constructor. Qed.

Lemma grows_set_fs m w : grows w (set_fs m w).
Proof. exists []. by rewrite app_nil_r. Qed.

Lemma grows_http_Get url w : grows w (snd (http_Get e url w)).
Proof. exists [EvGet url]. split; [done|]. by constructor. Qed.

Lemma grows_os_Create path w : grows w (snd (os_Create e path w)).
Proof.
  unfold os_Create. repeat case_match; cbn; by apply (grows_emit (EvCreate path)).
Qed.

Lemma grows_io_Copy path r w : grows w (snd (io_Copy e path r w)).
Proof.
  unfold io_Copy. cbn. eexists [_]. split; [done|]. by constructor.
Qed.

Lemma grows_retry_loop url n resp w :
  grows w (snd (retry_loop e cfg url n resp w)).
Proof.
  revert resp w. induction n as [|n IH]; intros resp w; cbn [retry_loop]; [apply grows_refl|].
  pose proof (grows_http_Get url w) as Hg.
  destruct (http_Get e url w) as [r w1]. cbn [snd] in Hg.
  destruct r as [rp|rp'].
  - destruct (decide _); [done|].
    eapply grows_trans; [|apply IH].
    eapply grows_trans; [exact Hg|]. by apply grows_emit.
  - eapply grows_trans; [|apply IH].
    eapply grows_trans; [exact Hg|].
    eapply grows_trans; by apply grows_emit.
Qed.

Lemma grows_downloadFile url fileName path w :
  grows w (snd (downloadFile e cfg url fileName path w)).
Proof.
  unfold downloadFile.
  destruct (fileExists _ _ _) as [[|]|]; try apply grows_refl.
  pose proof (grows_retry_loop url (Z.to_nat (RetryAttempts cfg)) None w) as Hr.
  destruct (retry_loop _ _ _ _ _ _) as [[rp|] w1]; cbn [snd] in Hr; [|done].
  destruct (decide _).
  { eapply grows_trans; [exact Hr|]. by apply grows_emit. }
  destruct (_ || _); [|done].
  pose proof (grows_os_Create (path ++ lit "/" ++ fileName) w1) as Hc.
  destruct (os_Create _ _ _) as [created w2]; cbn [snd] in Hc.
  assert (H2 : grows w w2) by (eapply grows_trans; eauto).
  destruct created; cbn [negb].
  2:{ eapply grows_trans; [exact H2|]. by apply grows_emit. }
  pose proof (grows_io_Copy (path ++ lit "/" ++ fileName) rp w2) as Hi.
  destruct (io_Copy _ _ _ _) as [[b err] w3]; cbn [snd] in Hi.
  assert (H3 : grows w w3) by (eapply grows_trans; eauto).
  destruct err.
  { eapply grows_trans; [exact H3|]. by apply grows_emit. }
  destruct (decide _); [|done].
  eapply grows_trans; [exact H3|]. by apply grows_emit.
Qed.

Lemma grows_run_workers path jobs w :
  grows w (snd (run_workers e cfg path jobs w)).
Proof.
  revert w. induction jobs as [|j jobs IH]; intros w; cbn [run_workers]; [apply grows_refl|].
  pose proof (grows_downloadFile (job_url j) (job_fileName j) path w) as Hd.
  destruct (downloadFile _ _ _ _ _ _) as [[o|] w1]; cbn [snd] in Hd; [|done].
  pose proof (IH w1) as Hr.
  destruct (run_workers _ _ _ _ _) as [[outs|] w2]; cbn [snd] in Hr |- *;
    eapply grows_trans; eauto.
Qed.

Lemma grows_process_page siteID pathResult files page w :
  grows w (snd (process_page e cfg siteID pathResult files page w)).
Proof.
  unfold process_page. destruct (response_of page) as [resp|]; [|apply grows_refl].
  unfold findImages. destruct (siteInfoMap !! siteID) as [si|]; cbn [foldl].
  - destruct (dispatch _ _) as [[jobs files']|]; [|apply grows_refl].
    pose proof (grows_run_workers pathResult (order e job jobs) w) as Hr.
    by destruct (run_workers _ _ _ _ _) as [[outs|] w2].
  - cbn [dispatch].
    pose proof (grows_run_workers pathResult (order e job [])
                  (emit (EvPrint (MsgNoSite siteID)) w)) as Hr.
    destruct (run_workers _ _ _ _ _) as [[outs|] w2]; cbn [snd] in Hr |- *;
      (eapply grows_trans; [|exact Hr]); by apply grows_emit.
Qed.

Lemma grows_cycle inputUrl siteID pathResult files w :
  ∃ evs, log (snd (cycle e cfg inputUrl siteID pathResult files w)) =
         log w ++ EvGet inputUrl :: evs ∧ Forall cycle_event evs.
Proof.
  unfold cycle. cbn [http_Get].
  destruct (grows_process_page siteID pathResult files (http_get e (clock w) inputUrl)
    {| fs := fs w; clock := S (clock w); log := log w ++ [EvGet inputUrl] |})
    as (evs & Hl & Hf).
  exists evs. split; [|done]. rewrite Hl. cbn. by rewrite <- app_assoc.
Qed.

End Traces.

(** ** The orchestrator *)
Section Orchestrator.
Import Strings Regexp OS Current.
Variables (e : env) (cfg : Config).

Lemma wrap_int_id z : is_int z → wrap_int z = z.
Proof.
  unfold is_int, wrap_int. intros H. rewrite Z.mod_small; lia.
Qed.

Lemma wrap_int_is_int z : is_int (wrap_int z).
Proof.
  unfold is_int, wrap_int.
  pose proof (Z.mod_pos_bound (z + 2 ^ 63) (2 ^ 64) ltac:(lia)). lia.
Qed.

Lemma wrap_int_add a b : wrap_int (wrap_int a + b) = wrap_int (a + b).
Proof.
  unfold wrap_int. f_equal.
  replace ((a + 2 ^ 63) mod 2 ^ 64 - 2 ^ 63 + b + 2 ^ 63)
    with ((a + 2 ^ 63) mod 2 ^ 64 + b) by lia.
  rewrite Zplus_mod_idemp_l. f_equal. lia.
Qed.

Lemma dispatch_spec links files jobs files' :
  is_int files →
  dispatch links files = Ok (jobs, files') →
  job_url <$> jobs = links ∧ files' = wrap_int (files + Z.of_nat (length links)).
Proof.
  revert files jobs files'. induction links as [|link links IH];
    intros files jobs files' Hint; cbn [dispatch].
  - intros [= <- <-]. split; [done|]. cbn. rewrite Z.add_0_r. by rewrite wrap_int_id.
  - destruct (index _ _) as [nameImg|]; [|done].
    destruct (dispatch links _) as [[jobs0 files0]|] eqn:Hd; [|done].
    intros [= <- <-]. apply IH in Hd as [Hu ->]; [|apply wrap_int_is_int].
    split; [cbn; by f_equal|]. rewrite wrap_int_add. f_equal. cbn [length]. lia.
Qed.

Lemma run_workers_jobs path jobs w outs w' :
  run_workers e cfg path jobs w = (Ok outs, w') → outs.*1 = jobs.
Proof.
  revert w outs. induction jobs as [|j jobs IH]; intros w outs; cbn [run_workers].
  - by intros [= <- <-].
  - destruct (downloadFile _ _ _ _ _ _) as [[o|] w1]; [|done].
    destruct (run_workers _ _ _ _ _) as [[outs0|] w2] eqn:Hr; [|done].
    intros [= <- <-]. cbn. f_equal. eauto.
Qed.

Lemma cycle_report_spec inputUrl siteID pathResult files w rep w' :
  fair e → is_int files →
  cycle e cfg inputUrl siteID pathResult files w = (Ok rep, w') →
  ∃ resp, response_of (http_get e (clock w) inputUrl) = Some resp ∧
    let links := fst (findImages (Body resp) siteID) in
    job_url <$> (outcomes rep).*1 ≡ₚ links ∧
    files_after rep = wrap_int (files + Z.of_nat (length links)).
Proof.
  intros Hfair Hint. unfold cycle, process_page. cbn [http_Get].
  destruct (response_of _) as [resp|]; [|done].
  destruct (findImages _ _) as [links printed] eqn:Hf.
  destruct (dispatch links files) as [[jobs files']|] eqn:Hd; [|done].
  destruct (run_workers _ _ _ _ _) as [[outs|] w2] eqn:Hr; [|done].
  intros [= <- <-]. exists resp. split; [done|]. cbn. rewrite Hf. cbn [fst].
  apply dispatch_spec in Hd as [Hu ->]; [|done].
  apply run_workers_jobs in Hr. rewrite Hr, <- Hu. split; [|done].
  apply fmap_Permutation, Hfair.
Qed.

Lemma countdown_from_spec k i :
  countdown_from k i =
  ((fun j => i - Z.of_nat j) <$> seq 0 k) ≫= countdown_line.
Proof.
  revert i. induction k as [|k IH]; intros i; [done|].
  cbn [countdown_from seq]. rewrite <- fmap_S_seq, fmap_cons, bind_cons.
  rewrite Z.sub_0_r. cbn [countdown_line app]. do 2 f_equal.
  rewrite IH, <- list_fmap_compose. f_equal.
  apply list_fmap_ext. intros _ j _. cbn. lia.
Qed.

Lemma countdown_spec secs : countdown secs = descending secs ≫= countdown_line.
Proof. apply countdown_from_spec. Qed.

Lemma main_loop_log fuel inputUrl siteID pathResult thread monitor secs files w :
  log w `prefix_of`
  log (snd (main_loop fuel e cfg inputUrl siteID pathResult thread monitor secs files w)).
Proof.
  revert files w. induction fuel as [|fuel IH]; intros files w; cbn [main_loop]; [done|].
  destruct (grows_cycle e cfg inputUrl siteID pathResult files w) as (evs & Hl & _).
  destruct (cycle _ _ _ _ _ _ _) as [[rep|] w1]; cbn [snd] in Hl.
  - assert (Hp : log w `prefix_of` log w1) by (rewrite Hl; by eexists).
    destruct monitor; cbn [negb].
    + etrans; [exact Hp|]. etrans; [|apply IH]. cbn. by eexists.
    + cbn. etrans; [exact Hp|]. by eexists.
  - cbn. rewrite Hl. by eexists.
Qed.

End Orchestrator.

(** C4 (amended): the counter [files] of the final report is incremented
    once for every link of the cycle when its worker is started, so after
    a completed cycle it has grown by the number of links, which is the
    number of outcomes, whatever these are; a single pass over a page
    with three links in an empty directory reports 3. *)
Theorem C4_files_counts_dispatched_links (e : OS.env) (cfg : Current.Config)
  (inputUrl siteID pathResult : gostring) (files : Z) (w w' : OS.world)
  (rep : Current.cycle_report) :
  fair e → is_int files →
  Current.cycle e cfg inputUrl siteID pathResult files w = (OS.Ok rep, w') →
  Current.files_after rep =
    OS.wrap_int (files + Z.of_nat (length (Current.outcomes rep)))
  ∧ (∃ resp, Current.response_of (OS.http_get e (OS.clock w) inputUrl) = Some resp ∧
       length (Current.outcomes rep) =
       length (fst (Current.findImages (OS.Body resp) siteID)))
  ∧ fst (Current.main 1 (Examples.env_of Examples.net_three) Current.GlobalConfig
           Examples.thread_url (lit "4chan") (lit "/home/u") false 0 Examples.world0)
    = Current.Finished 3.
Proof.
  intros Hfair Hint Hc.
  destruct (cycle_report_spec e cfg _ _ _ _ _ _ _ Hfair Hint Hc) as (resp & Hresp & Hperm & Hfiles).
  assert (Hlen : length (Current.outcomes rep) =
                 length (fst (Current.findImages (OS.Body resp) siteID))).
  { rewrite <- Hperm. by rewrite !length_fmap. }
  split; [by rewrite Hlen|]. split; [by exists resp|]. by vm_compute.
Qed.

(** C5: a page fetch that fails without a response does not give an
    empty page: [main] reads the body of the nil response and the
    process panics, in either mode. A failed fetch that still carries a
    response (a redirect chain cut short) is read as an empty page and the
    cycle completes without links. *)
Theorem C5_page_fetch_error (e : OS.env) (cfg : Current.Config)
  (inputUrl siteID pathResult thread : gostring) (monitor : bool) (secs files : Z)
  (w : OS.world) (fuel : nat) :
  (OS.http_get e (OS.clock w) inputUrl = OS.GetFail None →
   Current.main_loop (S fuel) e cfg inputUrl siteID pathResult thread monitor secs files w =
     (Current.Crashed,
      {| OS.fs := OS.fs w; OS.clock := S (OS.clock w);
         OS.log := OS.log w ++ [OS.EvGet inputUrl] |}))
  ∧ (∀ r, OS.http_get e (OS.clock w) inputUrl = OS.GetFail (Some r) →
     is_Some (Current.siteInfoMap !! siteID) → fair e →
     Current.cycle e cfg inputUrl siteID pathResult files w =
       (OS.Ok {| Current.files_after := files; Current.outcomes := [] |},
        {| OS.fs := OS.fs w; OS.clock := S (OS.clock w);
           OS.log := OS.log w ++ [OS.EvGet inputUrl] |})).
Proof.
  split.
  - intros H. cbn [Current.main_loop]. unfold Current.cycle, Current.process_page.
    cbn [OS.http_Get]. by rewrite H.
  - intros r H [si Hsi] Hfair. unfold Current.cycle, Current.process_page.
    cbn [OS.http_Get]. rewrite H. cbn [Current.response_of fmap option_fmap option_map OS.closed OS.Body].
    unfold Current.findImages. rewrite Hsi. cbn.
    by rewrite (proj1 (Permutation_nil_r _) (Hfair Current.job [])).
Qed.

(** C8: with monitoring off the loop is left after the first cycle and
    the final report follows it directly, no countdown line being printed;
    with monitoring on and an interval [secs >= 0] the cycle is followed by
    the countdown lines for [secs], [secs - 1], ..., [0], one second
    apart, and the next thing the process does is the next page fetch. *)
Theorem C8_one_pass_or_countdown (e : OS.env) (cfg : Current.Config)
  (inputUrl siteID pathResult thread : gostring) (secs files : Z)
  (w w1 : OS.world) (rep : Current.cycle_report) (fuel : nat) :
  Current.cycle e cfg inputUrl siteID pathResult files w = (OS.Ok rep, w1) →
  (Current.main_loop (S fuel) e cfg inputUrl siteID pathResult thread false secs files w =
     (Current.Finished (Current.files_after rep),
      OS.emit (OS.EvPrint (OS.MsgComplete (Current.files_after rep) thread)) w1)
   ∧ ∃ evs, OS.log w1 = OS.log w ++ OS.EvGet inputUrl :: evs ∧ Forall cycle_event evs)
  ∧ (0 <= secs →
     Current.countdown secs = descending secs ≫= countdown_line
     ∧ head (descending secs) = Some secs
     ∧ last (descending secs) = Some 0
     ∧ Current.main_loop (S fuel) e cfg inputUrl siteID pathResult thread true secs files w =
       Current.main_loop fuel e cfg inputUrl siteID pathResult thread true secs
         (Current.files_after rep) (Current.emit_all (Current.countdown secs) w1)
     ∧ ∀ r w',
         Current.main_loop (S (S fuel)) e cfg inputUrl siteID pathResult thread true secs
           files w = (r, w') →
         (OS.log w1 ++ Current.countdown secs ++ [OS.EvGet inputUrl]) `prefix_of` OS.log w').
Proof.
  intros Hc. split.
  - split; [cbn [Current.main_loop]; by rewrite Hc|].
    pose proof (grows_cycle e cfg inputUrl siteID pathResult files w) as Hg.
    by rewrite Hc in Hg.
  - intros Hsecs. split; [apply countdown_spec|].
    split.
    { unfold descending. replace (Z.to_nat (secs + 1)) with (S (Z.to_nat secs)) by lia.
      cbn. f_equal. lia. }
    split.
    { unfold descending. replace (Z.to_nat (secs + 1)) with (S (Z.to_nat secs)) by lia.
      rewrite seq_S, fmap_app. cbn [fmap list_fmap]. rewrite last_snoc. f_equal. cbn. lia. }
    split; [cbn [Current.main_loop]; by rewrite Hc|].
    intros r w' Hm. cbn [Current.main_loop] in Hm. rewrite Hc in Hm. cbn [negb] in Hm.
    set (w2 := Current.emit_all _ w1) in Hm.
    destruct (grows_cycle e cfg inputUrl siteID pathResult (Current.files_after rep) w2)
      as (evs & Hl & _).
    destruct (Current.cycle e cfg inputUrl siteID pathResult (Current.files_after rep) w2)
      as [[rep2|] w3] eqn:Hc2; cbn [snd] in Hl.
    + pose proof (main_loop_log e cfg fuel inputUrl siteID pathResult thread true secs
                    (Current.files_after rep2)
                    (Current.emit_all (Current.countdown secs) w3)) as Hp.
      cbn [negb] in Hm. rewrite Hm in Hp. cbn [snd] in Hp.
      etrans; [|exact Hp]. cbn. rewrite Hl. subst w2. cbn.
      rewrite <- !app_assoc. do 2 apply prefix_app. cbn. apply prefix_cons. apply prefix_nil.
    + inversion Hm; subst. rewrite Hl. subst w2. cbn.
      rewrite <- !app_assoc. do 2 apply prefix_app. cbn. apply prefix_cons. apply prefix_nil.
Qed.

(** ** Files on disk across workers and cycles *)
Section Files.
Import Strings Regexp OS Current.
Variables (e : env) (cfg : Config).

Lemma files_kept_refl w : files_kept w w.
Proof. by intros k. Qed.

Lemma files_kept_trans w1 w2 w3 : files_kept w1 w2 → files_kept w2 w3 → files_kept w1 w3.
Proof. intros H1 H2 k Hk. by apply H2, H1. Qed.

Lemma files_kept_same_fs w w' : fs w' = fs w → files_kept w w'.
Proof. intros H k. unfold is_file. by rewrite H. Qed.

Lemma files_kept_insert_file w w' k content :
  fs w' = <[k := File content]> (fs w) → files_kept w w'.
Proof.
  intros H k' [c Hc]. unfold is_file. rewrite H.
  destruct (decide (k = k')) as [->|Hne].
  - rewrite lookup_insert_eq. by eexists.
  - rewrite lookup_insert_ne; [by eexists|done].
Qed.

Lemma Clean_nonempty (p : gostring) : Filepath.Clean p ≠ [].
Proof.
  destruct (Clean_rendered p) as (rooted & out & Hk & ->).
  unfold rendered. destruct rooted; [done|].
  destruct (decide _) as [|Hout]; [done|].
  destruct (kept_no_slash _ _ Hk) as [_ Hne].
  apply Forall_reverse in Hne. rewrite reverse_involutive in Hne.
  destruct out as [|a out]; [done|]. inversion Hne; subst.
  destruct a; [done|]. by destruct out.
Qed.

Lemma fileExists_true (p : gostring) (w : world) :
  fileExists e p w = Ok true ↔
  p ≠ [] ∧ stat_fails e (resolve p) = false ∧ is_file w (resolve p).
Proof.
  unfold fileExists, os_Stat, is_file.
  destruct (decide (p = [])); [naive_solver|].
  destruct (stat_fails e (resolve p)); [naive_solver|].
  destruct (fs w !! resolve p) as [[c|]|]; naive_solver.
Qed.

Lemma fileExists_no_panic (p : gostring) (w : world) (b : bool) :
  p ≠ [] → fileExists e p w = Ok b → stat_fails e (resolve p) = false.
Proof.
  unfold fileExists, os_Stat. intros Hp.
  destruct (decide (p = [])); [done|]. by destruct (stat_fails e (resolve p)).
Qed.

Lemma fileExists_kept (p : gostring) (w w' : world) :
  files_kept w w' → fileExists e p w = Ok true → fileExists e p w' = Ok true.
Proof. rewrite !fileExists_true. naive_solver. Qed.

Lemma retry_loop_fs url n resp w : fs (snd (retry_loop e cfg url n resp w)) = fs w.
Proof.
  revert resp w. induction n as [|n IH]; intros resp w; cbn [retry_loop http_Get]; [done|].
  destruct (http_get e (clock w) url) as [rp|rp'].
  - destruct (decide _); [done|]. by rewrite IH.
  - by rewrite IH.
Qed.

Lemma os_Create_spec path w created w' :
  os_Create e path w = (created, w') →
  log w' = log w ++ [EvCreate path] ∧ clock w' = clock w ∧
  if created then fs w' = <[resolve path := File []]> (fs w) else fs w' = fs w.
Proof.
  unfold os_Create.
  destruct (decide _); [by intros [= <- <-]|].
  destruct (create_fails _ _); [by intros [= <- <-]|].
  destruct (fs w !! _) as [[|]|]; by intros [= <- <-].
Qed.

Lemma downloadFile_skip url fileName path w :
  fileExists e (Filepath.Join path fileName) w = Ok true →
  downloadFile e cfg url fileName path w = (Ok SkippedExisting, w).
Proof. intros H. unfold downloadFile. by rewrite H. Qed.

(** What a call that does not panic leaves behind. *)
Lemma downloadFile_spec url fileName path w r w' :
  downloadFile e cfg url fileName path w = (r, w') →
  files_kept w w' ∧
  ∀ o, r = Ok o → skipped_or_downloaded o →
       is_file w' (resolve (path ++ lit "/" ++ fileName)) ∨
       fileExists e (Filepath.Join path fileName) w = Ok true ∧ w' = w.
Proof.
  unfold downloadFile.
  destruct (fileExists _ _ _) as [[|]|] eqn:Hpre.
  { intros [= <- <-]. split; [apply files_kept_refl|]. intros; by right. }
  2:{ intros [= <- <-]. split; [apply files_kept_refl|]. done. }
  pose proof (retry_loop_fs url (Z.to_nat (RetryAttempts cfg)) None w) as Hfs.
  destruct (retry_loop _ _ _ _ _ _) as [[rp|] w1]; cbn [snd] in Hfs.
  2:{ intros [= <- <-]. split; [by apply files_kept_same_fs|done]. }
  destruct (decide _).
  { intros [= <- <-]. split; [by apply files_kept_same_fs|].
    intros o [= <-] [|]; done. }
  unfold monitorMode. rewrite orb_true_r.
  destruct (os_Create _ _ _) as [created w2] eqn:Hc.
  apply os_Create_spec in Hc as (_ & _ & Hfs2).
  destruct created; cbn [negb].
  2:{ intros [= <- <-]. split; [apply files_kept_same_fs; cbn; congruence|].
      intros o [= <-] [|]; done. }
  unfold io_Copy. cbn zeta.
  set (written := copied _ _ _).
  set (w3 := set_fs _ _).
  assert (Hk : files_kept w w3).
  { eapply files_kept_trans; [eapply files_kept_same_fs, Hfs|].
    eapply files_kept_trans; [eapply files_kept_insert_file, Hfs2|].
    by eapply files_kept_insert_file. }
  assert (Hf : is_file w3 (resolve (path ++ lit "/" ++ fileName))).
  { exists written. subst w3. cbn. by rewrite lookup_insert_eq. }
  destruct (_ || _).
  { intros [= <- <-]. split; [done|]. intros o [= <-] [|]; done. }
  destruct (decide _); intros [= <- <-]; (split; [done|]); [|done].
  intros o _ _. by left.
Qed.

Lemma downloadFile_outcome_file url fileName path w o w' :
  path ≠ [] →
  downloadFile e cfg url fileName path w = (Ok o, w') →
  skipped_or_downloaded o →
  fileExists e (Filepath.Join path fileName) w' = Ok true.
Proof.
  intros Hp Hd Ho.
  destruct (downloadFile_spec _ _ _ _ _ _ Hd) as [Hk Hspec].
  destruct (Hspec o eq_refl Ho) as [Hf|[Hex ->]]; [|done].
  apply fileExists_true.
  assert (Hne : Filepath.Join path fileName ≠ []).
  { unfold Filepath.Join. destruct (decide _); [done|]. apply Clean_nonempty. }
  split; [done|]. rewrite resolve_Join by done. split; [|done].
  unfold downloadFile in Hd.
  destruct (fileExists e (Filepath.Join path fileName) w) as [b|] eqn:Hpre.
  - apply fileExists_no_panic in Hpre; [|done]. by rewrite resolve_Join in Hpre.
  - by inversion Hd.
Qed.

Lemma run_workers_files_kept path jobs w :
  files_kept w (snd (run_workers e cfg path jobs w)).
Proof.
  revert w. induction jobs as [|j jobs IH]; intros w; cbn [run_workers];
    [apply files_kept_refl|].
  destruct (downloadFile _ _ _ _ _ _) as [r w1] eqn:Hd.
  apply downloadFile_spec in Hd as [Hk _].
  destruct r as [o|]; [|done].
  pose proof (IH w1) as Hr.
  destruct (run_workers _ _ _ _ _) as [[outs|] w2]; cbn [snd] in Hr |- *;
    by eapply files_kept_trans.
Qed.

Lemma run_workers_outcome_files path jobs w outs w' :
  path ≠ [] →
  run_workers e cfg path jobs w = (Ok outs, w') →
  Forall (fun jo => skipped_or_downloaded (snd jo) →
            fileExists e (Filepath.Join path (job_fileName (fst jo))) w' = Ok true) outs.
Proof.
  intros Hp. revert w outs. induction jobs as [|j jobs IH]; intros w outs; cbn [run_workers].
  - intros [= <- <-]. constructor.
  - destruct (downloadFile _ _ _ _ _ _) as [[o|] w1] eqn:Hd; [|done].
    pose proof (run_workers_files_kept path jobs w1) as Hk.
    destruct (run_workers _ _ _ _ _) as [[outs0|] w2] eqn:Hr; [|done].
    intros [= <- <-]. cbn [snd] in Hk. constructor; [|by eapply IH].
    cbn [fst snd]. intros Ho. eapply fileExists_kept; [exact Hk|].
    by eapply downloadFile_outcome_file.
Qed.

Lemma run_workers_all_skip path jobs w :
  Forall (fun j => fileExists e (Filepath.Join path (job_fileName j)) w = Ok true) jobs →
  run_workers e cfg path jobs w = (Ok ((fun j => (j, SkippedExisting)) <$> jobs), w).
Proof.
  induction 1 as [|j jobs Hj _ IH]; [done|].
  cbn [run_workers]. by rewrite (downloadFile_skip _ _ _ _ Hj), IH.
Qed.

Lemma emit_prints_spec (printed : list message) (w0 : world) :
  let w1 := foldl (fun w m => emit (EvPrint m) w) w0 printed in
  fs w1 = fs w0 ∧ clock w1 = clock w0 ∧ log w1 = log w0 ++ (EvPrint <$> printed).
Proof.
  revert w0. induction printed as [|m printed IH]; intros w0; cbn [foldl].
  - by rewrite app_nil_r.
  - destruct (IH (emit (EvPrint m) w0)) as (-> & -> & ->). cbn.
    by rewrite <- app_assoc.
Qed.

Lemma Forall_and_2 {A} (P Q : A → Prop) (l : list A) :
  Forall P l → Forall Q l → Forall (fun x => P x ∧ Q x) l.
Proof. intros HP HQ. apply Forall_and. by split. Qed.

Lemma dispatch_jobs links files files2 jobs files' :
  dispatch links files = Ok (jobs, files') →
  ∃ files2', dispatch links files2 = Ok (jobs, files2').
Proof.
  revert files files2 jobs files'. induction links as [|link links IH];
    intros files files2 jobs files'; cbn [dispatch].
  - intros [= <- <-]. by eexists.
  - destruct (index _ _) as [nameImg|]; [|done].
    destruct (dispatch links (wrap_int (files + 1))) as [[jobs0 files0]|] eqn:Hd; [|done].
    intros [= <- <-].
    destruct (IH _ (wrap_int (files2 + 1)) _ _ Hd) as [f' ->]. by eexists.
Qed.

End Files.

(** C3: a link whose destination is already a regular file is skipped
    at once, the world left untouched (no request, no file opened); hence
    a second cycle over the same page, after a cycle in which every link
    was downloaded or skipped, requests the page and nothing else and
    skips every link; and the file of a download is skipped by every later
    call for it, files never being removed by the program. *)
Theorem C3_existing_files_are_skipped (e : OS.env) (cfg : Current.Config) :
  (∀ url fileName path w,
     Current.fileExists e (Filepath.Join path fileName) w = OS.Ok true →
     Current.downloadFile e cfg url fileName path w = (OS.Ok Current.SkippedExisting, w))
  ∧ (∀ inputUrl siteID path files w rep1 w1,
       path ≠ [] →
       Current.cycle e cfg inputUrl siteID path files w = (OS.Ok rep1, w1) →
       Forall (fun jo => skipped_or_downloaded (snd jo)) (Current.outcomes rep1) →
       Current.response_of (OS.http_get e (OS.clock w1) inputUrl) =
         Current.response_of (OS.http_get e (OS.clock w) inputUrl) →
       ∃ rep2 w2 msgs,
         Current.cycle e cfg inputUrl siteID path (Current.files_after rep1) w1 =
           (OS.Ok rep2, w2)
         ∧ Current.outcomes rep2 =
             (fun jo => (fst jo, Current.SkippedExisting)) <$> Current.outcomes rep1
         ∧ OS.fs w2 = OS.fs w1
         ∧ OS.log w2 = OS.log w1 ++ OS.EvGet inputUrl :: (OS.EvPrint <$> msgs))
  ∧ (∀ url fileName path w b w',
       path ≠ [] →
       Current.downloadFile e cfg url fileName path w =
         (OS.Ok (Current.Downloaded fileName b), w') →
       ∀ w'' url', files_kept w' w'' →
         Current.downloadFile e cfg url' fileName path w'' =
           (OS.Ok Current.SkippedExisting, w''))
  ∧ (∀ inputUrl siteID path files w,
       files_kept w (snd (Current.cycle e cfg inputUrl siteID path files w))).
Proof.
  split; [intros; by apply downloadFile_skip|]. split; [|split].
  - intros inputUrl siteID path files w rep1 w1 Hp Hc Hall Hsame.
    unfold Current.cycle, Current.process_page in *. cbn [OS.http_Get] in *.
    rewrite Hsame.
    destruct (Current.response_of _) as [resp|]; [|done].
    destruct (Current.findImages _ _) as [links printed].
    destruct (Current.dispatch links files) as [[jobs files1]|] eqn:Hd; [|done].
    destruct (Current.run_workers _ _ _ _ _) as [[outs|] w1'] eqn:Hr; [|done].
    inversion Hc; subst rep1 w1'. cbn [Current.files_after Current.outcomes] in *.
    destruct (dispatch_jobs _ _ files1 _ _ Hd) as [files2 ->].
    pose proof (run_workers_jobs _ _ _ _ _ _ _ Hr) as Hjobs.
    pose proof (run_workers_outcome_files e cfg _ _ _ _ _ Hp Hr) as Hfiles.
    set (w0 := {| OS.fs := OS.fs w1; OS.clock := S (OS.clock w1);
                  OS.log := OS.log w1 ++ [OS.EvGet inputUrl] |}).
    destruct (emit_prints_spec printed w0) as (Hfs & _ & Hlog).
    set (w1' := foldl _ w0 printed) in *.
    assert (Hskip : Forall (fun j => Current.fileExists e
                      (Filepath.Join path (Current.job_fileName j)) w1' = OS.Ok true)
                      (OS.order e Current.job jobs)).
    { rewrite <- Hjobs. apply Forall_fmap.
      eapply Forall_impl; [exact (Forall_and_2 _ _ _ Hall Hfiles)|].
      intros jo [Ho Hf]. cbn. eapply fileExists_kept; [|by apply Hf].
      by apply files_kept_same_fs. }
    rewrite (run_workers_all_skip e cfg path _ w1' Hskip).
    eexists _, w1', printed. split; [done|]. cbn [Current.outcomes].
    split; [by rewrite <- Hjobs, <- list_fmap_compose|].
    split; [done|]. rewrite Hlog. cbn. by rewrite <- app_assoc.
  - intros url fileName path w b w' Hp Hd w'' url' Hk.
    apply downloadFile_skip. eapply fileExists_kept; [exact Hk|].
    eapply downloadFile_outcome_file; [done|exact Hd|by right].
  - intros inputUrl siteID path files w.
    unfold Current.cycle, Current.process_page. cbn [OS.http_Get].
    destruct (Current.response_of _) as [resp|]; [|by apply files_kept_same_fs].
    destruct (Current.findImages _ _) as [links printed].
    set (w0 := {| OS.fs := OS.fs w; OS.clock := S (OS.clock w);
                  OS.log := OS.log w ++ [OS.EvGet inputUrl] |}).
    destruct (emit_prints_spec printed w0) as (Hfs & _ & _).
    set (w1 := foldl _ w0 printed) in *.
    assert (Hk : files_kept w w1) by by apply files_kept_same_fs.
    destruct (Current.dispatch _ _) as [[jobs files']|]; [|done].
    pose proof (run_workers_files_kept e cfg path (OS.order e Current.job jobs) w1) as Hr.
    destruct (Current.run_workers _ _ _ _ _) as [[outs|] w2]; cbn [snd] in *;
      by eapply files_kept_trans.
Qed.

(** ** Failures of one worker *)
Section Failures.
Import Strings Regexp OS Current.
Variables (e : env) (cfg : Config).






End Failures.



(** ** The extension fallback of the previous program *)
Section Fallback.
Import Strings Regexp OS.
Variable e : env.

Lemma HasPrefix_jpg_app (x : gostring) :
  x ≠ [] → HasPrefix (x ++ jpg) jpg = true → HasPrefix x jpg = true.
Proof.
  unfold jpg. change (lit ".jpg") with ["."%char; "j"%char; "p"%char; "g"%char].
  destruct x as [|c1 [|c2 [|c3 [|c4 x]]]]; [done|..]; intros _; cbn;
    repeat (destruct (decide _); try done).
Qed.

Lemma Contains_cons c s sub :
  Contains (c :: s) sub = false → HasPrefix (c :: s) sub = false ∧ Contains s sub = false.
Proof. cbn [Contains]. by intros [? ?]%orb_false_elim. Qed.

Lemma HasPrefix_before_jpg c s :
  Contains (c :: s) jpg = false → HasPrefix (c :: s ++ jpg) jpg = false.
Proof.
  intros [Hp _]%Contains_cons.
  destruct (HasPrefix (c :: s ++ jpg) jpg) eqn:H; [|done].
  apply (HasPrefix_jpg_app (c :: s)) in H; [congruence|done].
Qed.

Lemma Split_before_jpg (stem : gostring) :
  Contains stem jpg = false → index (Split (stem ++ jpg) jpg) 0 = Some stem.
Proof.
  intros Hc.
  assert (H : ∃ rest, Split (stem ++ jpg) jpg = stem :: rest); [|by destruct H as [rest ->]].
  induction stem as [|c stem IH]; [by eexists|].
  destruct (Contains_cons _ _ _ Hc) as [_ Hc'].
  destruct (IH Hc') as [rest Hrest].
  unfold Split in *. cbn [app split_from].
  rewrite (HasPrefix_before_jpg c stem Hc), Hrest. by eexists.
Qed.

Lemma Cut_before_jpg (name : gostring) :
  Contains name jpg = false → Cut (name ++ jpg) jpg = Some (name, []).
Proof.
  intros Hc. induction name as [|c name IH]; [done|].
  destruct (Contains_cons _ _ _ Hc) as [_ Hc'].
  cbn [app Cut]. rewrite (HasPrefix_before_jpg c name Hc).
  destruct (name ++ jpg) eqn:Hn; by rewrite IH.
Qed.

Lemma Replace_jpg (name ext : gostring) :
  Contains name jpg = false → Replace (name ++ jpg) jpg ext 1 = name ++ ext.
Proof.
  intros Hc. cbn [Replace]. rewrite (Cut_before_jpg name Hc). cbn [Replace].
  by rewrite app_nil_r.
Qed.

Lemma digits_no_jpg (digits : gostring) :
  Forall (fun c => is_digit c = true) digits → Contains digits jpg = false.
Proof.
  induction 1 as [|c digits Hc _ IH]; [done|].
  cbn [Contains]. rewrite IH, orb_false_r.
  unfold jpg. change (lit ".jpg") with ("."%char :: lit "jpg"). cbn.
  destruct (decide _) as [<-|]; [|done]. by vm_compute in Hc.
Qed.

Lemma locate_candidate (stem name : gostring) (w : world) (k : nat) (ext : gostring)
  (rk : response) :
  Contains stem jpg = false → Contains name jpg = false →
  candidates !! k = Some ext →
  not_found_before e w stem k →
  http_get e (clock w + k) (stem ++ ext) = GetResp rk → StatusCode rk ≠ 404 →
  Legacy.locate e (stem ++ jpg) (name ++ jpg) w =
    (Ok (rk, name ++ ext),
     {| fs := fs w; clock := clock w + S k;
        log := log w ++ ((fun x => EvGet (stem ++ x)) <$> take (S k) candidates) |}).
Proof.
  intros Hstem Hname Hext Hnf Hk Hst.
  assert (Hnf' : ∀ i ext, (i < k)%nat → candidates !! i = Some ext →
            ∃ r, http_get e (i + clock w) (stem ++ ext) = GetResp r ∧ StatusCode r = 404).
  { intros i x Hi Hx. rewrite Nat.add_comm. by apply Hnf. }
  rewrite Nat.add_comm in Hk. clear Hnf.
  unfold Legacy.locate. cbn [http_Get].
  destruct k as [|k].
  { inversion Hext; subst ext. cbn [Nat.add] in Hk. change (lit ".jpg") with jpg in *.
    rewrite Hk. cbn [Legacy.response_of]. unfold Legacy.fallback.
    destruct (decide _); [done|]. do 2 f_equal. cbn. f_equal. lia. }
  destruct (Hnf' 0%nat (lit ".jpg")) as (r0 & H0 & S0); [lia|done|].
  cbn [Nat.add] in H0. change (lit ".jpg") with jpg in *. rewrite H0.
  cbn [Legacy.response_of]. unfold Legacy.fallback.
  destruct (decide _); [|done]. change (lit ".jpg") with jpg.
  rewrite (Split_before_jpg stem Hstem).
  unfold Legacy.extList. cbn [Legacy.fallback_loop http_Get clock].
  destruct k as [|k].
  { inversion Hext; subst ext. cbn [Nat.add] in Hk. rewrite Hk.
    cbn [Legacy.response_of]. destruct (decide _); [|done].
    change (lit ".jpg") with jpg. rewrite (Replace_jpg name _ Hname).
    f_equal. cbn. f_equal; [lia|by rewrite <- ?app_assoc]. }
  destruct (Hnf' 1%nat (lit ".png")) as (r1 & H1 & S1); [lia|done|].
  cbn [Nat.add] in H1. rewrite H1. cbn [Legacy.response_of].
  destruct (decide _); [done|].
  destruct k as [|k].
  { inversion Hext; subst ext. cbn [Nat.add] in Hk. rewrite Hk.
    cbn [Legacy.response_of]. destruct (decide _); [|done].
    change (lit ".jpg") with jpg. rewrite (Replace_jpg name _ Hname).
    f_equal. cbn. f_equal; [lia|by rewrite <- ?app_assoc]. }
  destruct (Hnf' 2%nat (lit ".webm")) as (r2 & H2 & S2); [lia|done|].
  cbn [Nat.add] in H2. rewrite H2. cbn [Legacy.response_of].
  destruct (decide _); [done|].
  destruct k as [|k]; [|done].
  inversion Hext; subst ext. cbn [Nat.add] in Hk. rewrite Hk.
  cbn [Legacy.response_of]. destruct (decide _); [|done].
  change (lit ".jpg") with jpg. rewrite (Replace_jpg name _ Hname).
  f_equal. cbn. f_equal; [lia|by rewrite <- ?app_assoc].
Qed.

End Fallback.

(** C1: in the program whose file names default to ".jpg", a link that
    is answered 404 is looked for under ".png", ".webm" and ".gif", in this
    order and up to the first answer other than 404, and the file name
    takes the extension of the link that was found; in particular, with
    ".jpg" answered 404 and ".png" answered 200, the download is written
    under the ".png" name. The current program takes its file names from
    the links of the page as they are and has no such fallback. *)
Theorem C1_extension_fallback (e : OS.env) (monitorMode : bool)
  (stem digits path : gostring) (w : OS.world) :
  Strings.Contains stem jpg = false →
  Forall (fun c => Regexp.is_digit c = true) digits →
  (∀ k ext rk,
     candidates !! k = Some ext →
     not_found_before e w stem k →
     OS.http_get e (OS.clock w + k) (stem ++ ext) = OS.GetResp rk →
     OS.StatusCode rk ≠ 404 →
     Legacy.locate e (stem ++ jpg) (digits ++ jpg) w =
       (OS.Ok (rk, digits ++ ext),
        {| OS.fs := OS.fs w; OS.clock := OS.clock w + S k;
           OS.log := OS.log w ++
                     ((fun x => OS.EvGet (stem ++ x)) <$> take (S k) candidates) |}))
  ∧ (∀ r0 r1,
       OS.http_get e (OS.clock w) (stem ++ jpg) = OS.GetResp r0 →
       OS.StatusCode r0 = 404 →
       OS.http_get e (OS.clock w + 1) (stem ++ lit ".png") = OS.GetResp r1 →
       OS.StatusCode r1 = 200 →
       let fileName := digits ++ lit ".png" in
       let filePath := path ++ lit "//" ++ fileName in
       let b := Z.of_nat (length (OS.copied e filePath r1)) in
       OS.IsNotExist (OS.os_Stat e filePath w) = true ∨ monitorMode = false →
       OS.create_fails e (OS.resolve filePath) = false →
       OS.fs w !! OS.resolve filePath ≠ Some OS.Dir →
       0 <= OS.size_exponent e b < 5 →
       ∃ w',
         Legacy.downloadFile e monitorMode (stem ++ jpg) (digits ++ jpg) path w =
           (OS.Ok (Legacy.Downloaded fileName b), w')
         ∧ OS.fs w' !! OS.resolve filePath = Some (OS.File (OS.copied e filePath r1))
         ∧ Strings.HasSuffix fileName (lit ".png") = true
         ∧ Strings.HasSuffix fileName jpg = false).
Proof.
  intros Hstem Hdigits.
  pose proof (digits_no_jpg digits Hdigits) as Hname.
  split.
  - intros k ext rk Hext Hnf Hk Hst. by apply locate_candidate.
  - intros r0 r1 H0 S0 H1 S1 fileName filePath b Hfree Hcreate Hdir Hsize.
    unfold Legacy.downloadFile.
    rewrite (locate_candidate e stem digits w 1 (lit ".png") r1 Hstem Hname eq_refl);
      [| |done|lia].
    2:{ intros i ext Hi Hext. assert (i = 0%nat) as -> by lia.
        inversion Hext; subst ext. exists r0. by rewrite Nat.add_0_r. }
    set (w2 := {| OS.fs := OS.fs w |}). destruct (decide _) as [_|]; [|lia].
    change (path ++ lit "//" ++ digits ++ lit ".png") with filePath.
    change (digits ++ lit ".png") with fileName.
    assert (Hstat : OS.os_Stat e filePath w2 = OS.os_Stat e filePath w) by done.
    rewrite Hstat.
    assert (Hgo : OS.IsNotExist (OS.os_Stat e filePath w) || negb monitorMode = true).
    { destruct Hfree as [->| ->]; [done|]. by rewrite orb_true_r. }
    rewrite Hgo. unfold OS.os_Create.
    destruct (decide (filePath = [])) as [Hnil|_].
    { subst filePath. by destruct path. }
    rewrite Hcreate.
    assert (Hcr : ∀ A (x y : A),
              match OS.fs w2 !! OS.resolve filePath with
              | Some OS.Dir => x | _ => y end = y).
    { intros A x y. change (OS.fs w2) with (OS.fs w).
      by destruct (OS.fs w !! OS.resolve filePath) as [[|]|]. }
    rewrite Hcr. unfold OS.io_Copy. cbn zeta. fold b.
    destruct (decide _); [|done].
    eexists. split; [done|]. cbn. rewrite lookup_insert_eq. split; [done|].
    subst fileName. unfold Strings.HasSuffix, jpg. rewrite !reverse_app.
    change (reverse (lit ".png")) with (lit "gnp.").
    change (reverse (lit ".jpg")) with (lit "gpj.").
    split; [by vm_compute|].
    change (lit "gnp.") with ("g"%char :: lit "np.").
    change (lit "gpj.") with ("g"%char :: "p"%char :: lit "j.").
    change (lit "np.") with ("n"%char :: lit "p.").
    cbn. by repeat (destruct (decide _); try done).
Qed.

(** ** The claims at concrete inputs *)

(** The size computation in exact arithmetic has a unit for every size
    from 1 up to, and not including, 1024^5, and none for the size 0. *)
Lemma exact_size_exponent_range (b : Z) :
  (1 <= b < 1024 ^ 5 → 0 <= Examples.exact_size_exponent b < 5)
  ∧ Examples.exact_size_exponent 0 < 0.
Proof.
  split; [|done]. intros Hb. unfold Examples.exact_size_exponent.
  destruct (decide (b <= 0)); [lia|].
  assert (0 <= Z.log2 b < 50).
  { split; [apply Z.log2_nonneg|]. apply Z.log2_lt_pow2; lia. }
  split; [apply Z.div_pos; lia|]. apply Z.div_lt_upper_bound; lia.
Qed.

Lemma C1_extension_fallback_witness :
  Strings.Contains Examples.legacy_stem jpg = false
  ∧ Forall (fun c => Regexp.is_digit c = true) Examples.legacy_digits
  ∧ Legacy.dispatch (Legacy.findImages Examples.page_legacy) 0 =
      OS.Ok ([{| Legacy.job_url := Examples.legacy_stem ++ jpg;
                 Legacy.job_fileName := Examples.legacy_digits ++ jpg |}], 1)
  ∧ ∃ w', Legacy.downloadFile (Examples.env_of Examples.net_png_only) true
            (Examples.legacy_stem ++ jpg) (Examples.legacy_digits ++ jpg)
            Examples.dir_123 Examples.world0 =
          (OS.Ok (Legacy.Downloaded (Examples.legacy_digits ++ lit ".png") 9), w').
Proof.
  assert (H1 : Strings.Contains Examples.legacy_stem jpg = false) by (vm_compute; reflexivity).
  assert (H2 : Forall (fun c => Regexp.is_digit c = true) Examples.legacy_digits).
  { apply Forall_forall. intros c Hc. apply (bool_decide_unpack _).
    revert c Hc. apply Forall_forall. repeat constructor. }
  split; [exact H1|]. split; [exact H2|]. split; [vm_compute; reflexivity|].
  destruct (C1_extension_fallback (Examples.env_of Examples.net_png_only) true
              Examples.legacy_stem Examples.legacy_digits Examples.dir_123
              Examples.world0 H1 H2) as [_ H].
  destruct (H {| OS.StatusCode := 404; OS.Body := []; OS.BodyErr := false |}
              {| OS.StatusCode := 200; OS.Body := lit "png bytes"; OS.BodyErr := false |})
    as (w' & Hd & _).
  - vm_compute; reflexivity.
  - reflexivity.
  - vm_compute; reflexivity.
  - reflexivity.
  - left. vm_compute; reflexivity.
  - reflexivity.
  - vm_compute. discriminate.
  - change (0 <= 0 < 5). lia.
  - exists w'. exact Hd.
Defined.

Lemma C2_retry_budget_witness :
  0 < Current.RetryAttempts Current.GlobalConfig
  ∧ Current.fileExists (Examples.env_of Examples.net_gone)
      (Filepath.Join Examples.dir_123 (lit "1.jpg")) Examples.world0 = OS.Ok false
  ∧ Current.downloadFile (Examples.env_of Examples.net_gone) Current.GlobalConfig
      (lit "https://i.4cdn.org/w/1.jpg") (lit "1.jpg") Examples.dir_123 Examples.world0 =
      (OS.Ok (Current.Failed Current.NonSuccessStatus),
       {| OS.fs := ∅; OS.clock := 10;
          OS.log := attempts Current.GlobalConfig (lit "https://i.4cdn.org/w/1.jpg") 10 ++
                    [OS.EvPrint (OS.MsgFailed (lit "1.jpg"))] |})
  ∧ fst (Current.downloadFile (Examples.env_of Examples.net_down) Current.GlobalConfig
           (lit "https://i.4cdn.org/w/1.jpg") (lit "1.jpg") Examples.dir_123
           Examples.world0) = OS.Panic.
Proof.
  assert (H1 : 0 < Current.RetryAttempts Current.GlobalConfig) by (vm_compute; reflexivity).
  split; [exact H1|]. split; [vm_compute; reflexivity|]. split.
  - refine (proj1 (C2_retry_budget (Examples.env_of Examples.net_gone) Current.GlobalConfig
              (lit "https://i.4cdn.org/w/1.jpg") (lit "1.jpg") Examples.dir_123
              Examples.world0 H1 _) _).
    + vm_compute; reflexivity.
    + intros i _. eexists. split; [reflexivity|]. left. reflexivity.
  - refine (proj1 (proj2 (C2_retry_budget (Examples.env_of Examples.net_down)
              Current.GlobalConfig (lit "https://i.4cdn.org/w/1.jpg") (lit "1.jpg")
              Examples.dir_123 Examples.world0 H1 _)) _).
    + vm_compute; reflexivity.
    + intros i _. reflexivity.
Defined.

Lemma C3_existing_files_are_skipped_witness :
  Examples.first_cycle = (OS.Ok Examples.first_report, Examples.after_first_cycle)
  ∧ Forall (fun jo => skipped_or_downloaded (snd jo))
      (Current.outcomes Examples.first_report)
  ∧ ∃ rep2 w2 msgs,
      Current.cycle (Examples.env_of Examples.net_three) Current.GlobalConfig
        Examples.thread_url (lit "4chan") Examples.dir_123
        (Current.files_after Examples.first_report) Examples.after_first_cycle =
        (OS.Ok rep2, w2)
      ∧ Current.outcomes rep2 =
          (fun jo => (fst jo, Current.SkippedExisting)) <$>
            Current.outcomes Examples.first_report
      ∧ OS.fs w2 = OS.fs Examples.after_first_cycle
      ∧ OS.log w2 = OS.log Examples.after_first_cycle ++
                    OS.EvGet Examples.thread_url :: (OS.EvPrint <$> msgs).
Proof.
  assert (H1 : Examples.first_cycle =
               (OS.Ok Examples.first_report, Examples.after_first_cycle))
    by (vm_compute; reflexivity).
  assert (H2 : Forall (fun jo => skipped_or_downloaded (snd jo))
                 (Current.outcomes Examples.first_report)).
  { vm_compute. repeat constructor; right; reflexivity. }
  split; [exact H1|]. split; [exact H2|].
  refine (proj1 (proj2 (C3_existing_files_are_skipped (Examples.env_of Examples.net_three)
            Current.GlobalConfig)) Examples.thread_url (lit "4chan") Examples.dir_123 0
            Examples.world0 Examples.first_report Examples.after_first_cycle _ H1 H2 _).
  - discriminate.
  - reflexivity.
Defined.

(** C4 does not hold as stated: the only link of the page is skipped,
    its file being there, and the counter is 1 all the same. *)
Lemma C4_counterexample :
  ¬ (∀ (e : OS.env) (cfg : Current.Config) (inputUrl siteID pathResult : gostring)
       (files : Z) (w w' : OS.world) (rep : Current.cycle_report),
       Current.cycle e cfg inputUrl siteID pathResult files w = (OS.Ok rep, w') →
       Current.files_after rep =
         files + Z.of_nat (length (filter (fun jo => is_downloaded (snd jo) = true)
                                     (Current.outcomes rep)))).
Proof.
  intros H.
  destruct (Current.cycle (Examples.env_of Examples.net_one) Current.GlobalConfig
              Examples.thread_url (lit "4chan") Examples.dir_123 0
              Examples.world_with_file) as [[rep|] w'] eqn:Hc.
  - specialize (H _ _ _ _ _ _ _ _ _ Hc).
    vm_compute in Hc. inversion Hc; subst rep. vm_compute in H. discriminate H.
  - vm_compute in Hc. discriminate Hc.
Qed.

Lemma C4_files_counts_dispatched_links_witness :
  fair (Examples.env_of Examples.net_one)
  ∧ is_int 0
  ∧ ∃ rep w',
      Current.cycle (Examples.env_of Examples.net_one) Current.GlobalConfig
        Examples.thread_url (lit "4chan") Examples.dir_123 0 Examples.world_with_file =
        (OS.Ok rep, w')
      ∧ snd <$> Current.outcomes rep = [Current.SkippedExisting]
      ∧ Current.files_after rep =
          OS.wrap_int (0 + Z.of_nat (length (Current.outcomes rep)))
      ∧ Current.files_after rep = 1.
Proof.
  assert (H1 : fair (Examples.env_of Examples.net_one)) by (intros A l; reflexivity).
  assert (H2 : is_int 0) by (unfold is_int; lia).
  split; [exact H1|]. split; [exact H2|].
  destruct (Current.cycle (Examples.env_of Examples.net_one) Current.GlobalConfig
              Examples.thread_url (lit "4chan") Examples.dir_123 0
              Examples.world_with_file) as [[rep|] w'] eqn:Hc.
  - exists rep, w'. split; [reflexivity|].
    pose proof (C4_files_counts_dispatched_links _ _ _ _ _ _ _ _ _ H1 H2 Hc) as [Hf _].
    vm_compute in Hc. inversion Hc; subst rep.
    split; [reflexivity|]. split; [exact Hf|reflexivity].
  - vm_compute in Hc. discriminate Hc.
Defined.

Lemma C5_page_fetch_error_witness :
  OS.http_get (Examples.env_of Examples.net_down) 0 Examples.thread_url = OS.GetFail None
  ∧ Current.main_loop 1 (Examples.env_of Examples.net_down) Current.GlobalConfig
      Examples.thread_url (lit "4chan") Examples.dir_123 (lit "123") true 5 0
      Examples.world0 =
    (Current.Crashed,
     {| OS.fs := ∅; OS.clock := 1; OS.log := [OS.EvGet Examples.thread_url] |})
  ∧ Current.cycle (Examples.env_of Examples.net_redirects) Current.GlobalConfig
      Examples.thread_url (lit "4chan") Examples.dir_123 0 Examples.world0 =
    (OS.Ok {| Current.files_after := 0; Current.outcomes := [] |},
     {| OS.fs := ∅; OS.clock := 1; OS.log := [OS.EvGet Examples.thread_url] |}).
Proof.
  split; [reflexivity|]. split.
  - exact (proj1 (C5_page_fetch_error (Examples.env_of Examples.net_down)
             Current.GlobalConfig Examples.thread_url (lit "4chan") Examples.dir_123
             (lit "123") true 5 0 Examples.world0 0) eq_refl).
  - refine (proj2 (C5_page_fetch_error (Examples.env_of Examples.net_redirects)
             Current.GlobalConfig Examples.thread_url (lit "4chan") Examples.dir_123
             (lit "123") true 5 0 Examples.world0 0) _ eq_refl _ _).
    + eexists. apply siteInfoMap_4chan.
    + intros A l. reflexivity.
Defined.

Lemma C6_link_extractor_witness :
  Current.siteInfoMap !! lit "4chan" = Some (Current.siteInfo_at (lit "4chan"))
  ∧ fst (Current.findImages Examples.page_4chan (lit "4chan")) =
      [lit "https://i.4cdn.org/a/1.jpg"; lit "https://i.4cdn.org/b/1.jpg";
       lit "https://i.4cdn.org/a/2.png"]
  ∧ NoDup (fst (Current.findImages Examples.page_4chan (lit "4chan")))
  ∧ Forall absolute (fst (Current.findImages Examples.page_4chan (lit "4chan"))).
Proof.
  assert (H1 : Current.siteInfoMap !! lit "4chan" =
               Some (Current.siteInfo_at (lit "4chan"))) by (vm_compute; reflexivity).
  split; [exact H1|]. split; [vm_compute; reflexivity|].
  pose proof (C6_link_extractor Examples.page_4chan (lit "4chan") _ H1)
    as (_ & Hnd & _ & Habs & _).
  split; [exact Hnd|exact Habs].
Defined.


Lemma C8_one_pass_or_countdown_witness :
  Examples.first_cycle = (OS.Ok Examples.first_report, Examples.after_first_cycle)
  ∧ fst (Current.main_loop 1 (Examples.env_of Examples.net_three) Current.GlobalConfig
           Examples.thread_url (lit "4chan") Examples.dir_123 (lit "123") false 5 0
           Examples.world0) = Current.Finished 3
  ∧ 0 <= 5
  ∧ Current.countdown 5 =
      [5; 4; 3; 2; 1; 0] ≫= countdown_line
  ∧ ∀ r w',
      Current.main_loop 2 (Examples.env_of Examples.net_three) Current.GlobalConfig
        Examples.thread_url (lit "4chan") Examples.dir_123 (lit "123") true 5 0
        Examples.world0 = (r, w') →
      (OS.log Examples.after_first_cycle ++ Current.countdown 5 ++
       [OS.EvGet Examples.thread_url]) `prefix_of` OS.log w'.
Proof.
  assert (H1 : Examples.first_cycle =
               (OS.Ok Examples.first_report, Examples.after_first_cycle))
    by (vm_compute; reflexivity).
  pose proof (C8_one_pass_or_countdown (Examples.env_of Examples.net_three)
                Current.GlobalConfig Examples.thread_url (lit "4chan") Examples.dir_123
                (lit "123") 5 0 Examples.world0 Examples.after_first_cycle
                Examples.first_report 0 H1) as [[Hoff _] Hon].
  assert (H5 : 0 <= 5) by lia.
  destruct (Hon H5) as (Hcd & _ & _ & _ & Hnext).
  split; [exact H1|]. split; [rewrite Hoff; reflexivity|]. split; [exact H5|].
  split; [exact Hcd|exact Hnext].
Defined.

(** C9 does not hold as stated: two links of one page that differ in
    their directory only are given the same file name; and in the previous
    program two distinct links of a board whose name is a digit are both
    named after the board. *)
Lemma C9_counterexample :
  ¬ (∀ (html siteID : gostring) (jobs : list Current.job) (files' : Z),
       Current.dispatch (fst (Current.findImages html siteID)) 0 = OS.Ok (jobs, files') →
       NoDup (Current.job_fileName <$> jobs))
  ∧ ¬ (∀ (html : gostring) (jobs : list Legacy.job) (files' : Z),
         Legacy.dispatch (Legacy.findImages html) 0 = OS.Ok (jobs, files') →
         NoDup (Legacy.job_url <$> jobs) →
         NoDup (Legacy.job_fileName <$> jobs)).
Proof.
  split; intros H.
  - destruct (Current.dispatch (fst (Current.findImages Examples.page_4chan (lit "4chan"))) 0)
      as [[jobs files']|] eqn:Hd.
    + pose proof (H _ _ _ _ Hd) as Hnd.
      vm_compute in Hd. inversion Hd; subst jobs. clear -Hnd.
      apply NoDup_cons in Hnd as [Hnotin _]. apply Hnotin. left.
    + vm_compute in Hd. discriminate Hd.
  - destruct (Legacy.dispatch (Legacy.findImages Examples.page_legacy_board3) 0)
      as [[jobs files']|] eqn:Hd.
    + pose proof (H _ _ _ Hd) as Hnd.
      vm_compute in Hd. inversion Hd; subst jobs. clear -Hnd.
      assert (Hurls : NoDup (Legacy.job_url <$>
                [{| Legacy.job_url := lit "http://i.4cdn.org/3/1700000000123.jpg";
                    Legacy.job_fileName := lit "3.jpg" |};
                 {| Legacy.job_url := lit "http://i.4cdn.org/3/1700000000456.jpg";
                    Legacy.job_fileName := lit "3.jpg" |}])).
      { apply (bool_decide_unpack _). vm_compute. exact I. }
      specialize (Hnd Hurls).
      apply NoDup_cons in Hnd as [Hnotin _]. apply Hnotin. left.
    + vm_compute in Hd. discriminate Hd.
Qed.

Lemma C9_distinct_names_in_one_directory_witness :
  Forall (in_dir (lit "https://i.4cdn.org/w"))
    (fst (Current.findImages Examples.page_three (lit "4chan")))
  ∧ NoDup (fst (Current.findImages Examples.page_three (lit "4chan")))
  ∧ ∃ jobs files',
      Current.dispatch (fst (Current.findImages Examples.page_three (lit "4chan"))) 0 =
        OS.Ok (jobs, files')
      ∧ Current.job_url <$> jobs = fst (Current.findImages Examples.page_three (lit "4chan"))
      ∧ NoDup (Current.job_fileName <$> jobs).
Proof.
  assert (H1 : Forall (in_dir (lit "https://i.4cdn.org/w"))
                 (fst (Current.findImages Examples.page_three (lit "4chan")))).
  { change (fst (Current.findImages Examples.page_three (lit "4chan")))
      with [lit "https://i.4cdn.org/w" ++ lit "/" ++ lit "1.jpg";
            lit "https://i.4cdn.org/w" ++ lit "/" ++ lit "2.png";
            lit "https://i.4cdn.org/w" ++ lit "/" ++ lit "3.gif"].
    repeat constructor; eexists; (split; [reflexivity|]);
      apply (bool_decide_unpack _); vm_compute; exact I. }
  assert (H2 : NoDup (fst (Current.findImages Examples.page_three (lit "4chan")))).
  { apply (bool_decide_unpack _). vm_compute. exact I. }
  split; [exact H1|]. split; [exact H2|].
  exact (C9_distinct_names_in_one_directory _ _ 0 H1 H2).
Defined.

(** * More properties of the code *)

(** ** The retry loop and the worker of the current program *)
Section Retries.
Import Strings Regexp OS Current.
Variables (e : env) (cfg : Config).

Lemma retries_S url w k :
  retries e cfg url w (S k) =
  retry_events cfg url (http_get e (clock w) url) ++
  retries e cfg url
    {| fs := fs w; clock := S (clock w); log := [] |} k.
Proof.
  unfold retries. cbn [seq]. rewrite bind_cons, Nat.add_0_r. f_equal. cbn [clock].
  generalize 0%nat. induction k as [|k IH]; intros a; [done|].
  cbn [seq]. rewrite !bind_cons, IH. do 3 f_equal. lia.
Qed.

Lemma retries_clock url w w' k :
  clock w = clock w' → retries e cfg url w k = retries e cfg url w' k.
Proof. unfold retries. by intros ->. Qed.

(** The loop up to the first attempt that is not retried. *)
Lemma retry_loop_settles url n k resp rp w :
  (k < n)%nat →
  (∀ i, (i < k)%nat → retried (http_get e (clock w + i) url)) →
  http_get e (clock w + k) url = GetResp rp →
  StatusCode rp ≠ 404 → StatusCode rp ≠ 429 →
  retry_loop e cfg url n resp w =
    (Some rp,
     {| fs := fs w; clock := clock w + S k;
        log := log w ++ retries e cfg url w k ++ [EvGet url] |}).
Proof.
  revert n resp w. induction k as [|k IH]; intros n resp w Hk Hbefore Hat H404 H429.
  - destruct n as [|n]; [lia|]. cbn [retry_loop http_Get].
    rewrite Nat.add_0_r in Hat. rewrite Hat.
    destruct (decide _) as [_|Hn]; [|tauto].
    do 2 f_equal. lia.
  - destruct n as [|n]; [lia|]. cbn [retry_loop http_Get].
    pose proof (Hbefore 0%nat ltac:(lia)) as H0. rewrite Nat.add_0_r in H0.
    rewrite retries_S.
    set (w1 := {| fs := fs w; clock := S (clock w); log := [] |}).
    destruct (http_get e (clock w) url) as [rp0|rp0] eqn:Hg; cbn [retried] in H0.
    + destruct (decide _) as [[? ?]|_]; [lia|].
      rewrite (IH n _ _ ltac:(lia)); cbn [clock fs log emit].
      * f_equal. f_equal; [lia|]. cbn [retry_events].
        rewrite (retries_clock url _ w1); [|done]. by rewrite <- !app_assoc.
      * intros i Hi. replace (S (clock w) + i)%nat with (clock w + S i)%nat by lia.
        apply Hbefore. lia.
      * by replace (S (clock w) + k)%nat with (clock w + S k)%nat by lia.
      * done.
      * done.
    + rewrite (IH n _ _ ltac:(lia)); cbn [clock fs log emit].
      * f_equal. f_equal; [lia|]. cbn [retry_events].
        rewrite (retries_clock url _ w1); [|done]. by rewrite <- !app_assoc.
      * intros i Hi. replace (S (clock w) + i)%nat with (clock w + S i)%nat by lia.
        apply Hbefore. lia.
      * by replace (S (clock w) + k)%nat with (clock w + S k)%nat by lia.
      * done.
      * done.
Qed.


End Retries.


(** X2: a status other than 200, 404 and 429 ends the worker at the
    attempt that gets it: no further request, no delay after it, no file
    created, the file system as it was. *)
Theorem downloadFile_fails_on_terminal_status (e : OS.env) (cfg : Current.Config)
  (url fileName path : gostring) (w : OS.world) (k : nat) (rp : OS.response) :
  Current.fileExists e (Filepath.Join path fileName) w = OS.Ok false →
  (k < Z.to_nat (Current.RetryAttempts cfg))%nat →
  (∀ i, (i < k)%nat → retried (OS.http_get e (OS.clock w + i) url)) →
  OS.http_get e (OS.clock w + k) url = OS.GetResp rp →
  OS.StatusCode rp ≠ 200 → OS.StatusCode rp ≠ 404 → OS.StatusCode rp ≠ 429 →
  Current.downloadFile e cfg url fileName path w =
    (OS.Ok (Current.Failed Current.NonSuccessStatus),
     {| OS.fs := OS.fs w;
        OS.clock := OS.clock w + S k;
        OS.log := OS.log w ++ retries e cfg url w k ++
                  [OS.EvGet url; OS.EvPrint (OS.MsgFailed fileName)] |}).
Proof.
  intros Hpre Hk Hbefore Hat H200 H404 H429.
  unfold Current.downloadFile. rewrite Hpre.
  rewrite (retry_loop_settles e cfg url _ k None rp w Hk Hbefore Hat H404 H429).
  destruct (decide _) as [_|]; [|done].
  f_equal. unfold OS.emit. cbn [OS.fs OS.clock OS.log]. f_equal.
  by rewrite <- !app_assoc.
Qed.

(** X3: with a retry budget of zero or less the worker of an absent
    file makes no request and panics on the nil response. *)
Theorem downloadFile_without_budget_panics (e : OS.env) (cfg : Current.Config)
  (url fileName path : gostring) (w : OS.world) :
  Current.RetryAttempts cfg <= 0 →
  Current.fileExists e (Filepath.Join path fileName) w = OS.Ok false →
  Current.downloadFile e cfg url fileName path w = (OS.Panic, w).
Proof.
  intros Hn Hpre. unfold Current.downloadFile. rewrite Hpre.
  by replace (Z.to_nat (Current.RetryAttempts cfg)) with 0%nat by lia.
Qed.

Section RequestBound.
Import Strings Regexp OS Current.
Variables (e : env) (cfg : Config).

Lemma requests_within_refl url n w : requests_within url n w w.
Proof.
  exists []. rewrite app_nil_r. cbn. repeat split; try lia.
  intros u Hu. by apply elem_of_nil in Hu.
Qed.

Lemma requests_within_quiet url n w w' evs :
  requests_within url n w w' →
  Forall (fun ev => is_get ev = false ∧ is_sleep ev = false) evs →
  requests_within url n w {| fs := fs w'; clock := clock w'; log := log w' ++ evs |}.
Proof.
  intros (evs0 & Hl & Hc & Hn & Hs & Hu) Hq. exists (evs0 ++ evs).
  assert (Hg : filter (fun ev => is_get ev = true) evs = []
             ∧ filter (fun ev => is_sleep ev = true) evs = []).
  { clear -Hq. induction Hq as [|ev evs [H1 H2] _ [IH1 IH2]]; [done|].
    rewrite !filter_cons. split.
    - destruct (decide _); [congruence|done].
    - destruct (decide _); [congruence|done]. }
  destruct Hg as [Hg Hsl].
  cbn. rewrite Hl, !filter_app, Hg, Hsl, !app_nil_r, <- app_assoc.
  repeat split; try done.
  intros u [Hin|Hin]%elem_of_app; [by apply Hu|].
  rewrite Forall_forall in Hq. by destruct (Hq _ Hin).
Qed.

Lemma requests_within_retry_loop url n resp w :
  requests_within url n w (snd (retry_loop e cfg url n resp w))
  ∧ fs (snd (retry_loop e cfg url n resp w)) = fs w.
Proof.
  split; [|apply retry_loop_fs].
  revert resp w. induction n as [|n IH]; intros resp w; cbn [retry_loop http_Get];
    [apply requests_within_refl|].
  assert (Hstep : ∀ resp' w1 pre,
    log w1 = log w ++ EvGet url :: pre → clock w1 = S (clock w) →
    filter (fun ev => is_get ev = true) pre = [] →
    (length (filter (fun ev => is_sleep ev = true) pre) <= 1)%nat →
    (∀ u, EvGet u ∈ pre → u = url) →
    requests_within url (S n) w (snd (retry_loop e cfg url n resp' w1))).
  { intros resp' w1 pre Hl Hc Hg Hs Hu.
    destruct (IH resp' w1) as (evs & Hl' & Hc' & Hn' & Hs' & Hu').
    exists (EvGet url :: pre ++ evs).
    rewrite Hl', Hl, <- app_assoc. cbn [app].
    rewrite filter_cons. cbn [is_get]. destruct (decide (true = true)); [|done].
    rewrite (filter_cons (fun ev => is_sleep ev = true)). cbn [is_sleep].
    destruct (decide (false = true)); [done|].
    rewrite !filter_app, Hg, !length_app, app_nil_l. cbn [length].
    repeat split; try lia.
    intros u [[= ->]|[Hin|Hin]%elem_of_app]%elem_of_cons; eauto. }
  destruct (http_get e (clock w) url) as [rp|rp'].
  - destruct (decide _).
    + exists [EvGet url]. cbn [snd log clock].
      rewrite !filter_cons, !filter_nil. cbn [is_get is_sleep].
      destruct (decide (true = true)); [|done].
      destruct (decide (false = true)); [done|]. cbn [length].
      repeat split; try lia.
      intros u [[= ->]|Hin%elem_of_nil]%elem_of_cons; done.
    + apply (Hstep _ _ [EvSleep (SleepBetweenAttempts cfg)]);
        [cbn; by rewrite <- app_assoc|done|done| |].
      * rewrite !filter_cons, !filter_nil. cbn [is_sleep].
        destruct (decide (true = true)); cbn [length]; lia.
      * intros u [[=]|Hin%elem_of_nil]%elem_of_cons; done.
  - apply (Hstep _ _ [EvPrint MsgGetError; EvSleep (SleepBetweenAttempts cfg)]);
      [cbn; by rewrite <- !app_assoc|done|done| |].
    + rewrite !filter_cons, !filter_nil. cbn [is_sleep].
      destruct (decide (true = true)); destruct (decide (false = true));
        cbn [length]; try done; lia.
    + intros u [[=]|[[=]|Hin%elem_of_nil]%elem_of_cons]%elem_of_cons; done.
Qed.

End RequestBound.

(** X4: whatever the network and the file system do, a call of the
    worker requests no other link than its own, no more than
    [RetryAttempts] times, and sleeps at most once for every request. *)
Theorem downloadFile_requests_within_budget (e : OS.env) (cfg : Current.Config)
  (url fileName path : gostring) (w : OS.world) :
  requests_within url (Z.to_nat (Current.RetryAttempts cfg)) w
    (snd (Current.downloadFile e cfg url fileName path w)).
Proof.
  unfold Current.downloadFile.
  destruct (Current.fileExists _ _ _) as [[|]|]; try apply requests_within_refl.
  destruct (requests_within_retry_loop e cfg url (Z.to_nat (Current.RetryAttempts cfg))
              None w) as [Hr Hfs].
  destruct (Current.retry_loop _ _ _ _ _ _) as [[rp|] w1]; cbn [snd] in *; [|done].
  assert (Hdone : ∀ w2 evs,
    OS.clock w2 = OS.clock w1 → OS.log w2 = OS.log w1 ++ evs →
    Forall (fun ev => is_get ev = false ∧ is_sleep ev = false) evs →
    requests_within url (Z.to_nat (Current.RetryAttempts cfg)) w w2).
  { intros w2 evs Hc Hl Hq.
    destruct (requests_within_quiet _ _ _ _ evs Hr Hq) as (evs0 & H1 & H2 & H3).
    exists evs0. cbn in H1, H2. by rewrite Hc, Hl. }
  destruct (decide _).
  { eapply Hdone; [done|done|]. by repeat constructor. }
  destruct (_ || _); [|done].
  unfold OS.os_Create, OS.io_Copy.
  destruct (decide _).
  { eapply Hdone; [done|cbn; by rewrite <- ?app_assoc|]. by repeat constructor. }
  destruct (OS.create_fails _ _).
  { eapply Hdone; [done|cbn; by rewrite <- ?app_assoc|]. by repeat constructor. }
  destruct (OS.fs w1 !! _) as [[|]|]; cbn [negb].
  - destruct (_ || _); [|destruct (decide _)];
      (eapply Hdone; [done|cbn; by rewrite <- ?app_assoc|by repeat constructor]).
  - eapply Hdone; [done|cbn; by rewrite <- ?app_assoc|]. by repeat constructor.
  - destruct (_ || _); [|destruct (decide _)];
      (eapply Hdone; [done|cbn; by rewrite <- ?app_assoc|by repeat constructor]).
Qed.

(** X5: a call of the worker leaves every file but its destination as
    it is, and a directory at its destination stays a directory. *)
Theorem downloadFile_touches_only_its_destination (e : OS.env) (cfg : Current.Config)
  (url fileName path : gostring) (w : OS.world) :
  let dest := OS.resolve (path ++ lit "/" ++ fileName) in
  let w' := snd (Current.downloadFile e cfg url fileName path w) in
  (∀ k, k ≠ dest → OS.fs w' !! k = OS.fs w !! k)
  ∧ (OS.fs w !! dest = Some OS.Dir → OS.fs w' !! dest = Some OS.Dir).
Proof.
  intros dest w'. subst w'.
  destruct (Current.downloadFile e cfg url fileName path w) as [r w'] eqn:Hd.
  cbn [snd]. unfold Current.downloadFile in Hd.
  destruct (Current.fileExists _ _ _) as [[|]|]; try by inversion Hd; subst.
  pose proof (retry_loop_fs e cfg url (Z.to_nat (Current.RetryAttempts cfg)) None w) as Hfs.
  destruct (Current.retry_loop _ _ _ _ _ _) as [[rp|] w1]; cbn [snd] in Hfs;
    [|by inversion Hd; subst; rewrite Hfs].
  destruct (decide _); [by inversion Hd; subst; cbn; rewrite Hfs|].
  unfold Current.monitorMode in Hd. rewrite orb_true_r in Hd.
  unfold OS.os_Create in Hd. fold dest in Hd.
  destruct (decide _); [by inversion Hd; subst; cbn; rewrite Hfs|].
  destruct (OS.create_fails _ _); [by inversion Hd; subst; cbn; rewrite Hfs|].
  assert (Hwritten : ∀ m : gostring,
    (∀ k, k ≠ dest →
       (<[dest := OS.File m]> (<[dest := OS.File []]> (OS.fs w1))) !! k = OS.fs w !! k)).
  { intros m k Hk. rewrite !lookup_insert_ne by done. by rewrite Hfs. }
  destruct (OS.fs w1 !! dest) as [[c|]|] eqn:Hlook; rewrite Hfs in Hlook.
  - unfold OS.io_Copy in Hd. cbn zeta in Hd. fold dest in Hd. cbn [negb] in Hd.
    destruct (_ || _); [|destruct (decide _)]; inversion Hd; subst; cbn;
      (split; [apply Hwritten|by rewrite Hlook]).
  - inversion Hd; subst. cbn. by rewrite Hfs.
  - unfold OS.io_Copy in Hd. cbn zeta in Hd. fold dest in Hd. cbn [negb] in Hd.
    destruct (_ || _); [|destruct (decide _)]; inversion Hd; subst; cbn;
      (split; [apply Hwritten|by rewrite Hlook]).
Qed.

(** X6: a download that is cut while the body is copied leaves what
    was written as the destination file, and every later call for this
    file name skips it as existing, without a request. *)
Theorem downloadFile_cut_copy_is_skipped_later (e : OS.env) (cfg : Current.Config)
  (url fileName path : gostring) (w w' : OS.world) :
  path ≠ [] →
  Current.downloadFile e cfg url fileName path w =
    (OS.Ok (Current.Failed Current.CopyError), w') →
  is_file w' (OS.resolve (path ++ lit "/" ++ fileName))
  ∧ ∀ w'' url', files_kept w' w'' →
      Current.downloadFile e cfg url' fileName path w'' =
        (OS.Ok Current.SkippedExisting, w'').
Proof.
  intros Hp Hd.
  assert (Hne : Filepath.Join path fileName ≠ []).
  { unfold Filepath.Join. destruct (decide _); [done|]. apply Clean_nonempty. }
  assert (Hfile : is_file w' (OS.resolve (path ++ lit "/" ++ fileName))
                  ∧ OS.stat_fails e (OS.resolve (Filepath.Join path fileName)) = false).
  { unfold Current.downloadFile in Hd.
    destruct (Current.fileExists e _ w) as [[|]|] eqn:Hpre; try done.
    apply fileExists_no_panic in Hpre; [|done]. split; [|done].
    destruct (Current.retry_loop _ _ _ _ _ _) as [[rp|] w1]; [|done].
    destruct (decide _); [done|].
    destruct (_ || _); [|done].
    destruct (OS.os_Create _ _ _) as [[|] w2]; cbn [negb] in Hd; [|done].
    unfold OS.io_Copy in Hd. cbn zeta in Hd.
    destruct (_ || _); [|by destruct (decide _)].
    inversion Hd; subst w'. eexists. cbn. by rewrite lookup_insert_eq. }
  destruct Hfile as [Hfile Hstat]. split; [done|].
  intros w'' url' Hk. apply downloadFile_skip, fileExists_true.
  split; [done|]. split; [done|]. rewrite resolve_Join by done. by apply Hk.
Qed.

(** X7: a directory at the destination is neither skipped as existing
    nor written over: the worker goes through its requests and returns
    without a download, the file system as it was. *)
Theorem downloadFile_directory_in_the_way (e : OS.env) (cfg : Current.Config)
  (url fileName path : gostring) (w w' : OS.world) (r : OS.result Current.outcome) :
  path ≠ [] →
  OS.fs w !! OS.resolve (path ++ lit "/" ++ fileName) = Some OS.Dir →
  Current.downloadFile e cfg url fileName path w = (r, w') →
  OS.fs w' = OS.fs w
  ∧ r ≠ OS.Ok Current.SkippedExisting
  ∧ (∀ f b, r ≠ OS.Ok (Current.Downloaded f b))
  ∧ (OS.stat_fails e (OS.resolve (path ++ lit "/" ++ fileName)) = false →
     Current.fileExists e (Filepath.Join path fileName) w = OS.Ok false).
Proof.
  intros Hp Hdir Hd.
  assert (Hne : Filepath.Join path fileName ≠ []).
  { unfold Filepath.Join. destruct (decide _); [done|]. apply Clean_nonempty. }
  assert (Hpre : Current.fileExists e (Filepath.Join path fileName) w = OS.Panic
               ∨ Current.fileExists e (Filepath.Join path fileName) w = OS.Ok false).
  { unfold Current.fileExists, OS.os_Stat. destruct (decide _); [done|].
    rewrite resolve_Join by done. rewrite Hdir.
    destruct (OS.stat_fails _ _); auto. }
  split; [|split; [|split]].
  4:{ intros Hs. unfold Current.fileExists, OS.os_Stat. destruct (decide _); [done|].
      rewrite resolve_Join by done. by rewrite Hs, Hdir. }
  all: unfold Current.downloadFile in Hd;
    destruct Hpre as [Hpre|Hpre]; rewrite Hpre in Hd; [by inversion Hd|];
    pose proof (retry_loop_fs e cfg url (Z.to_nat (Current.RetryAttempts cfg)) None w)
      as Hfs;
    destruct (Current.retry_loop _ _ _ _ _ _) as [[rp|] w1]; cbn [snd] in Hfs;
      [|by inversion Hd; subst];
    destruct (decide _); [by inversion Hd; subst|];
    unfold Current.monitorMode in Hd; rewrite orb_true_r in Hd;
    unfold OS.os_Create in Hd;
    destruct (decide _); [by inversion Hd; subst|];
    destruct (OS.create_fails _ _); [by inversion Hd; subst|];
    rewrite Hfs, Hdir in Hd; by inversion Hd; subst.
Qed.


(** ** [main] of the current program *)

(** X8: [main] takes the board and the thread from the input link split
    at "/": a link with too few elements (six are needed for the first
    site, five for the other) makes it panic before anything is requested
    or created; with enough elements both directories are made and the
    loop starts with a counter of 0. *)
Theorem main_needs_board_and_thread (fuel : nat) (e : OS.env) (cfg : Current.Config)
  (inputUrl siteID actualPath : gostring) (monitor : bool) (secs : Z) (w : OS.world) :
  let parts := Strings.Split inputUrl (lit "/") in
  ((length parts <= threadIndex siteID)%nat →
   Current.main fuel e cfg inputUrl siteID actualPath monitor secs w =
     (Current.Crashed, w))
  ∧ (∀ board thread,
       parts !! 3%nat = Some board → parts !! threadIndex siteID = Some thread →
       let boardDir := actualPath ++ lit "/" ++ board in
       let pathResult := boardDir ++ lit "/" ++ thread in
       Current.main fuel e cfg inputUrl siteID actualPath monitor secs w =
         Current.main_loop fuel e cfg inputUrl siteID pathResult thread monitor secs 0
           (OS.emit (OS.EvPrint OS.MsgFolderCreated)
              (OS.os_MkdirAll e pathResult (OS.os_MkdirAll e boardDir w)))).
Proof.
  intros parts. unfold Current.main. fold parts. rewrite ID_4chan.
  assert (Hidx : ∀ i : nat, index parts (Z.of_nat i) = parts !! i).
  { intros i. unfold index. destruct (decide _); [|lia]. by rewrite Nat2Z.id. }
  assert (Hti : (if decide (siteID = lit "4chan") then 5 else 4)
                = Z.of_nat (threadIndex siteID)).
  { unfold threadIndex. by destruct (decide _). }
  rewrite Hti. change 3 with (Z.of_nat 3). rewrite !Hidx.
  split.
  - intros Hlen. destruct (parts !! 3%nat) as [board|] eqn:H3; [|done].
    rewrite (proj2 (lookup_ge_None parts (threadIndex siteID))); [done|lia].
  - intros board thread -> ->. done.
Qed.

(** X9: in monitor mode the loop is never left: whatever number of
    cycles is run, the process is then still running or has panicked. *)
Theorem monitoring_never_finishes (fuel : nat) (e : OS.env) (cfg : Current.Config)
  (inputUrl siteID pathResult thread : gostring) (secs files : Z) (w : OS.world) :
  ∀ n, fst (Current.main_loop fuel e cfg inputUrl siteID pathResult thread true secs
              files w) ≠ Current.Finished n.
Proof.
  revert files w. induction fuel as [|fuel IH]; intros files w n; cbn [Current.main_loop];
    [done|].
  destruct (Current.cycle _ _ _ _ _ _ _) as [[rep|] w1]; [|done].
  cbn [negb]. apply IH.
Qed.

(** X10: with a negative interval the countdown loop is not entered, and
    in monitor mode the next cycle follows the last one at once, without a
    line and without a sleep. *)
Theorem negative_interval_does_not_wait (fuel : nat) (e : OS.env) (cfg : Current.Config)
  (inputUrl siteID pathResult thread : gostring) (secs files : Z) (w w1 : OS.world)
  (rep : Current.cycle_report) :
  secs < 0 →
  Current.cycle e cfg inputUrl siteID pathResult files w = (OS.Ok rep, w1) →
  Current.countdown secs = []
  ∧ Current.main_loop (S fuel) e cfg inputUrl siteID pathResult thread true secs files w =
    Current.main_loop fuel e cfg inputUrl siteID pathResult thread true secs
      (Current.files_after rep) w1.
Proof.
  intros Hs Hc.
  assert (H0 : Current.countdown secs = []).
  { unfold Current.countdown. by replace (Z.to_nat (secs + 1)) with 0%nat by lia. }
  split; [done|]. cbn [Current.main_loop]. rewrite Hc, H0. cbn [negb].
  f_equal. unfold Current.emit_all. rewrite app_nil_r. by destruct w1.
Qed.

(** X11: for a site that is not in the table the extractor gives no
    link and prints its line, and the cycle ends with no worker started,
    the counter and the file system as they were. *)
Theorem cycle_of_an_unknown_site (e : OS.env) (cfg : Current.Config)
  (inputUrl siteID pathResult : gostring) (files : Z) (w : OS.world) (resp : OS.response) :
  Current.siteInfoMap !! siteID = None →
  fair e →
  Current.response_of (OS.http_get e (OS.clock w) inputUrl) = Some resp →
  (∀ html, Current.findImages html siteID = ([], [OS.MsgNoSite siteID]))
  ∧ Current.cycle e cfg inputUrl siteID pathResult files w =
      (OS.Ok {| Current.files_after := files; Current.outcomes := [] |},
       {| OS.fs := OS.fs w; OS.clock := S (OS.clock w);
          OS.log := OS.log w ++ [OS.EvGet inputUrl; OS.EvPrint (OS.MsgNoSite siteID)] |}).
Proof.
  intros Hsite Hfair Hresp.
  assert (Hf : ∀ html, Current.findImages html siteID = ([], [OS.MsgNoSite siteID])).
  { intros html. unfold Current.findImages. by rewrite Hsite. }
  split; [done|].
  unfold Current.cycle, Current.process_page. cbn [OS.http_Get]. rewrite Hresp, Hf.
  cbn [foldl Current.dispatch].
  rewrite (proj1 (Permutation_nil_r _) (Hfair Current.job [])).
  cbn [Current.run_workers]. unfold OS.emit. cbn [OS.fs OS.clock OS.log].
  by rewrite <- app_assoc.
Qed.

(** X12: [unique] gives a list without duplicates as it is, so applying
    it again changes nothing; it never makes a list longer and keeps the
    order of what it keeps. *)
Theorem unique_fixes_duplicate_free_lists (l : list gostring) :
  (NoDup l → Current.unique l = l)
  ∧ Current.unique (Current.unique l) = Current.unique l
  ∧ sublist (Current.unique l) l
  ∧ (length (Current.unique l) <= length l)%nat.
Proof.
  assert (Hfix : ∀ l0 : list gostring, NoDup l0 → dedup_first_seen l0 = l0).
  { induction 1 as [|x t Hx Ht IH]; [done|]. cbn. rewrite IH. f_equal.
    clear -Hx. induction t as [|y t IH]; [done|].
    rewrite filter_cons. destruct (decide (y ≠ x)) as [_|Hn].
    - f_equal. apply IH. set_solver.
    - exfalso. apply Hx. destruct (decide (y = x)) as [->|]; [left|done]. }
  assert (Hsub : ∀ l0 : list gostring, sublist (dedup_first_seen l0) l0).
  { induction l0 as [|x t IH]; [done|]. cbn. apply sublist_skip.
    etrans; [apply sublist_filter|done]. }
  rewrite !unique_dedup. split; [apply Hfix|].
  split; [apply Hfix, NoDup_dedup|]. split; [apply Hsub|].
  apply sublist_length, Hsub.
Qed.

(** ** The links and the file names of the current program *)
Section Links.
Import Strings Regexp OS Current.

Lemma not_char_spec x c : not_char x c = true ↔ c ≠ x.
Proof.
  unfold not_char. rewrite negb_true_iff, bool_decide_eq_false. done.
Qed.

Lemma re_4chan_capture whole cap' :
  denote re_4chan whole None cap' →
  ∃ rest, cap' = Some (lit "//i.4cdn.org" ++ rest) ∧ rest ≠ [] ∧ dquote ∉ rest.
Proof.
  unfold re_4chan. simpl.
  intros (m1 & m2 & c1 & _ & [_ ->] & m3 & m4 & c2 & _ & (_ & _ & ->) &
          m5 & m6 & c3 & _ & [_ ->] & m7 & m8 & c4 & _ & [Hg ->] & [_ ->]).
  destruct Hg as (c5 & g1 & g2 & c6 & -> & [-> _] & Hne & Hall & _).
  exists g2. split; [done|]. split; [done|].
  intros Hin. rewrite Forall_forall in Hall. specialize (Hall _ Hin).
  by apply not_char_spec in Hall.
Qed.

Lemma re_twochen_capture whole cap' :
  denote re_twochen whole None cap' →
  ∃ scheme host name ext,
    cap' = Some (scheme ++ lit "://" ++ host ++ lit "/assets/images/src/" ++
                 name ++ lit "." ++ ext)
    ∧ (scheme = lit "http" ∨ scheme = lit "https")
    ∧ host ≠ [] ∧ (sep_char ∉ host)
    ∧ name ≠ [] ∧ Forall (fun c => is_alnum c = true) name
    ∧ (ext = lit "png" ∨ ext = lit "jpg").
Proof.
  unfold re_twochen. simpl.
  intros [(c0 & m1 & m2 & c1 & -> & [-> _] & m3 & m4 & c2 & -> & Hopt &
           m5 & m6 & c3 & -> & [-> _] & m7 & m8 & c4 & -> & (Hhost & Hhall & _) &
           m9 & m10 & c5 & -> & [-> _] & m11 & m12 & c6 & -> & (Hname & Hnall & _) &
           m13 & m14 & c7 & -> & [-> _] & Hext) ->].
  exists (lit "http" ++ m3), m7, m11, m14.
  split; [by rewrite <- !app_assoc|].
  split; [destruct Hopt as [[-> _]|[-> _]]; [by right|by left]|].
  split; [done|]. split.
  { intros Hin. rewrite Forall_forall in Hhall. specialize (Hhall _ Hin).
    by apply not_char_spec in Hhall. }
  split; [done|]. split; [done|].
  destruct Hext as [[-> _]|[-> _]]; [by left|by right].
Qed.

Lemma findImages_from_matches html siteID si (P : gostring → Prop) :
  siteInfoMap !! siteID = Some si →
  (∀ whole cap', denote (ImgRE si) whole None cap' →
     P (link_of_match siteID (whole, default [] cap'))) →
  Forall P (fst (findImages html siteID)).
Proof.
  intros Hsi HP. unfold findImages. rewrite Hsi. cbn [fst].
  rewrite unique_dedup. apply Forall_forall. intros link Hin.
  rewrite elem_of_dedup in Hin. apply list_elem_of_fmap in Hin as ([whole g] & -> & Hin).
  pose proof (scan_sound (ImgRE si) 0 None html) as Hall.
  rewrite Forall_forall in Hall. destruct (Hall _ Hin) as (cap' & Hd & Hg).
  cbn [fst snd] in *. subst g. by apply HP.
Qed.

Lemma last_slash (s : gostring) :
  sep_char ∉ s ∨ ∃ d name, s = d ++ lit "/" ++ name ∧ sep_char ∉ name.
Proof.
  induction s as [|c s IH]; [left; set_solver|].
  destruct IH as [Hno|(d & name & -> & Hname)].
  - destruct (decide (c = sep_char)) as [->|Hc].
    + right. by exists [], s.
    + left. set_solver.
  - right. by exists (c :: d), name.
Qed.

End Links.

(** X13: every link the extractor gives for the first site is an https
    link on the image host, with a path that is not empty and has no double
    quote; every link it gives for the other site is an http or https link
    to a file with a png or jpg extension and an alphanumeric name in the
    directory of the image sources. *)
Theorem extracted_links_have_the_site_shape (html : gostring) :
  Forall (fun link => ∃ rest,
            link = lit "https://i.4cdn.org" ++ rest ∧ rest ≠ [] ∧
            Current.dquote ∉ rest)
    (fst (Current.findImages html (lit "4chan")))
  ∧ Forall (fun link => ∃ scheme host name ext,
              link = scheme ++ lit "://" ++ host ++ lit "/assets/images/src/" ++
                     name ++ lit "." ++ ext
              ∧ (scheme = lit "http" ∨ scheme = lit "https")
              ∧ host ≠ [] ∧ (sep_char ∉ host)
              ∧ name ≠ [] ∧ Forall (fun c => Regexp.is_alnum c = true) name
              ∧ (ext = lit "png" ∨ ext = lit "jpg"))
      (fst (Current.findImages html (lit "twochen"))).
Proof.
  split.
  - eapply findImages_from_matches; [apply siteInfoMap_4chan|].
    cbn [Current.ImgRE]. intros whole cap' Hd.
    apply re_4chan_capture in Hd as (rest & -> & Hne & Hq).
    unfold Current.link_of_match. rewrite ID_4chan. cbn [snd from_option id].
    destruct (decide _); [|done].
    rewrite (Replace_prefix (lit "//i.4cdn.org") (lit "https://i.4cdn.org")).
    by exists rest.
  - eapply findImages_from_matches; [apply siteInfoMap_twochen|].
    cbn [Current.ImgRE]. intros whole cap' Hd.
    apply re_twochen_capture in Hd as (scheme & host & name & ext & -> & H).
    unfold Current.link_of_match. rewrite ID_4chan. cbn [snd from_option id].
    destruct (decide _); [done|]. by exists scheme, host, name, ext.
Qed.

(** X14: the loop over the links never panics: every link gets a
    worker, the counter grows by the number of links, and the file name of
    a link is what follows its last "/" (the whole link when it has none,
    the empty name when it ends with one), so that no file name has a "/"
    in it. *)
Theorem dispatch_names_every_link (links : list gostring) (files : Z) :
  is_int files →
  ∃ jobs,
    Current.dispatch links files =
      OS.Ok (jobs, OS.wrap_int (files + Z.of_nat (length links)))
    ∧ Current.job_url <$> jobs = links
    ∧ Forall (fun j =>
        (sep_char ∉ Current.job_fileName j)
        ∧ (Current.job_url j = Current.job_fileName j
           ∨ ∃ d, Current.job_url j = d ++ lit "/" ++ Current.job_fileName j)) jobs.
Proof.
  intros Hint.
  assert (H : ∃ jobs files', Current.dispatch links files = OS.Ok (jobs, files')
    ∧ Forall (fun j =>
        (sep_char ∉ Current.job_fileName j)
        ∧ (Current.job_url j = Current.job_fileName j
           ∨ ∃ d, Current.job_url j = d ++ lit "/" ++ Current.job_fileName j)) jobs).
  { clear Hint. revert files. induction links as [|link links IH]; intros files.
    - exists [], files. by split.
    - cbn [Current.dispatch]. rewrite index_last.
      destruct (IH (OS.wrap_int (files + 1))) as (jobs & files' & -> & Hall).
      destruct (last_slash link) as [Hno|(d & name & -> & Hname)].
      + rewrite (Split_no_slash link Hno). cbn [last].
        eexists _, _. split; [done|]. constructor; [|done]. cbn. by split; [|left].
      + rewrite Split_slash_app, (Split_no_slash name Hname), last_snoc.
        eexists _, _. split; [done|]. constructor; [|done]. cbn.
        split; [done|]. right. by exists d. }
  destruct H as (jobs & files' & Hd & Hall).
  destruct (dispatch_spec links files jobs files' Hint Hd) as [Hu ->].
  by exists jobs.
Qed.

(** ** The worker and the loop over the sources of the previous program *)
Section LegacyWorker.
Import Strings Regexp OS.
Variable e : env.

Lemma legacy_locate_first (url fileName : gostring) (w : world) (rp : response) :
  http_get e (clock w) url = GetResp rp → StatusCode rp ≠ 404 →
  Legacy.locate e url fileName w =
    (Ok (rp, fileName),
     {| fs := fs w; clock := S (clock w); log := log w ++ [EvGet url] |}).
Proof.
  intros Hg Hs. unfold Legacy.locate, Legacy.fallback. cbn [http_Get]. rewrite Hg.
  cbn [Legacy.response_of]. by destruct (decide _).
Qed.

Lemma digit_run_sound (s : gostring) :
  Forall (fun d => d ≠ [] ∧ Forall (fun c => is_digit c = true) d)
    (FindAllString Legacy.re s).
Proof.
  unfold FindAllString, FindAllStringSubmatch. apply Forall_fmap.
  eapply Forall_impl; [apply scan_sound|].
  intros [whole g] (cap' & Hd & _). cbn in *. tauto.
Qed.

End LegacyWorker.

(** X15: in the previous program a link that is answered 404 under all
    four extensions is requested four times and nothing is written. *)
Theorem legacy_not_found_under_any_extension (e : OS.env) (monitorMode : bool)
  (stem fileName path : gostring) (w : OS.world) :
  Strings.Contains stem jpg = false →
  not_found_before e w stem 4 →
  Legacy.downloadFile e monitorMode (stem ++ jpg) fileName path w =
    (OS.Ok Legacy.NotFound,
     {| OS.fs := OS.fs w; OS.clock := OS.clock w + 4;
        OS.log := OS.log w ++ ((fun x => OS.EvGet (stem ++ x)) <$> candidates) |}).
Proof.
  intros Hstem Hnf.
  destruct (Hnf 0%nat (lit ".jpg")) as (r0 & H0 & S0); [lia|done|].
  destruct (Hnf 1%nat (lit ".png")) as (r1 & H1 & S1); [lia|done|].
  destruct (Hnf 2%nat (lit ".webm")) as (r2 & H2 & S2); [lia|done|].
  destruct (Hnf 3%nat (lit ".gif")) as (r3 & H3 & S3); [lia|done|].
  rewrite Nat.add_0_r in H0. change (lit ".jpg") with jpg in H0.
  unfold Legacy.downloadFile, Legacy.locate, Legacy.fallback. cbn [OS.http_Get].
  rewrite H0. cbn [Legacy.response_of]. destruct (decide _); [|done].
  change (lit ".jpg") with jpg. rewrite (Split_before_jpg stem Hstem).
  unfold Legacy.extList. cbn [Legacy.fallback_loop OS.http_Get OS.clock OS.fs OS.log].
  replace (S (OS.clock w)) with (OS.clock w + 1)%nat by lia. rewrite H1.
  cbn [Legacy.response_of]. destruct (decide _); [done|].
  replace (S (OS.clock w + 1)) with (OS.clock w + 2)%nat by lia. rewrite H2.
  cbn [Legacy.response_of]. destruct (decide _); [done|].
  replace (S (OS.clock w + 2)) with (OS.clock w + 3)%nat by lia. rewrite H3.
  cbn [Legacy.response_of]. destruct (decide _); [done|].
  destruct (decide _); [done|].
  f_equal. f_equal; [lia|]. cbn. by rewrite <- !app_assoc.
Qed.


(** X17: the previous program has no check of the request error: a
    request that fails without a response makes the worker panic, be it
    the first request or, after a 404, the one for the next extension. *)
Theorem legacy_transport_failure_panics (e : OS.env) (monitorMode : bool)
  (path : gostring) (w : OS.world) :
  (∀ url fileName,
     OS.http_get e (OS.clock w) url = OS.GetFail None →
     Legacy.downloadFile e monitorMode url fileName path w =
       (OS.Panic,
        {| OS.fs := OS.fs w; OS.clock := S (OS.clock w);
           OS.log := OS.log w ++ [OS.EvGet url] |}))
  ∧ (∀ stem fileName r0,
       Strings.Contains stem jpg = false →
       OS.http_get e (OS.clock w) (stem ++ jpg) = OS.GetResp r0 →
       OS.StatusCode r0 = 404 →
       OS.http_get e (S (OS.clock w)) (stem ++ lit ".png") = OS.GetFail None →
       Legacy.downloadFile e monitorMode (stem ++ jpg) fileName path w =
         (OS.Panic,
          {| OS.fs := OS.fs w; OS.clock := S (S (OS.clock w));
             OS.log := OS.log w ++
                       [OS.EvGet (stem ++ jpg); OS.EvGet (stem ++ lit ".png")] |})).
Proof.
  split.
  - intros url fileName Hg. unfold Legacy.downloadFile, Legacy.locate.
    cbn [OS.http_Get]. by rewrite Hg.
  - intros stem fileName r0 Hstem H0 S0 H1.
    unfold Legacy.downloadFile, Legacy.locate, Legacy.fallback. cbn [OS.http_Get].
    rewrite H0. cbn [Legacy.response_of]. destruct (decide _); [|done].
    change (lit ".jpg") with jpg. rewrite (Split_before_jpg stem Hstem).
    unfold Legacy.extList. cbn [Legacy.fallback_loop OS.http_Get OS.clock OS.fs OS.log].
    rewrite H1. cbn. by rewrite <- app_assoc.
Qed.

(** X18: in monitor mode the previous program looks for the file only
    after the answer has come: for a file that is there the request is
    made all the same, and nothing is written. *)
Theorem legacy_monitor_skips_after_the_request (e : OS.env)
  (url fileName path : gostring) (w : OS.world) (rp : OS.response) :
  OS.http_get e (OS.clock w) url = OS.GetResp rp →
  OS.StatusCode rp ≠ 404 →
  OS.IsNotExist (OS.os_Stat e (path ++ lit "//" ++ fileName) w) = false →
  Legacy.downloadFile e true url fileName path w =
    (OS.Ok Legacy.SkippedExisting,
     {| OS.fs := OS.fs w; OS.clock := S (OS.clock w);
        OS.log := OS.log w ++ [OS.EvGet url] |}).
Proof.
  intros Hg Hs Hthere.
  unfold Legacy.downloadFile. rewrite (legacy_locate_first e url fileName w rp Hg Hs).
  destruct (decide _); [|done].
  set (w1 := {| OS.fs := OS.fs w |}).
  assert (Hstat : OS.os_Stat e (path ++ lit "//" ++ fileName) w1 =
                  OS.os_Stat e (path ++ lit "//" ++ fileName) w) by done.
  by rewrite Hstat, Hthere.
Qed.

(** X19: the loop over the image sources of the previous program leaves
    out the sources of the cosmetic host and panics if and only if one of
    the others has fewer than two runs of digits in its link; otherwise
    every such source gets a worker for its link, under the name of the
    second run of digits followed by ".jpg", and is counted. *)
Theorem legacy_dispatch_needs_two_digit_runs (srcs : list gostring) (files : Z) :
  is_int files →
  (Legacy.dispatch srcs files = OS.Panic ↔
   ∃ src, src ∈ srcs ∧ wanted src ∧
     (length (Regexp.FindAllString Legacy.re (legacy_link src)) < 2)%nat)
  ∧ (∀ jobs files',
       Legacy.dispatch srcs files = OS.Ok (jobs, files') →
       Legacy.job_url <$> jobs = legacy_link <$> filter wanted srcs
       ∧ files' = OS.wrap_int (files + Z.of_nat (length jobs))
       ∧ Forall (fun j => ∃ digits,
            Regexp.FindAllString Legacy.re (Legacy.job_url j) !! 1%nat = Some digits
            ∧ Legacy.job_fileName j = digits ++ jpg
            ∧ digits ≠ []
            ∧ Forall (fun c => Regexp.is_digit c = true) digits) jobs).
Proof.
  revert files. induction srcs as [|src srcs IH]; intros files Hint.
  - split.
    + split; [done|]. intros (src & Hin & _). by apply elem_of_nil in Hin.
    + intros jobs files' [= <- <-]. cbn. rewrite Z.add_0_r.
      by rewrite (wrap_int_id files Hint).
  - cbn [Legacy.dispatch]. rewrite filter_cons.
    destruct (Strings.Contains src (lit "s.4cdn.org")) eqn:Hc; cbn [negb].
    + destruct (decide (wanted src)) as [Hw|_]; [unfold wanted in Hw; congruence|].
      destruct (IH files Hint) as [IHp IHok]. split; [|done].
      rewrite IHp. split.
      * intros (s & Hin & H). exists s. split; [by right|done].
      * intros (s & [->|Hin]%elem_of_cons & Hw & Hl);
          [unfold wanted in Hw; congruence|]. by exists s.
    + destruct (decide (wanted src)) as [_|Hn]; [|by destruct Hn].
      fold (legacy_link src).
      assert (Hidx : index (Regexp.FindAllString Legacy.re (legacy_link src)) 1 =
                     Regexp.FindAllString Legacy.re (legacy_link src) !! 1%nat) by done.
      rewrite Hidx.
      destruct (Regexp.FindAllString Legacy.re (legacy_link src) !! 1%nat)
        as [digits|] eqn:Hd.
      * destruct (IH (OS.wrap_int (files + 1)) (wrap_int_is_int _)) as [IHp IHok].
        pose proof (lookup_lt_Some _ _ _ Hd) as Hlen.
        destruct (Legacy.dispatch srcs (OS.wrap_int (files + 1)))
          as [[jobs0 files0]|] eqn:Hrec.
        -- split.
           ++ split; [done|]. intros (s & [->|Hin]%elem_of_cons & Hw & Hl); [lia|].
              assert (OS.Ok (jobs0, files0) = OS.Panic) as Habs; [|done].
              apply IHp. by exists s.
           ++ intros jobs files' [= <- <-].
              destruct (IHok _ _ eq_refl) as (Hu & -> & Hall).
              split; [cbn; by f_equal|]. split.
              ** rewrite wrap_int_add. f_equal. cbn [length]. lia.
              ** constructor; [|done]. exists digits.
                 cbn [Legacy.job_url Legacy.job_fileName].
                 split; [exact Hd|]. split; [done|].
                 pose proof (digit_run_sound (legacy_link src)) as Hruns.
                 rewrite Forall_forall in Hruns.
                 apply Hruns. by eapply list_elem_of_lookup_2.
        -- split; [|done]. split; [|done]. intros _.
           destruct (proj1 IHp eq_refl) as (s & Hin & H). exists s. split; [by right|done].
      * split; [|done]. split; [|done]. intros _. exists src.
        split; [left|]. split; [done|]. apply lookup_ge_None in Hd. lia.
Qed.

(** ** The nested fallback of the first program *)
Section FirstProgram.
Import Strings Regexp OS.
Variable e : env.

Lemma HasPrefix_refl (s : gostring) : HasPrefix s s = true.
Proof. induction s as [|c s IH]; [done|]. cbn. by destruct (decide _). Qed.

Lemma Cut_unfold (s sep : gostring) :
  Cut s sep =
  if HasPrefix s sep then Some ([], drop (length sep) s)
  else match s with
       | [] => None
       | c :: s' =>
           match Cut s' sep with
           | Some (before, after) => Some (c :: before, after)
           | None => None
           end
       end.
Proof. by destruct s. Qed.

Lemma Cut_before (sep name : gostring) :
  no_overlap sep → Contains name sep = false → Cut (name ++ sep) sep = Some (name, []).
Proof.
  intros Hsep Hc. induction name as [|c name IH].
  - rewrite Cut_unfold. cbn [app]. by rewrite HasPrefix_refl, drop_all.
  - destruct (Contains_cons _ _ _ Hc) as [Hp Hc'].
    rewrite Cut_unfold. cbn [app].
    destruct (HasPrefix (c :: name ++ sep) sep) eqn:H.
    { apply (Hsep (c :: name)) in H; [congruence|done]. }
    by rewrite (IH Hc').
Qed.

Lemma Replace_before (sep new name : gostring) :
  no_overlap sep → Contains name sep = false →
  Replace (name ++ sep) sep new 1 = name ++ new.
Proof.
  intros Hsep Hc. cbn [Replace]. rewrite (Cut_before sep name Hsep Hc).
  by rewrite app_nil_r.
Qed.

Lemma no_overlap_jpg : no_overlap (lit ".jpg").
Proof.
  intros x. change (lit ".jpg") with ["."%char; "j"%char; "p"%char; "g"%char].
  destruct x as [|c1 [|c2 [|c3 [|c4 x]]]]; [done|..]; intros _; cbn;
    repeat (destruct (decide _); try done).
Qed.

Lemma no_overlap_png : no_overlap (lit ".png").
Proof.
  intros x. change (lit ".png") with ["."%char; "p"%char; "n"%char; "g"%char].
  destruct x as [|c1 [|c2 [|c3 [|c4 x]]]]; [done|..]; intros _; cbn;
    repeat (destruct (decide _); try done).
Qed.

Lemma no_overlap_webm : no_overlap (lit ".webm").
Proof.
  intros x.
  change (lit ".webm") with ["."%char; "w"%char; "e"%char; "b"%char; "m"%char].
  destruct x as [|c1 [|c2 [|c3 [|c4 [|c5 x]]]]]; [done|..]; intros _; cbn;
    repeat (destruct (decide _); try done).
Qed.

Lemma digits_no_extension (digits rest : gostring) :
  Forall (fun c => is_digit c = true) digits →
  Contains digits ("."%char :: rest) = false.
Proof.
  induction 1 as [|c digits Hc _ IH]; [done|].
  cbn [Contains]. rewrite IH, orb_false_r. cbn.
  destruct (decide _) as [<-|]; [|done]. by vm_compute in Hc.
Qed.

Lemma next_try_spec (old new stem name : gostring) (w : world) (rp : response) :
  no_overlap old → Contains stem old = false → Contains name old = false →
  http_get e (clock w) (stem ++ new) = GetResp rp →
  First.next_try e old new (stem ++ old) (name ++ old) w =
    (Ok (rp, stem ++ new, name ++ new),
     {| fs := fs w; clock := S (clock w); log := log w ++ [EvGet (stem ++ new)] |}).
Proof.
  intros Hold Hstem Hname Hg. unfold First.next_try.
  rewrite (Replace_before old new stem Hold Hstem).
  rewrite (Replace_before old new name Hold Hname).
  cbn [http_Get]. by rewrite Hg.
Qed.

Lemma first_locate_candidate (stem digits : gostring) (w : world) (k : nat)
  (ext : gostring) (rk : response) :
  Contains stem jpg = false →
  Contains stem (lit ".png") = false →
  Contains stem (lit ".webm") = false →
  Forall (fun c => is_digit c = true) digits →
  candidates !! k = Some ext →
  not_found_before e w stem k →
  http_get e (clock w + k) (stem ++ ext) = GetResp rk → StatusCode rk ≠ 404 →
  First.locate e (stem ++ jpg) (digits ++ jpg) w =
    (Ok (rk, digits ++ ext),
     {| fs := fs w; clock := clock w + S k;
        log := log w ++ ((fun x => EvGet (stem ++ x)) <$> take (S k) candidates) |}).
Proof.
  intros Hjpg Hpng Hwebm Hdigits Hext Hnf Hk Hst.
  assert (Hnf' : ∀ i ext, (i < k)%nat → candidates !! i = Some ext →
            ∃ r, http_get e (i + clock w) (stem ++ ext) = GetResp r ∧ StatusCode r = 404).
  { intros i x Hi Hx. rewrite Nat.add_comm. by apply Hnf. }
  rewrite Nat.add_comm in Hk. clear Hnf.
  unfold First.locate. cbn [http_Get].
  destruct k as [|k].
  { inversion Hext; subst ext. cbn [Nat.add] in Hk. change (lit ".jpg") with jpg in *.
    rewrite Hk. cbn [First.response_of].
    destruct (decide _); [done|]. do 2 f_equal. cbn. f_equal. lia. }
  destruct (Hnf' 0%nat (lit ".jpg")) as (r0 & H0 & S0); [lia|done|].
  cbn [Nat.add] in H0. change (lit ".jpg") with jpg in H0. rewrite H0.
  cbn [First.response_of]. destruct (decide _); [|done].
  set (w0 := {| fs := fs w; clock := S (clock w);
                log := log w ++ [EvGet (stem ++ jpg)] |}).
  destruct k as [|k].
  { inversion Hext; subst ext. cbn [Nat.add] in Hk.
    unfold jpg. rewrite (next_try_spec (lit ".jpg") (lit ".png") stem digits w0 rk);
      [|apply no_overlap_jpg|done|by apply digits_no_extension|done].
    destruct (decide _); [done|].
    f_equal. subst w0. cbn. f_equal; [lia|by rewrite <- ?app_assoc]. }
  destruct (Hnf' 1%nat (lit ".png")) as (r1 & H1 & S1); [lia|done|].
  cbn [Nat.add] in H1.
  unfold jpg. rewrite (next_try_spec (lit ".jpg") (lit ".png") stem digits w0 r1);
    [|apply no_overlap_jpg|done|by apply digits_no_extension|done].
  destruct (decide _); [|done].
  set (w1 := {| fs := fs w0; clock := S (clock w0);
                log := log w0 ++ [EvGet (stem ++ lit ".png")] |}).
  destruct k as [|k].
  { inversion Hext; subst ext. cbn [Nat.add] in Hk.
    rewrite (next_try_spec (lit ".png") (lit ".webm") stem digits w1 rk);
      [|apply no_overlap_png|done|by apply digits_no_extension|done].
    destruct (decide _); [done|].
    f_equal. subst w1 w0. cbn. f_equal; [lia|by rewrite <- ?app_assoc]. }
  destruct (Hnf' 2%nat (lit ".webm")) as (r2 & H2 & S2); [lia|done|].
  cbn [Nat.add] in H2.
  rewrite (next_try_spec (lit ".png") (lit ".webm") stem digits w1 r2);
    [|apply no_overlap_png|done|by apply digits_no_extension|done].
  destruct (decide _); [|done].
  set (w2 := {| fs := fs w1; clock := S (clock w1);
                log := log w1 ++ [EvGet (stem ++ lit ".webm")] |}).
  destruct k as [|k]; [|done].
  inversion Hext; subst ext. cbn [Nat.add] in Hk.
  rewrite (next_try_spec (lit ".webm") (lit ".gif") stem digits w2 rk);
    [|apply no_overlap_webm|done|by apply digits_no_extension|done].
  f_equal. subst w2 w1 w0. cbn. f_equal; [lia|by rewrite <- ?app_assoc].
Qed.

End FirstProgram.


(** X21: the first program writes the candidate it has found under the
    name with the extension of that candidate, whether or not a file of
    that name is there, and reports its size in bytes. *)
Theorem first_downloadFile_saves_the_candidate (e : OS.env)
  (stem digits path : gostring) (w : OS.world) (k : nat) (ext : gostring)
  (rk : OS.response) :
  let filePath := path ++ lit "//" ++ digits ++ ext in
  let body := OS.copied e filePath rk in
  let size := Z.of_nat (length body) in
  Strings.Contains stem jpg = false →
  Strings.Contains stem (lit ".png") = false →
  Strings.Contains stem (lit ".webm") = false →
  Forall (fun c => Regexp.is_digit c = true) digits →
  candidates !! k = Some ext →
  not_found_before e w stem k →
  OS.http_get e (OS.clock w + k) (stem ++ ext) = OS.GetResp rk →
  OS.StatusCode rk ≠ 404 →
  OS.create_fails e (OS.resolve filePath) = false →
  OS.fs w !! OS.resolve filePath ≠ Some OS.Dir →
  First.downloadFile e (stem ++ jpg) (digits ++ jpg) path w =
    (OS.Ok (First.Saved (digits ++ ext) size),
     {| OS.fs := <[OS.resolve filePath := OS.File body]> (OS.fs w);
        OS.clock := OS.clock w + S k;
        OS.log := OS.log w ++
                  ((fun x => OS.EvGet (stem ++ x)) <$> take (S k) candidates) ++
                  [OS.EvCreate filePath; OS.EvCopy filePath size;
                   OS.EvPrint (OS.MsgDownloaded (digits ++ ext) size 0)] |}).
Proof.
  intros filePath body size Hjpg Hpng Hwebm Hdigits Hext Hnf Hk Hst Hcreate Hdir.
  unfold First.downloadFile.
  rewrite (first_locate_candidate e stem digits w k ext rk); try done.
  destruct (decide _); [|done]. fold filePath.
  unfold OS.os_Create.
  destruct (decide (filePath = [])) as [Hnil|_].
  { subst filePath. by destruct path. }
  rewrite Hcreate. cbn [OS.fs].
  destruct (OS.fs w !! OS.resolve filePath) as [[|]|] eqn:Hfs; try done;
    unfold OS.io_Copy; cbn zeta; fold body; fold size;
    unfold OS.emit, OS.set_fs; cbn [OS.fs OS.clock OS.log];
    (f_equal; f_equal; [by rewrite insert_insert_eq|by rewrite <- !app_assoc]).
Qed.

(** X22: the first program does not look at the error of [os.Create]:
    when the file cannot be created it still reports a download, of
    zero bytes, and the files are as they were. *)
Theorem first_reports_a_download_it_could_not_write (e : OS.env)
  (url fileName path : gostring) (w : OS.world) (rp : OS.response) :
  let filePath := path ++ lit "//" ++ fileName in
  OS.http_get e (OS.clock w) url = OS.GetResp rp →
  OS.StatusCode rp ≠ 404 →
  OS.create_fails e (OS.resolve filePath) = true
    ∨ OS.fs w !! OS.resolve filePath = Some OS.Dir →
  First.downloadFile e url fileName path w =
    (OS.Ok (First.Saved fileName 0),
     {| OS.fs := OS.fs w; OS.clock := S (OS.clock w);
        OS.log := OS.log w ++
                  [OS.EvGet url; OS.EvCreate filePath;
                   OS.EvPrint (OS.MsgDownloaded fileName 0 0)] |}).
Proof.
  intros filePath Hg Hs Hfail.
  unfold First.downloadFile, First.locate. cbn [OS.http_Get]. rewrite Hg.
  cbn [First.response_of]. destruct (decide _); [done|].
  destruct (decide _); [|done]. fold filePath.
  unfold OS.os_Create.
  destruct (decide (filePath = [])) as [Hnil|_].
  { subst filePath. by destruct path. }
  cbn [OS.fs].
  destruct (OS.create_fails e (OS.resolve filePath)) eqn:Hcf.
  - unfold OS.emit. cbn [OS.fs OS.clock OS.log]. by rewrite <- !app_assoc.
  - destruct Hfail as [|Hdir]; [done|]. rewrite Hdir.
    unfold OS.emit. cbn [OS.fs OS.clock OS.log]. by rewrite <- !app_assoc.
Qed.

(** ** The properties on runs of the programs *)


Lemma downloadFile_fails_on_terminal_status_witness :
  Current.fileExists (Examples.env_of Scenarios.net_error)
    (Filepath.Join Examples.dir_123 (lit "1.jpg")) Examples.world0 = OS.Ok false
  ∧ Current.downloadFile (Examples.env_of Scenarios.net_error) Current.GlobalConfig
      Scenarios.image_url (lit "1.jpg") Examples.dir_123 Examples.world0 =
    (OS.Ok (Current.Failed Current.NonSuccessStatus),
     {| OS.fs := ∅; OS.clock := 2;
        OS.log := retries (Examples.env_of Scenarios.net_error) Current.GlobalConfig
                    Scenarios.image_url Examples.world0 1 ++
                  [OS.EvGet Scenarios.image_url; OS.EvPrint (OS.MsgFailed (lit "1.jpg"))] |}).
Proof.
  assert (H1 : Current.fileExists (Examples.env_of Scenarios.net_error)
                 (Filepath.Join Examples.dir_123 (lit "1.jpg")) Examples.world0 =
               OS.Ok false) by (vm_compute; reflexivity).
  split; [exact H1|].
  refine (downloadFile_fails_on_terminal_status
            (Examples.env_of Scenarios.net_error) Current.GlobalConfig
            Scenarios.image_url (lit "1.jpg") Examples.dir_123 Examples.world0 1
            Scenarios.error_page H1 _ _ _ _ _ _).
  - vm_compute. lia.
  - intros [|i] Hi; [left; reflexivity|lia].
  - reflexivity.
  - discriminate.
  - discriminate.
  - discriminate.
Defined.

Lemma downloadFile_without_budget_panics_witness :
  Current.RetryAttempts Scenarios.no_budget <= 0
  ∧ Current.downloadFile (Examples.env_of Examples.net_three) Scenarios.no_budget
      Scenarios.image_url (lit "1.jpg") Examples.dir_123 Examples.world0 =
    (OS.Panic, Examples.world0).
Proof.
  assert (H1 : Current.RetryAttempts Scenarios.no_budget <= 0) by (vm_compute; discriminate).
  split; [exact H1|].
  refine (downloadFile_without_budget_panics (Examples.env_of Examples.net_three)
            Scenarios.no_budget Scenarios.image_url (lit "1.jpg") Examples.dir_123
            Examples.world0 H1 _).
  vm_compute; reflexivity.
Defined.

Lemma downloadFile_touches_only_its_destination_witness :
  OS.fs (snd (Current.downloadFile (Examples.env_of Examples.net_three)
                Current.GlobalConfig (lit "https://i.4cdn.org/w/2.png") (lit "2.png")
                Examples.dir_123 Examples.world_with_file))
    !! lit "/home/u/w/123/1.jpg" = Some (OS.File (lit "image bytes")).
Proof.
  rewrite (proj1 (downloadFile_touches_only_its_destination
             (Examples.env_of Examples.net_three) Current.GlobalConfig
             (lit "https://i.4cdn.org/w/2.png") (lit "2.png") Examples.dir_123
             Examples.world_with_file) (lit "/home/u/w/123/1.jpg")).
  - vm_compute; reflexivity.
  - vm_compute; discriminate.
Defined.

Lemma downloadFile_cut_copy_is_skipped_later_witness :
  Examples.dir_123 ≠ []
  ∧ fst Scenarios.cut_download = OS.Ok (Current.Failed Current.CopyError)
  ∧ Current.downloadFile Scenarios.env_disk_full Current.GlobalConfig
      Scenarios.image_url (lit "1.jpg") Examples.dir_123 (snd Scenarios.cut_download) =
    (OS.Ok Current.SkippedExisting, snd Scenarios.cut_download).
Proof.
  assert (H1 : Examples.dir_123 ≠ []) by (vm_compute; discriminate).
  assert (H2 : Scenarios.cut_download =
               (OS.Ok (Current.Failed Current.CopyError), snd Scenarios.cut_download))
    by (vm_compute; reflexivity).
  split; [exact H1|]. split; [by rewrite H2|].
  refine (proj2 (downloadFile_cut_copy_is_skipped_later Scenarios.env_disk_full
            Current.GlobalConfig Scenarios.image_url (lit "1.jpg") Examples.dir_123
            Examples.world0 (snd Scenarios.cut_download) H1 H2)
            (snd Scenarios.cut_download) Scenarios.image_url _).
  intros k Hk. exact Hk.
Defined.

Lemma downloadFile_directory_in_the_way_witness :
  Examples.dir_123 ≠ []
  ∧ OS.fs Scenarios.world_with_dir !!
      OS.resolve (Examples.dir_123 ++ lit "/" ++ lit "1.jpg") = Some OS.Dir
  ∧ OS.fs (snd Scenarios.blocked_download) = OS.fs Scenarios.world_with_dir
  ∧ fst Scenarios.blocked_download ≠ OS.Ok Current.SkippedExisting.
Proof.
  assert (H1 : Examples.dir_123 ≠ []) by (vm_compute; discriminate).
  assert (H2 : OS.fs Scenarios.world_with_dir !!
                 OS.resolve (Examples.dir_123 ++ lit "/" ++ lit "1.jpg") = Some OS.Dir)
    by (vm_compute; reflexivity).
  split; [exact H1|]. split; [exact H2|].
  destruct (downloadFile_directory_in_the_way (Examples.env_of Examples.net_three)
              Current.GlobalConfig Scenarios.image_url (lit "1.jpg") Examples.dir_123
              Scenarios.world_with_dir (snd Scenarios.blocked_download)
              (fst Scenarios.blocked_download) H1 H2
              (surjective_pairing Scenarios.blocked_download))
    as (Hfs & Hskip & _).
  split; [exact Hfs|exact Hskip].
Defined.

Lemma main_needs_board_and_thread_witness :
  Current.main 1 (Examples.env_of Examples.net_three) Current.GlobalConfig
    (lit "https://boards.4chan.org/w") (lit "4chan") (lit "/home/u") false 0
    Examples.world0 = (Current.Crashed, Examples.world0)
  ∧ Current.main 1 (Examples.env_of Examples.net_three) Current.GlobalConfig
      Examples.thread_url (lit "4chan") (lit "/home/u") false 0 Examples.world0 =
    Current.main_loop 1 (Examples.env_of Examples.net_three) Current.GlobalConfig
      Examples.thread_url (lit "4chan") Examples.dir_123 (lit "123") false 0 0
      (OS.emit (OS.EvPrint OS.MsgFolderCreated)
         (OS.os_MkdirAll (Examples.env_of Examples.net_three) Examples.dir_123
            (OS.os_MkdirAll (Examples.env_of Examples.net_three) (lit "/home/u/w")
               Examples.world0))).
Proof.
  split.
  - refine (proj1 (main_needs_board_and_thread 1 (Examples.env_of Examples.net_three)
              Current.GlobalConfig (lit "https://boards.4chan.org/w") (lit "4chan")
              (lit "/home/u") false 0 Examples.world0) _).
    vm_compute. lia.
  - refine (proj2 (main_needs_board_and_thread 1 (Examples.env_of Examples.net_three)
              Current.GlobalConfig Examples.thread_url (lit "4chan")
              (lit "/home/u") false 0 Examples.world0) (lit "w") (lit "123") _ _);
      vm_compute; reflexivity.
Defined.

Lemma negative_interval_does_not_wait_witness :
  -1 < 0
  ∧ Examples.first_cycle = (OS.Ok Examples.first_report, Examples.after_first_cycle)
  ∧ Current.main_loop 2 (Examples.env_of Examples.net_three) Current.GlobalConfig
      Examples.thread_url (lit "4chan") Examples.dir_123 (lit "123") true (-1) 0
      Examples.world0 =
    Current.main_loop 1 (Examples.env_of Examples.net_three) Current.GlobalConfig
      Examples.thread_url (lit "4chan") Examples.dir_123 (lit "123") true (-1)
      (Current.files_after Examples.first_report) Examples.after_first_cycle.
Proof.
  assert (H1 : -1 < 0) by lia.
  assert (H2 : Examples.first_cycle =
               (OS.Ok Examples.first_report, Examples.after_first_cycle))
    by (vm_compute; reflexivity).
  split; [exact H1|]. split; [exact H2|].
  exact (proj2 (negative_interval_does_not_wait 1 (Examples.env_of Examples.net_three)
                  Current.GlobalConfig Examples.thread_url (lit "4chan")
                  Examples.dir_123 (lit "123") (-1) 0 Examples.world0
                  Examples.after_first_cycle Examples.first_report H1 H2)).
Defined.

Lemma cycle_of_an_unknown_site_witness :
  Current.siteInfoMap !! lit "8chan" = None
  ∧ fair (Examples.env_of Examples.net_three)
  ∧ Current.cycle (Examples.env_of Examples.net_three) Current.GlobalConfig
      Examples.thread_url (lit "8chan") Examples.dir_123 0 Examples.world0 =
    (OS.Ok {| Current.files_after := 0; Current.outcomes := [] |},
     {| OS.fs := ∅; OS.clock := 1;
        OS.log := [OS.EvGet Examples.thread_url;
                   OS.EvPrint (OS.MsgNoSite (lit "8chan"))] |}).
Proof.
  assert (H1 : Current.siteInfoMap !! lit "8chan" = None) by (vm_compute; reflexivity).
  assert (H2 : fair (Examples.env_of Examples.net_three)) by (intros A l; reflexivity).
  split; [exact H1|]. split; [exact H2|].
  refine (proj2 (cycle_of_an_unknown_site (Examples.env_of Examples.net_three)
            Current.GlobalConfig Examples.thread_url (lit "8chan") Examples.dir_123 0
            Examples.world0
            {| OS.StatusCode := 200; OS.Body := Examples.page_three;
               OS.BodyErr := false |} H1 H2 _)).
  reflexivity.
Defined.

Lemma unique_fixes_duplicate_free_lists_witness :
  NoDup [lit "a"; lit "b"]
  ∧ Current.unique [lit "a"; lit "b"] = [lit "a"; lit "b"].
Proof.
  assert (H1 : NoDup [lit "a"; lit "b"]).
  { apply (bool_decide_unpack _). vm_compute. exact I. }
  split; [exact H1|].
  exact (proj1 (unique_fixes_duplicate_free_lists [lit "a"; lit "b"]) H1).
Defined.

Lemma dispatch_names_every_link_witness :
  is_int 0
  ∧ ∃ jobs,
      Current.dispatch [lit "https://i.4cdn.org/a/1.jpg"; lit "https://i.4cdn.org/b/1.jpg"] 0 =
        OS.Ok (jobs, 2)
      ∧ Current.job_url <$> jobs =
          [lit "https://i.4cdn.org/a/1.jpg"; lit "https://i.4cdn.org/b/1.jpg"].
Proof.
  assert (H1 : is_int 0) by (unfold is_int; lia).
  split; [exact H1|].
  destruct (dispatch_names_every_link
              [lit "https://i.4cdn.org/a/1.jpg"; lit "https://i.4cdn.org/b/1.jpg"] 0 H1)
    as (jobs & Hd & Hu & _).
  exists jobs. split; [exact Hd|exact Hu].
Defined.

Lemma legacy_not_found_under_any_extension_witness :
  Strings.Contains Examples.legacy_stem jpg = false
  ∧ not_found_before (Examples.env_of Examples.net_gone) Examples.world0
      Examples.legacy_stem 4
  ∧ Legacy.downloadFile (Examples.env_of Examples.net_gone) false
      (Examples.legacy_stem ++ jpg) (Examples.legacy_digits ++ jpg) Examples.dir_123
      Examples.world0 =
    (OS.Ok Legacy.NotFound,
     {| OS.fs := ∅; OS.clock := 4;
        OS.log := (fun x => OS.EvGet (Examples.legacy_stem ++ x)) <$> candidates |}).
Proof.
  assert (H1 : Strings.Contains Examples.legacy_stem jpg = false)
    by (vm_compute; reflexivity).
  assert (H2 : not_found_before (Examples.env_of Examples.net_gone) Examples.world0
                 Examples.legacy_stem 4).
  { intros i ext _ _. eexists. split; reflexivity. }
  split; [exact H1|]. split; [exact H2|].
  exact (legacy_not_found_under_any_extension (Examples.env_of Examples.net_gone) false
           Examples.legacy_stem (Examples.legacy_digits ++ jpg) Examples.dir_123
           Examples.world0 H1 H2).
Defined.


Lemma legacy_transport_failure_panics_witness :
  fst (Legacy.downloadFile (Examples.env_of Examples.net_down) false
         (Examples.legacy_stem ++ jpg) (Examples.legacy_digits ++ jpg)
         Examples.dir_123 Examples.world0) = OS.Panic
  ∧ Strings.Contains Examples.legacy_stem jpg = false
  ∧ fst (Legacy.downloadFile (Examples.env_of Scenarios.net_drops) false
           (Examples.legacy_stem ++ jpg) (Examples.legacy_digits ++ jpg)
           Examples.dir_123 Examples.world0) = OS.Panic.
Proof.
  assert (H1 : Strings.Contains Examples.legacy_stem jpg = false)
    by (vm_compute; reflexivity).
  split; [|split; [exact H1|]].
  - rewrite (proj1 (legacy_transport_failure_panics (Examples.env_of Examples.net_down)
               false Examples.dir_123 Examples.world0)
               (Examples.legacy_stem ++ jpg) (Examples.legacy_digits ++ jpg)
               ltac:(reflexivity)).
    reflexivity.
  - rewrite (proj2 (legacy_transport_failure_panics (Examples.env_of Scenarios.net_drops)
               false Examples.dir_123 Examples.world0)
               Examples.legacy_stem (Examples.legacy_digits ++ jpg) Scenarios.not_found
               H1 ltac:(reflexivity) ltac:(reflexivity) ltac:(reflexivity)).
    reflexivity.
Defined.

Lemma legacy_monitor_skips_after_the_request_witness :
  OS.IsNotExist (OS.os_Stat (Examples.env_of Scenarios.net_broken)
                   (Examples.dir_123 ++ lit "//" ++ Examples.legacy_digits ++ jpg)
                   Scenarios.world_with_legacy_file) = false
  ∧ Legacy.downloadFile (Examples.env_of Scenarios.net_broken) true
      (Examples.legacy_stem ++ jpg) (Examples.legacy_digits ++ jpg) Examples.dir_123
      Scenarios.world_with_legacy_file =
    (OS.Ok Legacy.SkippedExisting,
     {| OS.fs := OS.fs Scenarios.world_with_legacy_file; OS.clock := 1;
        OS.log := [OS.EvGet (Examples.legacy_stem ++ jpg)] |}).
Proof.
  assert (H1 : OS.IsNotExist (OS.os_Stat (Examples.env_of Scenarios.net_broken)
                 (Examples.dir_123 ++ lit "//" ++ Examples.legacy_digits ++ jpg)
                 Scenarios.world_with_legacy_file) = false) by (vm_compute; reflexivity).
  split; [exact H1|].
  refine (legacy_monitor_skips_after_the_request (Examples.env_of Scenarios.net_broken)
            (Examples.legacy_stem ++ jpg) (Examples.legacy_digits ++ jpg)
            Examples.dir_123 Scenarios.world_with_legacy_file Scenarios.error_page
            _ _ H1).
  - reflexivity.
  - discriminate.
Defined.

Lemma legacy_dispatch_needs_two_digit_runs_witness :
  is_int 0
  ∧ Legacy.dispatch Scenarios.srcs_short 0 = OS.Panic
  ∧ ∃ jobs,
      Legacy.dispatch Scenarios.srcs_legacy 0 = OS.Ok (jobs, 1)
      ∧ Legacy.job_url <$> jobs = [Examples.legacy_stem ++ jpg].
Proof.
  assert (H1 : is_int 0) by (unfold is_int; lia).
  split; [exact H1|]. split.
  - apply (proj1 (legacy_dispatch_needs_two_digit_runs Scenarios.srcs_short 0 H1)).
    exists (lit "//i.4cdn.org/w/as.jpg"). split; [left|]. split.
    + vm_compute; reflexivity.
    + vm_compute. lia.
  - assert (Hd : Legacy.dispatch Scenarios.srcs_legacy 0 =
                 OS.Ok ([{| Legacy.job_url := Examples.legacy_stem ++ jpg;
                            Legacy.job_fileName := Examples.legacy_digits ++ jpg |}], 1))
      by (vm_compute; reflexivity).
    eexists. split; [exact Hd|].
    rewrite (proj1 (proj2 (legacy_dispatch_needs_two_digit_runs Scenarios.srcs_legacy 0 H1)
                     _ _ Hd)).
    vm_compute; reflexivity.
Defined.


Lemma first_downloadFile_saves_the_candidate_witness :
  Strings.Contains Examples.legacy_stem jpg = false
  ∧ Forall (fun c => Regexp.is_digit c = true) Examples.legacy_digits
  ∧ not_found_before (Examples.env_of Examples.net_png_only) Examples.world0
      Examples.legacy_stem 1
  ∧ fst (First.downloadFile (Examples.env_of Examples.net_png_only)
           (Examples.legacy_stem ++ jpg) (Examples.legacy_digits ++ jpg)
           Examples.dir_123 Examples.world0) =
    OS.Ok (First.Saved (Examples.legacy_digits ++ lit ".png") 9).
Proof.
  assert (H1 : Strings.Contains Examples.legacy_stem jpg = false)
    by (vm_compute; reflexivity).
  assert (H2 : Forall (fun c => Regexp.is_digit c = true) Examples.legacy_digits).
  { vm_compute. repeat constructor. }
  assert (H3 : not_found_before (Examples.env_of Examples.net_png_only) Examples.world0
                 Examples.legacy_stem 1).
  { intros [|i] ext Hi Hext; [|lia]. inversion Hext; subst ext.
    eexists. split; vm_compute; reflexivity. }
  split; [exact H1|]. split; [exact H2|]. split; [exact H3|].
  rewrite (first_downloadFile_saves_the_candidate
             (Examples.env_of Examples.net_png_only)
             Examples.legacy_stem Examples.legacy_digits Examples.dir_123
             Examples.world0 1 (lit ".png")
             {| OS.StatusCode := 200; OS.Body := lit "png bytes"; OS.BodyErr := false |}
             H1 ltac:(vm_compute; reflexivity) ltac:(vm_compute; reflexivity) H2
             ltac:(reflexivity) H3 ltac:(vm_compute; reflexivity) ltac:(discriminate)
             ltac:(reflexivity) ltac:(vm_compute; discriminate)).
  reflexivity.
Defined.

Lemma first_reports_a_download_it_could_not_write_witness :
  OS.create_fails Scenarios.env_read_only
    (OS.resolve (Examples.dir_123 ++ lit "//" ++ lit "1.jpg")) = true
  ∧ First.downloadFile Scenarios.env_read_only Scenarios.image_url (lit "1.jpg")
      Examples.dir_123 Examples.world0 =
    (OS.Ok (First.Saved (lit "1.jpg") 0),
     {| OS.fs := ∅; OS.clock := 1;
        OS.log := [OS.EvGet Scenarios.image_url;
                   OS.EvCreate (Examples.dir_123 ++ lit "//" ++ lit "1.jpg");
                   OS.EvPrint (OS.MsgDownloaded (lit "1.jpg") 0 0)] |}).
Proof.
  assert (H1 : OS.create_fails Scenarios.env_read_only
                 (OS.resolve (Examples.dir_123 ++ lit "//" ++ lit "1.jpg")) = true)
    by reflexivity.
  split; [exact H1|].
  refine (first_reports_a_download_it_could_not_write Scenarios.env_read_only
            Scenarios.image_url (lit "1.jpg") Examples.dir_123 Examples.world0
            {| OS.StatusCode := 200; OS.Body := lit "image bytes"; OS.BodyErr := false |}
            _ _ (or_introl H1)).
  - vm_compute; reflexivity.
  - discriminate.
Defined.
